(** * Residence-status dashboard (static/js/app.js): client-side model

    A shallow embedding of the record filtering, searching and sorting
    code, of the add/edit form validation, of the unsaved-change
    tracker and of the Content-Disposition filename extraction of
    [static/js/app.js], followed by the properties established about
    them.

    Conventions of the embedding:
    - a JavaScript string is the list of its UTF-16 code units;
    - a JavaScript number is an integer, an infinity or NaN (the day
      counts and millisecond timestamps the code handles are integers
      far below 2^53, where double arithmetic is exact);
    - a row is a JavaScript object, modelled as a finite map from
      property names to values;
    - arrays live in a store and variables hold references to them, so
      that [filteredData = allData] shares one array;
    - an abrupt completion (a thrown exception) is an explicit result;
    - writes to the status bar and the re-rendering of the table
      (updateStatus, updateTable, updateUnsavedIndicator) change none of
      the variables and are left out; a handler's dialogs, focus
      changes, requests and downloads are returned as a list of
      events. *)

From Stdlib Require Import ZArith NArith Ascii String List Bool Lia.
From Stdlib Require Import Permutation Sorted DecimalPos.
From stdpp Require Import base decidable option list gmap sorting.

Open Scope Z_scope.
Open Scope list_scope.

(** ** JavaScript strings as UTF-16 code units *)

Abbreviation jsstring := (list N).

Module JsString.

(** Number of leading one bits of a UTF-8 octet (5 stands for "more
    than four"). *)
Definition leadingOnes (b : N) : nat :=
  if (b <? 0x80)%N then 0%nat
  else if (b <? 0xC0)%N then 1%nat
  else if (b <? 0xE0)%N then 2%nat
  else if (b <? 0xF0)%N then 3%nat
  else if (b <? 0xF8)%N then 4%nat
  else 5%nat.

Definition isContinuation (b : N) : bool := (0x80 <=? b)%N && (b <? 0xC0)%N.

(** The code point encoded by a multi-octet UTF-8 sequence, [None] when
    the octets are not the valid (shortest-form, non-surrogate) UTF-8
    encoding of a Unicode code point. *)
Definition utf8CodePoint (octets : list N) : option N :=
  match octets with
  | [b0; b1] =>
      let v := ((b0 - 0xC0) * 0x40 + (b1 - 0x80))%N in
      if isContinuation b1 && (0x80 <=? v)%N then Some v else None
  | [b0; b1; b2] =>
      let v := ((b0 - 0xE0) * 0x1000 + (b1 - 0x80) * 0x40 + (b2 - 0x80))%N in
      if isContinuation b1 && isContinuation b2 && (0x800 <=? v)%N
         && negb ((0xD800 <=? v)%N && (v <=? 0xDFFF)%N)
      then Some v else None
  | [b0; b1; b2; b3] =>
      let v := ((b0 - 0xF0) * 0x40000 + (b1 - 0x80) * 0x1000
                + (b2 - 0x80) * 0x40 + (b3 - 0x80))%N in
      if isContinuation b1 && isContinuation b2 && isContinuation b3
         && (0x10000 <=? v)%N && (v <=? 0x10FFFF)%N
      then Some v else None
  | _ => None
  end.

(** UTF16EncodeCodePoint of ECMA-262. *)
Definition UTF16EncodeCodePoint (cp : N) : jsstring :=
  if (cp <=? 0xFFFF)%N then [cp]
  else [(0xD800 + (cp - 0x10000) / 0x400)%N; (0xDC00 + (cp - 0x10000) mod 0x400)%N].

Definition encodeOctets (octets : list N) : jsstring :=
  match utf8CodePoint octets with
  | Some cp => UTF16EncodeCodePoint cp
  | None => [0xFFFD%N]
  end.

(** The source file is UTF-8: a string literal of the source is read
    here from its UTF-8 bytes. *)
Fixpoint utf8ToUtf16 (bs : list N) : jsstring :=
  match bs with
  | [] => []
  | b :: rest =>
      match leadingOnes b with
      | 0%nat => b :: utf8ToUtf16 rest
      | 2%nat =>
          match rest with
          | b1 :: r => encodeOctets [b; b1] ++ utf8ToUtf16 r
          | _ => [0xFFFD%N]
          end
      | 3%nat =>
          match rest with
          | b1 :: b2 :: r => encodeOctets [b; b1; b2] ++ utf8ToUtf16 r
          | _ => [0xFFFD%N]
          end
      | 4%nat =>
          match rest with
          | b1 :: b2 :: b3 :: r => encodeOctets [b; b1; b2; b3] ++ utf8ToUtf16 r
          | _ => [0xFFFD%N]
          end
      | _ => 0xFFFD%N :: utf8ToUtf16 rest
      end
  end.

Definition js (s : string) : jsstring :=
  utf8ToUtf16 (List.map N_of_ascii (list_ascii_of_string s)).

(** WhiteSpace and LineTerminator code units (StrWhiteSpaceChar). *)
Definition isWhiteSpace (c : N) : bool :=
  ((0x09 <=? c) && (c <=? 0x0D) || (c =? 0x20) || (c =? 0xA0) || (c =? 0x1680)
   || (0x2000 <=? c) && (c <=? 0x200A) || (c =? 0x2028) || (c =? 0x2029)
   || (c =? 0x202F) || (c =? 0x205F) || (c =? 0x3000) || (c =? 0xFEFF))%N.

Fixpoint trimStart (s : jsstring) : jsstring :=
  match s with
  | c :: rest => if isWhiteSpace c then trimStart rest else s
  | [] => []
  end.

(** String.prototype.trim *)
Definition trim (s : jsstring) : jsstring :=
  rev (trimStart (rev (trimStart s))).

Fixpoint startsWith (s needle : jsstring) : bool :=
  match needle, s with
  | [], _ => true
  | _ :: _, [] => false
  | n :: needle', c :: s' => (c =? n)%N && startsWith s' needle'
  end.

(** String.prototype.includes: [needle] occurs in [s] at some index. *)
Fixpoint includes (s needle : jsstring) : bool :=
  startsWith s needle ||
  match s with
  | [] => false
  | _ :: s' => includes s' needle
  end.

(** String.prototype.replace with string arguments: the first
    occurrence of the code unit [c] is replaced. *)
Fixpoint replaceFirst (c : N) (by_ : N) (s : jsstring) : jsstring :=
  match s with
  | [] => []
  | x :: rest => if (x =? c)%N then by_ :: rest else x :: replaceFirst c by_ rest
  end.

(** Case conversion of the Basic Latin letters. *)
Definition asciiLowerUnit (c : N) : N :=
  if ((0x41 <=? c) && (c <=? 0x5A))%N then (c + 0x20)%N else c.

Definition asciiToLowerCase (s : jsstring) : jsstring := List.map asciiLowerUnit s.

(** Lexicographic comparison of code-unit sequences ([s < t] on two
    strings). *)
Fixpoint str_lt (s t : jsstring) : bool :=
  match s, t with
  | _, [] => false
  | [], _ :: _ => true
  | x :: s', y :: t' =>
      if (x <? y)%N then true else if (y <? x)%N then false else str_lt s' t'
  end.

End JsString.

Import JsString.

(** ** JavaScript values *)

Inductive jsError := TypeError | URIError.

(** Completion of an evaluation: a value, or a thrown exception. *)
Inductive completion (A : Type) :=
| Normal (a : A)
| Throw (e : jsError).
Arguments Normal {A} a.
Arguments Throw {A} e.

Definition bindC {A B} (c : completion A) (k : A -> completion B) : completion B :=
  match c with
  | Normal a => k a
  | Throw e => Throw e
  end.

Notation "'let*' x ':=' c1 'in' c2" := (bindC c1 (fun x => c2))
  (at level 10, x name, c1 at level 100, c2 at level 200).

Inductive jsnum := Fin (z : Z) | PInf | NInf | NaN.

(** The values a row of the backend's JSON can hold, and the values the
    code computes from them. [JDeadline st d] is the object
    [{status: st, days: d}] attached to a deadline slot. *)
Inductive jsval :=
| JUndef
| JNull
| JNum (n : jsnum)
| JStr (s : jsstring)
| JDeadline (status : jsstring) (days : Z).

#[global] Instance jsnum_eq_dec : EqDecision jsnum.
Proof. solve_decision. Defined.
#[global] Instance jsval_eq_dec : EqDecision jsval.
Proof. solve_decision. Defined.

Module JsValue.

Definition digitChar (d : N) : N := (0x30 + d)%N.

Fixpoint uintToString (u : Decimal.uint) : jsstring :=
  match u with
  | Decimal.Nil => []
  | Decimal.D0 u => digitChar 0 :: uintToString u
  | Decimal.D1 u => digitChar 1 :: uintToString u
  | Decimal.D2 u => digitChar 2 :: uintToString u
  | Decimal.D3 u => digitChar 3 :: uintToString u
  | Decimal.D4 u => digitChar 4 :: uintToString u
  | Decimal.D5 u => digitChar 5 :: uintToString u
  | Decimal.D6 u => digitChar 6 :: uintToString u
  | Decimal.D7 u => digitChar 7 :: uintToString u
  | Decimal.D8 u => digitChar 8 :: uintToString u
  | Decimal.D9 u => digitChar 9 :: uintToString u
  end.

(** Number::toString on the integers and the non-finite numbers: all
    the decimal digits of the integer. This is what String(n) prints for
    an integer of magnitude up to 2^53 - 1; above that a Number no
    longer holds every integer and String prints the shortest digits
    that read back, then an exponent from 10^21 on. The properties that
    print a number keep below 2^53. *)
Definition NumberToString (n : jsnum) : jsstring :=
  match n with
  | Fin z =>
      if z <? 0 then 0x2D%N :: uintToString (N.to_uint (Z.abs_N z))
      else uintToString (N.to_uint (Z.abs_N z))
  | PInf => js "Infinity"
  | NInf => js "-Infinity"
  | NaN => js "NaN"
  end.

(** Value of a digit in radix up to 36. *)
Definition digitValue (c : N) : option N :=
  if ((0x30 <=? c) && (c <=? 0x39))%N then Some (c - 0x30)%N
  else if ((0x61 <=? c) && (c <=? 0x7A))%N then Some (c - 0x61 + 10)%N
  else if ((0x41 <=? c) && (c <=? 0x5A))%N then Some (c - 0x41 + 10)%N
  else None.

(** Value of the longest prefix of [s] made of radix-[R] digits; [acc]
    is the value read so far, [None] while no digit has been read. *)
Fixpoint parseDigits (R : N) (s : jsstring) (acc : option N) : option N :=
  match s with
  | [] => acc
  | c :: rest =>
      match digitValue c with
      | Some d =>
          if (d <? R)%N then parseDigits R rest (Some (default 0%N acc * R + d)%N)
          else acc
      | None => acc
      end
  end.

Definition stripSign (s : jsstring) : bool * jsstring :=
  match s with
  | c :: rest =>
      if (c =? 0x2D)%N then (true, rest)
      else if (c =? 0x2B)%N then (false, rest)
      else (false, s)
  | [] => (false, [])
  end.

Definition signed (negative : bool) (n : N) : jsnum :=
  if negative then Fin (- Z.of_N n) else Fin (Z.of_N n).

(** parseInt(string) with the radix left out: leading white space is
    skipped, a sign is read, a [0x]/[0X] prefix selects radix 16, and
    the longest prefix of digits is the value; NaN when there is no
    digit. What follows the digits is ignored. (The result -0 is
    [Fin 0]: the code only compares it with 0.) *)
Definition parseInt (input : jsstring) : jsnum :=
  let '(negative, str) := stripSign (trimStart input) in
  let '(R, str) :=
    match str with
    | z :: x :: rest =>
        if ((z =? 0x30) && ((x =? 0x78) || (x =? 0x58)))%N then (16%N, rest)
        else (10%N, str)
    | _ => (10%N, str)
    end in
  match parseDigits R str None with
  | Some n => signed negative n
  | None => NaN
  end.

Definition isNaN (n : jsnum) : bool :=
  match n with NaN => true | _ => false end.

Definition allDigits (s : jsstring) : bool :=
  forallb (fun c => (0x30 <=? c)%N && (c <=? 0x39)%N) s.

(** StringToNumber on the strings whose value is in the number domain
    of this model: the empty (or blank) string, the signed infinities
    and signed decimal integer literals. Every other string is NaN here,
    also a literal with a fraction, an exponent or a radix prefix, which
    JavaScript converts to its value: the properties below are stated
    for columns in which no such string is compared with a number or
    with null. *)
Definition StringToNumber (s : jsstring) : jsnum :=
  let t := trim s in
  match t with
  | [] => Fin 0
  | _ =>
      let '(negative, body) := stripSign t in
      if bool_decide (body = js "Infinity") then (if negative then NInf else PInf)
      else if allDigits body then
        match parseDigits 10 body None with
        | Some n => signed negative n
        | None => NaN
        end
      else NaN
  end.

(** ToPrimitive: a plain object converts to ["[object Object]"]. *)
Definition ToPrimitive (v : jsval) : jsval :=
  match v with
  | JDeadline _ _ => JStr (js "[object Object]")
  | _ => v
  end.

Definition ToNumber (v : jsval) : jsnum :=
  match ToPrimitive v with
  | JUndef => NaN
  | JNull => Fin 0
  | JNum n => n
  | JStr s => StringToNumber s
  | JDeadline _ _ => NaN
  end.

Definition ToString (v : jsval) : jsstring :=
  match ToPrimitive v with
  | JUndef => js "undefined"
  | JNull => js "null"
  | JNum n => NumberToString n
  | JStr s => s
  | JDeadline _ _ => js "[object Object]"
  end.

Definition ToBoolean (v : jsval) : bool :=
  match v with
  | JUndef | JNull => false
  | JNum (Fin z) => negb (z =? 0)
  | JNum NaN => false
  | JNum _ => true
  | JStr s => negb (bool_decide (s = []))
  | JDeadline _ _ => true
  end.

Definition num_lt (a b : jsnum) : bool :=
  match a, b with
  | NaN, _ | _, NaN => false
  | Fin x, Fin y => x <? y
  | NInf, NInf => false
  | NInf, _ => true
  | _, NInf => false
  | PInf, _ => false
  | Fin _, PInf => true
  end.

Definition num_add (a b : jsnum) : jsnum :=
  match a, b with
  | NaN, _ | _, NaN => NaN
  | Fin x, Fin y => Fin (x + y)
  | PInf, NInf | NInf, PInf => NaN
  | PInf, _ | _, PInf => PInf
  | NInf, _ | _, NInf => NInf
  end.

(** [a < b]: two strings compare by code units, anything else as
    numbers, and a comparison with NaN is false. *)
Definition js_lt (a b : jsval) : bool :=
  match ToPrimitive a, ToPrimitive b with
  | JStr s, JStr t => str_lt s t
  | pa, pb => num_lt (ToNumber pa) (ToNumber pb)
  end.

(** [a > b] *)
Definition js_gt (a b : jsval) : bool := js_lt b a.

(** [a + b]: concatenation when either side is a string. *)
Definition js_add (a b : jsval) : jsval :=
  match ToPrimitive a, ToPrimitive b with
  | JStr s, pb => JStr (s ++ ToString pb)
  | pa, JStr t => JStr (ToString pa ++ t)
  | pa, pb => JNum (num_add (ToNumber pa) (ToNumber pb))
  end.

(** [v === null] and [v === 'literal'] *)
Definition isNull (v : jsval) : bool :=
  match v with JNull => true | _ => false end.

Definition strictEqStr (v : jsval) (s : jsstring) : bool :=
  match v with
  | JStr t => bool_decide (t = s)
  | _ => false
  end.

End JsValue.

Import JsValue.

(** ** Rows and application state *)

(** A row of [/api/data]: a JavaScript object. [get r k] is [r[k]]. *)
Abbreviation row := (gmap jsstring jsval).

Definition get (r : row) (k : jsstring) : jsval := default JUndef (r !! k).

Module Key.
Definition index := js "index".
Definition personCode := js "担当者コード".
Definition nameLine1 := js "氏名１".
Definition nameLine2 := js "氏名２".
Definition statusCategory := js "在留資格".
Definition nationality := js "国籍".
Definition daysUntilExpiry := js "満了年月日までの日数".
Definition elapsedDaysValue := js "満了日数_値".
Definition level := js "期限レベル分類".
Definition deadline1Status := js "期限日1_状態".
Definition deadline2Status := js "期限日2_状態".
Definition deadline3Status := js "期限日3_状態".
End Key.

(** [currentSort] *)
Record SortState := mkSort {
  column : option jsstring;   (* null, or the column last sorted by *)
  ascending : bool
}.

(** The module-level variables of app.js. [allData] and [filteredData]
    hold references into the array store [arrays]. *)
Record AppState := mkState {
  arrays : list (list row);
  allData : nat;
  filteredData : nat;
  currentFilter : jsstring;
  currentSort : SortState;
  hasUnsavedChanges : bool;
  lastChangeTimestamp : option Z;   (* null, or a Date.now() value *)
  lastExportedAt : option Z         (* null, or the time value of a Date *)
}.

(** The array a reference points to. *)
Definition deref (st : AppState) (ref : nat) : list row :=
  default [] (arrays st !! ref).

(** The Dataset and the visible sequence. *)
Definition dataset (st : AppState) : list row := deref st (allData st).
Definition visible (st : AppState) : list row := deref st (filteredData st).

(** State on script load: [allData = []], [filteredData = []] (two
    arrays), [currentFilter = 'all'], no sort, nothing unsaved. *)
Definition initialState : AppState :=
  mkState [[]; []] 0 1 (js "all") (mkSort None true) false None None.

Definition setCurrentFilter (f : jsstring) (st : AppState) : AppState :=
  mkState (arrays st) (allData st) (filteredData st) f (currentSort st)
          (hasUnsavedChanges st) (lastChangeTimestamp st) (lastExportedAt st).

Definition setCurrentSort (s : SortState) (st : AppState) : AppState :=
  mkState (arrays st) (allData st) (filteredData st) (currentFilter st) s
          (hasUnsavedChanges st) (lastChangeTimestamp st) (lastExportedAt st).

(** [filteredData = allData]: the two variables now name one array. *)
Definition aliasFiltered (st : AppState) : AppState :=
  mkState (arrays st) (allData st) (allData st) (currentFilter st) (currentSort st)
          (hasUnsavedChanges st) (lastChangeTimestamp st) (lastExportedAt st).

(** [filteredData = <a new array>] *)
Definition assignFiltered (rows : list row) (st : AppState) : AppState :=
  mkState (arrays st ++ [rows]) (allData st) (length (arrays st))
          (currentFilter st) (currentSort st)
          (hasUnsavedChanges st) (lastChangeTimestamp st) (lastExportedAt st).

(** In-place update of the array behind a reference. *)
Definition storeArray (ref : nat) (rows : list row) (st : AppState) : AppState :=
  mkState (<[ref := rows]> (arrays st)) (allData st) (filteredData st)
          (currentFilter st) (currentSort st)
          (hasUnsavedChanges st) (lastChangeTimestamp st) (lastExportedAt st).

Definition setUnsaved (dirty : bool) (t : option Z) (st : AppState) : AppState :=
  mkState (arrays st) (allData st) (filteredData st) (currentFilter st) (currentSort st)
          dirty t (lastExportedAt st).

Definition setLastExportedAt (t : option Z) (st : AppState) : AppState :=
  mkState (arrays st) (allData st) (filteredData st) (currentFilter st) (currentSort st)
          (hasUnsavedChanges st) (lastChangeTimestamp st) t.

(** Outcome of a [fetch] followed by [response.json()]: the promise is
    rejected, the response is not ok, or the body is delivered. *)
Inductive fetched (A : Type) :=
| Rejected
| NotOk
| Ok (body : A).
Arguments Rejected {A}.
Arguments NotOk {A}.
Arguments Ok {A} body.

(** loadData: on success the Dataset is replaced by [result.data] and
    [filteredData] is made to name the same array; on failure the state
    is left as it was. The body of an ok answer is taken to carry
    [data], an array of rows, as the backend sends it; an answer without
    it is not modelled. *)
Definition loadData (response : fetched (list row)) (st : AppState) : AppState :=
  match response with
  | Ok data =>
      mkState (arrays st ++ [data]) (length (arrays st)) (length (arrays st))
              (currentFilter st) (currentSort st)
              (hasUnsavedChanges st) (lastChangeTimestamp st) (lastExportedAt st)
  | _ => st
  end.

(** ** RecordFilterSort: filterData, searchData, sortTable *)

Module Filter.

(** [row[k] && row[k].status === 'overdue'] *)
Definition statusProp (v : jsval) : jsval :=
  match v with
  | JDeadline st _ => JStr st
  | _ => JUndef
  end.

Definition slotOverdue (v : jsval) : bool :=
  ToBoolean v && strictEqStr (statusProp v) (js "overdue").

Definition deadlinePassed (r : row) : bool :=
  slotOverdue (get r Key.deadline1Status)
  || slotOverdue (get r Key.deadline2Status)
  || slotOverdue (get r Key.deadline3Status).

(** [days !== null && days < 0] *)
Definition expired (r : row) : bool :=
  let days := get r Key.daysUntilExpiry in
  negb (isNull days) && js_lt days (JNum (Fin 0)).

Definition levelIs (name : jsstring) (r : row) : bool :=
  strictEqStr (get r Key.level) name.

(** [days !== null && (days + 184) > 1826] *)
Definition skill1Limit (r : row) : bool :=
  let days := get r Key.elapsedDaysValue in
  negb (isNull days) && js_gt (js_add days (JNum (Fin 184))) (JNum (Fin 1826)).

End Filter.

(** filterData(filterType): the branches of the if/else-if chain. A
    filter type matching no branch only records [currentFilter]. *)
Definition filterData (filterType : jsstring) (st : AppState) : AppState :=
  let st := setCurrentFilter filterType st in
  if bool_decide (filterType = js "all") then aliasFiltered st
  else if bool_decide (filterType = js "deadline_passed") then
    assignFiltered (List.filter Filter.deadlinePassed (dataset st)) st
  else if bool_decide (filterType = js "expired") then
    assignFiltered (List.filter Filter.expired (dataset st)) st
  else if bool_decide (filterType = js "30days") then
    assignFiltered (List.filter (Filter.levelIs (js "level1")) (dataset st)) st
  else if bool_decide (filterType = js "60days") then
    assignFiltered (List.filter (Filter.levelIs (js "level2")) (dataset st)) st
  else if bool_decide (filterType = js "90days") then
    assignFiltered (List.filter (Filter.levelIs (js "level3")) (dataset st)) st
  else if bool_decide (filterType = js "skill1_limit") then
    assignFiltered (List.filter Filter.skill1Limit (dataset st)) st
  else st.

(** Array.prototype.filter with a callback that may throw: the first
    exception, in index order, ends the call. *)
Fixpoint filterC {A} (p : A -> completion bool) (l : list A) : completion (list A) :=
  match l with
  | [] => Normal []
  | x :: l' =>
      let* b := p x in
      let* rest := filterC p l' in
      Normal (if b then x :: rest else rest)
  end.

(** Array.prototype.sort with a comparison function: a stable sort
    (ECMAScript 2019). Each element is inserted in front of the sorted
    remainder and moves right past the elements it compares greater
    than. When the comparison function is not consistent the standard
    leaves the order to the implementation; this is one such order. *)
Fixpoint insertSorted {A} (cmp : A -> A -> Z) (x : A) (l : list A) : list A :=
  match l with
  | [] => [x]
  | y :: l' => if 0 <? cmp x y then y :: insertSorted cmp x l' else x :: l
  end.

Fixpoint arraySort {A} (cmp : A -> A -> Z) (l : list A) : list A :=
  match l with
  | [] => []
  | x :: l' => insertSorted cmp x (arraySort cmp l')
  end.

Module Sort.

(** [aVal === null ? Infinity : aVal] *)
Definition nullAsInfinity (v : jsval) : jsval :=
  if isNull v then JNum PInf else v.

(** The value of a row the comparison function looks at. *)
Definition sortValue (col : jsstring) (r : row) : jsval :=
  if bool_decide (col = Key.elapsedDaysValue) then nullAsInfinity (get r col)
  else get r col.

(** The comparison function handed to [filteredData.sort]. *)
Definition compareRows (col : jsstring) (asc : bool) (a b : row) : Z :=
  let aVal := sortValue col a in
  let bVal := sortValue col b in
  if js_lt aVal bVal then (if asc then -1 else 1)
  else if js_gt aVal bVal then (if asc then 1 else -1)
  else 0.

(** The update of [currentSort] at the head of sortTable. *)
Definition nextSort (col : jsstring) (s : SortState) : SortState :=
  if bool_decide (column s = Some col) then mkSort (column s) (negb (ascending s))
  else mkSort (Some col) true.

End Sort.

(** sortTable(column): [filteredData.sort(...)] sorts, in place, the
    array [filteredData] refers to. *)
Definition sortTable (col : jsstring) (st : AppState) : AppState :=
  let st := setCurrentSort (Sort.nextSort col (currentSort st)) st in
  storeArray (filteredData st)
             (arraySort (Sort.compareRows col (ascending (currentSort st))) (visible st))
             st.

Section Search.

(** String.prototype.toLowerCase: the Unicode case mapping is taken as
    given. *)
Variable toLowerCase : jsstring -> jsstring.

(** [row[k].toLowerCase().includes(searchText)]: a TypeError unless
    [row[k]] is a string. *)
Definition fieldIncludes (r : row) (k : jsstring) (searchText : jsstring)
  : completion bool :=
  match get r k with
  | JStr s => Normal (includes (toLowerCase s) searchText)
  | _ => Throw TypeError
  end.

(** [a || b] over completions: [b] is evaluated only when [a] is false. *)
Definition orElse (a : completion bool) (b : completion bool) : completion bool :=
  let* x := a in if x then Normal true else b.

Definition searchMatch (searchText : jsstring) (r : row) : completion bool :=
  orElse (fieldIncludes r Key.personCode searchText)
  (orElse (fieldIncludes r Key.nameLine1 searchText)
  (orElse (fieldIncludes r Key.nameLine2 searchText)
  (orElse (fieldIncludes r Key.statusCategory searchText)
          (fieldIncludes r Key.nationality searchText)))).

(** searchData(), [input] being the value of the search box. *)
Definition searchData (input : jsstring) (st : AppState) : completion AppState :=
  let searchText := trim (toLowerCase input) in
  if bool_decide (searchText = []) then Normal (aliasFiltered st)
  else
    let* rows := filterC (searchMatch searchText) (dataset st) in
    Normal (assignFiltered rows st).

(** A user action on the table view. *)
Inductive viewOp :=
| OpFilter (filterType : jsstring)
| OpSearch (input : jsstring)
| OpSort (col : jsstring).

(** One event handler call; an exception thrown inside the handler
    leaves the variables as they were. *)
Definition stepView (op : viewOp) (st : AppState) : AppState :=
  match op with
  | OpFilter f => filterData f st
  | OpSearch input =>
      match searchData input st with
      | Normal st' => st'
      | Throw _ => st
      end
  | OpSort col => sortTable col st
  end.

Definition runView (ops : list viewOp) (st : AppState) : AppState :=
  fold_left (fun s op => stepView op s) ops st.

End Search.

(** ** Effects of the event handlers *)

(** What a handler does to the outside: dialogs, focus, network
    requests and the download it triggers, in order. *)
Inductive event :=
| EvAlert (message : jsstring)
| EvFocus (elementId : jsstring)
| EvFetch (method url : jsstring) (body : option (list (jsstring * jsstring)))
| EvDownload (filename : jsstring).

Definition isFetch (e : event) : bool :=
  match e with EvFetch _ _ _ => true | _ => false end.

(** The elements of the page the summary code writes to. *)
Record Page := mkPage {
  hasSummaryElements : bool;   (* 'filename', 'totalCount' *)
  hasLastExportInfo : bool     (* 'lastExportInfo' *)
}.

(** The part of the [/api/summary] body the tracker reads: null (or
    absent), or a timestamp string. *)
Record Summary := mkSummary {
  last_exported_at : option jsstring
}.

(** ** UnsavedChangeTracker *)

Inductive TrackerState := Clean | Dirty.

Definition trackerState (st : AppState) : TrackerState :=
  if hasUnsavedChanges st then Dirty else Clean.

(** markUnsavedChanges(), [now] being the value of Date.now(). *)
Definition markUnsavedChanges (now : Z) (st : AppState) : AppState :=
  setUnsaved true (Some now) st.

Definition resetUnsavedChanges (st : AppState) : AppState :=
  setUnsaved false None st.

Section Tracker.

(** The time value of [new Date(s)], [None] for an invalid date. Date
    parsing depends on the host's time zone and is taken as given. *)
Variable DateParse : jsstring -> option Z.

Definition parseSummaryTimestamp (timestamp : option jsstring) : option Z :=
  match timestamp with
  | None => None
  | Some s =>
      if bool_decide (s = []) then None
      else DateParse (replaceFirst 0x20 0x54 s)
  end.

(** updateLastExportInfo(summary): nothing happens without the
    'lastExportInfo' element; otherwise [lastExportedAt] is recorded and
    the tracker is cleared when
    [lastChangeTimestamp && lastExportedAt &&
     lastExportedAt.getTime() >= lastChangeTimestamp]. *)
Definition updateLastExportInfo (page : Page) (summary : Summary) (st : AppState)
  : AppState :=
  if negb (hasLastExportInfo page) then st
  else
    let exported := parseSummaryTimestamp (last_exported_at summary) in
    let st := setLastExportedAt exported st in
    match lastChangeTimestamp st, exported with
    | Some changed, Some e =>
        if negb (changed =? 0) && (changed <=? e) then setUnsaved false None st
        else st
    | _, _ => st
    end.

(** loadSummary(): a response that is not ok, a rejected fetch, or a
    page without the summary elements (the write to a missing element
    throws into the catch block) all leave the tracker untouched. *)
Definition loadSummary (page : Page) (response : fetched Summary) (st : AppState)
  : AppState * list event :=
  let request := EvFetch (js "GET") (js "/api/summary") None in
  match response with
  | Ok summary =>
      if hasSummaryElements page
      then (updateLastExportInfo page summary st, [request])
      else (st, [request])
  | _ => (st, [request])
  end.

Definition loadDataEv (response : fetched (list row)) (st : AppState)
  : AppState * list event :=
  (loadData response st, [EvFetch (js "GET") (js "/api/data") None]).

(** ** The add/edit form *)

(** Values of the form's inputs when it is submitted. *)
Record EditForm := mkForm {
  editIndex : jsstring;
  f_personCode : jsstring;
  f_nameLine1 : jsstring;
  f_nameLine2 : jsstring;
  zairyuShikaku : jsstring;      (* edit在留資格 *)
  f_nationality : jsstring;
  f_cardNumber : jsstring;
  f_birthDate : jsstring;
  f_kisei : jsstring;
  f_grantDate : jsstring;
  f_expiryDate : jsstring;
  kiManryoDays : jsstring;       (* edit既満了日数 *)
  f_limit1 : jsstring;
  f_limit2 : jsstring;
  f_limit3 : jsstring
}.

Definition kiManryoField := js "edit既満了日数".

Definition alertRequired : jsstring :=
  js "特定技能1号の場合、既満了日数の入力は必須です。" ++ [0x0A%N]
  ++ js "0以上の数値を入力してください。".

Definition alertNotNumber : jsstring :=
  js "既満了日数は0以上の数値を入力してください。".

(** [zairyuShikaku.includes('特定技能') &&
     (zairyuShikaku.includes('1号') || zairyuShikaku.includes('１号'))] *)
Definition hasTier1Marker (status : jsstring) : bool :=
  includes status (js "特定技能")
  && (includes status (js "1号") || includes status (js "１号")).

(** The check at the head of handleFormSubmit: [Some (message, field)]
    when the handler alerts, focuses the field and returns. *)
Definition validateForm (f : EditForm) : option (jsstring * jsstring) :=
  if hasTier1Marker (zairyuShikaku f) then
    if bool_decide (kiManryoDays f = []) then Some (alertRequired, kiManryoField)
    else
      let kiManryoNum := parseInt (kiManryoDays f) in
      if isNaN kiManryoNum || num_lt kiManryoNum (Fin 0)
      then Some (alertNotNumber, kiManryoField)
      else None
  else None.

(** The JSON body sent to the backend. *)
Definition formData (f : EditForm) : list (jsstring * jsstring) :=
  [ (js "担当者コード", f_personCode f); (js "氏名１", f_nameLine1 f);
    (js "氏名２", f_nameLine2 f); (js "在留資格", zairyuShikaku f);
    (js "国籍", f_nationality f); (js "在留カード番号", f_cardNumber f);
    (js "生年月日", f_birthDate f); (js "期生", f_kisei f);
    (js "許可年月日", f_grantDate f); (js "満了年月日", f_expiryDate f);
    (js "既満了日数", kiManryoDays f); (js "設定期限1", f_limit1 f);
    (js "設定期限2", f_limit2 f); (js "設定期限3", f_limit3 f) ].

Definition saveRequest (f : EditForm) : event :=
  if bool_decide (editIndex f = []) then
    EvFetch (js "POST") (js "/api/data/add") (Some (formData f))
  else
    EvFetch (js "PUT") (js "/api/data/update/" ++ editIndex f) (Some (formData f)).

(** The backend's answers during one handler call. *)
Record Server := mkServer {
  onMutation : fetched jsstring;       (* add / update / delete: {message} *)
  onData : fetched (list row);         (* GET /api/data *)
  onSummary : fetched Summary          (* GET /api/summary *)
}.

(** First line of the alert of each catch block (the second line is
    the error's message). *)
Definition saveFailedAlert : jsstring := js "保存に失敗しました:".
Definition deleteFailedAlert : jsstring := js "削除に失敗しました:".

(** After a successful mutation: loadData(), loadSummary(), then
    markUnsavedChanges(). *)
Definition reloadAndMark (page : Page) (srv : Server) (now : Z) (st : AppState)
  : AppState * list event :=
  let '(st1, ev1) := loadDataEv (onData srv) st in
  let '(st2, ev2) := loadSummary page (onSummary srv) st1 in
  (markUnsavedChanges now st2, ev1 ++ ev2).

(** handleFormSubmit(event): the check, then the request; an answer
    that is not ok, or a rejected fetch, ends in the catch block. *)
Definition handleFormSubmit (page : Page) (f : EditForm) (srv : Server) (now : Z)
    (st : AppState) : AppState * list event :=
  match validateForm f with
  | Some (message, field) => (st, [EvAlert message; EvFocus field])
  | None =>
      match onMutation srv with
      | Ok _ =>
          let '(st', ev) := reloadAndMark page srv now st in
          (st', saveRequest f :: ev)
      | _ => (st, [saveRequest f; EvAlert saveFailedAlert])
      end
  end.

(** deleteRow(index), after both confirmations. *)
Definition deleteRow (page : Page) (index : jsval) (confirmed : bool) (srv : Server)
    (now : Z) (st : AppState) : AppState * list event :=
  if negb confirmed then (st, [])
  else
    let request :=
      EvFetch (js "DELETE") (js "/api/data/delete/" ++ ToString index) None in
    match onMutation srv with
    | Ok _ =>
        let '(st', ev) := reloadAndMark page srv now st in
        (st', request :: ev)
    | _ => (st, [request; EvAlert deleteFailedAlert])
    end.

End Tracker.

(** ** Export filename: decodeURIComponent and the filename pattern *)

Module Uri.

Definition percent : N := 0x25.

Definition hexValue (c : N) : option N :=
  match digitValue c with
  | Some d => if (d <? 16)%N then Some d else None
  | None => None
  end.

(** The octet written [%h1h2]. *)
Definition hexOctet (h1 h2 : N) : option N :=
  match hexValue h1, hexValue h2 with
  | Some a, Some b => Some (a * 16 + b)%N
  | _, _ => None
  end.

(** An escape sequence [%h1h2] that must continue a multi-octet
    character. *)
Definition escapeOctet (p h1 h2 : N) : option N :=
  if (p =? percent)%N then hexOctet h1 h2 else None.

Definition decodeOctets (octets : list N) : completion jsstring :=
  match utf8CodePoint octets with
  | Some cp => Normal (UTF16EncodeCodePoint cp)
  | None => Throw URIError
  end.

Definition prepend (units : completion jsstring) (rest : completion jsstring)
  : completion jsstring :=
  let* u := units in
  let* r := rest in
  Normal (u ++ r).

(** decodeURIComponent (the Decode operation with an empty reserved
    set): a code unit other than [%] is copied; [%] must be followed by
    two hexadecimal digits; an octet below 0x80 is the code unit itself;
    an octet with [n] leading one bits, [n] from 2 to 4, must be followed
    by [n - 1] more escape sequences, the octets together being the
    UTF-8 encoding of one code point; everything else is a URIError. *)
Fixpoint decodeURIComponent (s : jsstring) : completion jsstring :=
  match s with
  | [] => Normal []
  | c :: rest =>
      if negb (c =? percent)%N then prepend (Normal [c]) (decodeURIComponent rest)
      else
        match rest with
        | h1 :: h2 :: rest1 =>
            match hexOctet h1 h2 with
            | None => Throw URIError
            | Some B =>
                match leadingOnes B with
                | 0%nat => prepend (Normal [B]) (decodeURIComponent rest1)
                | 2%nat =>
                    match rest1 with
                    | p1 :: a1 :: b1 :: rest2 =>
                        match escapeOctet p1 a1 b1 with
                        | Some B1 =>
                            prepend (decodeOctets [B; B1]) (decodeURIComponent rest2)
                        | None => Throw URIError
                        end
                    | _ => Throw URIError
                    end
                | 3%nat =>
                    match rest1 with
                    | p1 :: a1 :: b1 :: p2 :: a2 :: b2 :: rest3 =>
                        match escapeOctet p1 a1 b1, escapeOctet p2 a2 b2 with
                        | Some B1, Some B2 =>
                            prepend (decodeOctets [B; B1; B2]) (decodeURIComponent rest3)
                        | _, _ => Throw URIError
                        end
                    | _ => Throw URIError
                    end
                | 4%nat =>
                    match rest1 with
                    | p1 :: a1 :: b1 :: p2 :: a2 :: b2 :: p3 :: a3 :: b3 :: rest4 =>
                        match escapeOctet p1 a1 b1, escapeOctet p2 a2 b2,
                              escapeOctet p3 a3 b3 with
                        | Some B1, Some B2, Some B3 =>
                            prepend (decodeOctets [B; B1; B2; B3])
                                    (decodeURIComponent rest4)
                        | _, _, _ => Throw URIError
                        end
                    | _ => Throw URIError
                    end
                | _ => Throw URIError
                end
            end
        | _ => Throw URIError
        end
  end.

End Uri.

Module Disposition.

(** Canonicalize of a case-insensitive, non-Unicode pattern: a Basic
    Latin letter is compared through its upper case. A code unit from
    128 on never canonicalizes to a Basic Latin one, so against the
    letters of the pattern below it is compared as it is. *)
Definition canonicalize (c : N) : N :=
  if ((0x61 <=? c) && (c <=? 0x7A))%N then (c - 0x20)%N else c.

(** The literal [pat] at the head of [s], ignoring case; the rest of
    [s] on success. *)
Fixpoint matchLiteral (pat s : jsstring) : option jsstring :=
  match pat, s with
  | [], _ => Some s
  | _ :: _, [] => None
  | p :: pat', c :: s' =>
      if (canonicalize c =? canonicalize p)%N then matchLiteral pat' s' else None
  end.

(** The longest prefix of code units satisfying [p] (a greedy class). *)
Fixpoint classRun (p : N -> bool) (s : jsstring) : jsstring :=
  match s with
  | c :: rest => if p c then c :: classRun p rest else []
  | [] => []
  end.

Definition semicolon : N := 0x3B.
Definition dquote : N := 0x22.

Definition notSemicolon (c : N) : bool := negb (c =? semicolon)%N.
Definition notQuoteOrSemicolon (c : N) : bool :=
  negb (c =? dquote)%N && negb (c =? semicolon)%N.

(** Capture of a class repeated with [+]: at least one code unit. *)
Definition capture (p : N -> bool) (s : jsstring) : option jsstring :=
  match classRun p s with
  | [] => None
  | run => Some run
  end.

(** First alternative at the head of [s]: the literal [filename*=UTF-8]
    and two apostrophes, then the captured run of one or more code units
    other than a semicolon. *)
Definition matchEncoded (s : jsstring) : option jsstring :=
  match matchLiteral (js "filename*=UTF-8''") s with
  | Some rest => capture notSemicolon rest
  | None => None
  end.

(** Second alternative at the head of [s]: the literal [filename=], an
    optional double quote, the captured run of one or more code units
    other than a double quote and a semicolon, an optional double quote.
    The optional opening quote is taken when it is there and given back
    when the class then fails; the closing one captures nothing. *)
Definition matchPlain (s : jsstring) : option jsstring :=
  match matchLiteral (js "filename=") s with
  | Some rest =>
      match rest with
      | q :: rest' =>
          if (q =? dquote)%N then
            match capture notQuoteOrSemicolon rest' with
            | Some run => Some run
            | None => capture notQuoteOrSemicolon rest
            end
          else capture notQuoteOrSemicolon rest
      | [] => None
      end
  | None => None
  end.

(** [filenameRegex.exec(disposition)]: the match at the leftmost index
    where one of the alternatives matches, the first alternative being
    tried first at each index. The result is [(matches[1], matches[2])],
    the group of the alternative not taken being undefined. *)
Fixpoint exec (s : jsstring) : option (jsval * jsval) :=
  match matchEncoded s with
  | Some g1 => Some (JStr g1, JUndef)
  | None =>
      match matchPlain s with
      | Some g2 => Some (JUndef, JStr g2)
      | None =>
          match s with
          | [] => None
          | _ :: s' => exec s'
          end
      end
  end.

End Disposition.

(** extractFilenameFromDisposition(disposition) *)
Definition extractFilenameFromDisposition (disposition : jsstring) : completion jsval :=
  match Disposition.exec disposition with
  | None => Normal JNull
  | Some (encoded, plain) =>
      if ToBoolean encoded then
        match Uri.decodeURIComponent (ToString encoded) with
        | Normal decoded => Normal (JStr decoded)
        | Throw _ => Normal encoded        (* catch (e) { return encoded; } *)
        end
      else Normal plain
  end.

Section ProcessedExport.

Variable DateParse : jsstring -> option Z.

Definition defaultExportName : jsstring := js "在留資格管理_processed.xlsx".
Definition exportFailedAlert : jsstring := js "処理済みデータの保存に失敗しました:".

(** exportProcessedData(): [response] carries the Content-Disposition
    header of an ok response whose body could be read ([None] when the
    header is missing). *)
Definition exportProcessedData (page : Page) (response : fetched (option jsstring))
    (summary : fetched Summary) (st : AppState) : AppState * list event :=
  let request := EvFetch (js "GET") (js "/api/export/processed") None in
  match response with
  | Ok header =>
      let disposition := default [] header in
      match extractFilenameFromDisposition disposition with
      | Normal name =>
          let filename := if ToBoolean name then ToString name else defaultExportName in
          let '(st', ev) := loadSummary DateParse page summary (resetUnsavedChanges st) in
          (st', request :: EvDownload filename :: ev)
      | Throw _ => (st, [request; EvAlert exportFailedAlert])
      end
  | _ => (st, [request; EvAlert exportFailedAlert])
  end.

End ProcessedExport.

(** * Vocabulary of the properties and sample data *)

(** ** Named filters *)

(** The seven filter buttons. *)
Inductive NamedFilter :=
| FAll | FDeadlinePassed | FExpired | FLevel1 | FLevel2 | FLevel3 | FSkill1Limit.

(** The filter type each filter button passes to filterData. *)
Definition filterType (f : NamedFilter) : jsstring :=
  match f with
  | FAll => js "all"
  | FDeadlinePassed => js "deadline_passed"
  | FExpired => js "expired"
  | FLevel1 => js "30days"
  | FLevel2 => js "60days"
  | FLevel3 => js "90days"
  | FSkill1Limit => js "skill1_limit"
  end.

(** The predicate of each named filter. *)
Definition predicate (f : NamedFilter) : row -> bool :=
  match f with
  | FAll => fun _ => true
  | FDeadlinePassed => Filter.deadlinePassed
  | FExpired => Filter.expired
  | FLevel1 => Filter.levelIs (js "level1")
  | FLevel2 => Filter.levelIs (js "level2")
  | FLevel3 => Filter.levelIs (js "level3")
  | FSkill1Limit => Filter.skill1Limit
  end.

(** ** Rows and day counts *)

(** A row built from its properties. *)
Definition mkRow (props : list (jsstring * jsval)) : row := list_to_map props.

(** The index and the five text properties of a row. *)
Definition textRow (index : Z) (code name1 name2 status nation : string)
  : list (jsstring * jsval) :=
  [ (Key.index, JNum (Fin index)); (Key.personCode, JStr (js code));
    (Key.nameLine1, JStr (js name1)); (Key.nameLine2, JStr (js name2));
    (Key.statusCategory, JStr (js status)); (Key.nationality, JStr (js nation)) ].

(** State after a successful first load of [rows]. *)
Definition loaded (rows : list row) : AppState := loadData (Ok rows) initialState.

(** A day count as the backend sends it: an integer, null, or absent. *)
Definition nullableInt (v : jsval) : Prop :=
  match v with
  | JUndef | JNull | JNum (Fin _) => True
  | _ => False
  end.

(** The tier-1 cumulative check on a day count: the count is there and
    [count + 184 > 1826]. *)
Definition tier1CumulativeCheck (v : jsval) : Prop :=
  exists d : Z, v = JNum (Fin d) /\ d + 184 > 1826.

(** The example row of the specification: tier-1 status, 1650 days. *)
Definition rowTier1_1650 : row :=
  mkRow (textRow 1 "A001" "GUEN" "VAN" "特定技能1号" "ベトナム"
         ++ [(Key.elapsedDaysValue, JNum (Fin 1650))]).

(** ** Sorting *)

(** The comparison function [cmp] orders [x] and [y] the way the
    relation [le] does. *)
Definition agrees {A : Type} (cmp : A -> A -> Z) (le : relation A) (x y : A) : Prop :=
  if 0 <? cmp x y then le y x else le x y.

(** [a] sorts strictly before [b] on column [col]. *)
Definition lessThan (col : jsstring) (a b : row) : bool :=
  js_lt (Sort.sortValue col a) (Sort.sortValue col b).

(** The values of column [col] strictly order the rows of [l]: two
    different rows always compare one way or the other, and the
    comparison is transitive (as it is for pairwise different numbers,
    or pairwise different strings). *)
Definition strictlyOrders (col : jsstring) (l : list row) : bool :=
  forallb (fun x => forallb (fun y =>
    bool_decide (x = y) || lessThan col x y || lessThan col y x) l) l
  && forallb (fun x => forallb (fun y => forallb (fun z =>
       implb (lessThan col x y && lessThan col y z) (lessThan col x z)) l) l) l.


(** Sample rows: index, first name line, days until expiry, elapsed
    days. *)
Definition person (index : Z) (name : string) (days elapsed : jsval) : row :=
  mkRow (textRow index "A001" name "TARO" "技能実習" "ベトナム"
         ++ [(Key.daysUntilExpiry, days); (Key.elapsedDaysValue, elapsed)]).

(** The [index] of each row, in order. *)
Definition indexes (l : list row) : list jsval :=
  List.map (fun r => get r Key.index) l.

Definition bob : row := person 1 "BOB" (JNum (Fin 5)) (JNum (Fin 300)).
Definition alice : row := person 2 "ALICE" (JNum (Fin (-3))) JNull.
Definition carol : row := person 3 "CAROL" JNull (JNum (Fin 100)).
Definition bob2 : row := person 4 "BOB" (JNum (Fin 40)) (JNum (Fin 10)).

(** A day count to sort by: an integer or null. *)
Definition dayCount (v : jsval) : Prop :=
  v = JNull \/ exists d : Z, v = JNum (Fin d).

(** Null read as +Infinity. *)
Definition nullAsPlusInfinity (v : jsval) : jsnum :=
  match v with
  | JNull => PInf
  | JNum n => n
  | _ => NaN
  end.

(** [a <= b] on numbers other than NaN. *)
Definition num_le (a b : jsnum) : Prop :=
  a <> NaN /\ b <> NaN /\ num_lt b a = false.

(** Ascending order of column [k] with null read as +Infinity. *)
Definition ascendingNullLast (k : jsstring) : relation row :=
  fun a b => num_le (nullAsPlusInfinity (get a k)) (nullAsPlusInfinity (get b k)).

(** Every row that follows a row with a null [k] has a null [k] too. *)
Definition nullsLast (k : jsstring) (l : list row) : Prop :=
  forall l1 a l2, l = l1 ++ a :: l2 -> get a k = JNull ->
    Forall (fun b => get b k = JNull) l2.

(** ** The store, the view actions and the search *)

(** Both variables refer to arrays of the store. *)
Definition wellFormed (st : AppState) : Prop :=
  (allData st < length (arrays st))%nat /\ (filteredData st < length (arrays st))%nat.

Definition isSort (op : viewOp) : bool :=
  match op with OpSort _ => true | _ => false end.

(** The five properties the search looks at. *)
Definition searchedKeys : list jsstring :=
  [Key.personCode; Key.nameLine1; Key.nameLine2; Key.statusCategory; Key.nationality].

(** Case-insensitive substring match of the (lower-cased) search text
    against one property, and against any of the five. *)
Definition fieldMatches (toLowerCase : jsstring -> jsstring) (text : jsstring)
    (r : row) (k : jsstring) : bool :=
  match get r k with
  | JStr s => includes (toLowerCase s) text
  | _ => false
  end.

Definition matchesSearch (toLowerCase : jsstring -> jsstring) (text : jsstring)
    (r : row) : bool :=
  existsb (fieldMatches toLowerCase text r) searchedKeys.

(** The sample rows behind the [expired] filter, and a search for Bob
    made from there. On the sample rows (Basic Latin capitals, kanji and
    katakana) toLowerCase changes the Basic Latin capitals only. *)
Definition expiredView : AppState :=
  filterData (js "expired") (loaded [bob; alice; carol]).

Definition searchedView : AppState :=
  stepView asciiToLowerCase (OpSearch (js "Bob")) expiredView.

(** ** Headers, forms and servers *)


(** [s] between double quotes. *)
Definition quoted (s : string) : jsstring := [0x22%N] ++ js s ++ [0x22%N].

(** The parts of a header value, cut at each occurrence of [sep]. *)
Fixpoint splitOn (sep : N) (s : jsstring) : list jsstring :=
  match s with
  | [] => [[]]
  | c :: rest =>
      if (c =? sep)%N then [] :: splitOn sep rest
      else
        match splitOn sep rest with
        | part :: parts => (c :: part) :: parts
        | [] => [[c]]
        end
  end.

Definition equalsSign : N := 0x3D.

(** Name of a header parameter written name=value: the text before the
    equals sign, without the white space around it, in lower case. *)
Definition parameterName (part : jsstring) : jsstring :=
  asciiToLowerCase
    (trim (Disposition.classRun (fun c => negb (c =? equalsSign)%N) part)).

(** The parameters of a Content-Disposition value follow the
    disposition type, each after a semicolon. *)
Definition parameterNames (header : jsstring) : list jsstring :=
  List.map parameterName (tail (splitOn Disposition.semicolon header)).

(** The header has a parameter named filename or filename*. *)
Definition hasFilenameParameter (header : jsstring) : bool :=
  existsb (fun name => bool_decide (name = js "filename")
                       || bool_decide (name = js "filename*"))
          (parameterNames header).

(** [lit] spells [pat], the case of Basic Latin letters apart. *)
Definition spells (lit pat : jsstring) : Prop :=
  asciiToLowerCase lit = asciiToLowerCase pat.

(** Somewhere in [s], also in the middle of a word, stands the text
    filename*=UTF-8 with two apostrophes and then a code unit other than
    a semicolon, or the text filename= with or without a double quote
    after it and then a code unit other than a double quote and a
    semicolon. *)
Definition carriesFilename (s : jsstring) : Prop :=
  exists pre lit c post,
    s = pre ++ lit ++ c :: post
    /\ ((spells lit (js "filename*=UTF-8''") /\ c <> Disposition.semicolon)
        \/ ((spells lit (js "filename=")
             \/ spells lit (js "filename=" ++ [Disposition.dquote]))
            /\ c <> Disposition.dquote /\ c <> Disposition.semicolon)).

(** The application's page: every element the summary code writes to
    is there. *)
Definition appPage : Page := mkPage true true.

(** A new-record form with a tier-1 status and [days] in the
    elapsed-days field. *)
Definition tier1Form (days : string) : EditForm :=
  mkForm [] (js "A001") (js "GUEN") (js "VAN") (js "特定技能1号") (js "ベトナム")
         (js "AB12345678CD") (js "1995-04-01") (js "3") (js "2023-04-01")
         (js "2024-04-01") (js days) (js "90") (js "60") (js "30").

(** A backend that answers ok to everything. *)
Definition okServer (rows : list row) (exportedAt : option jsstring) : Server :=
  mkServer (Ok (js "ok")) (Ok rows) (Ok (mkSummary exportedAt)).

(** A host whose Date reads every timestamp string as time 2000. *)
Definition dateAt2000 (s : jsstring) : option Z := Some 2000.

Definition isDecimalDigit (c : N) : bool := (0x30 <=? c)%N && (c <=? 0x39)%N.

(** * The rest of app.js, and calendar.js *)

(** ** Display helpers *)

(** formatKisei(kisei): a missing cohort shows as a dash, a cohort made
    of digits only gets the unit 期, anything else is shown trimmed. The
    pattern of the test is one or more decimal digits from start to
    end. *)
Definition formatKisei (kisei : jsval) : jsstring :=
  if negb (ToBoolean kisei) || strictEqStr kisei (js "-") then js "-"
  else
    let kiseiStr := trim (ToString kisei) in
    if negb (bool_decide (kiseiStr = [])) && allDigits kiseiStr
    then kiseiStr ++ js "期"
    else kiseiStr.

(** String.prototype.replace with a global pattern of one code unit:
    every occurrence is replaced. *)
Definition replaceAll (c by_ : N) (s : jsstring) : jsstring :=
  List.map (fun x => if (x =? c)%N then by_ else x) s.

(** convertToDateInput(dateStr): slashes become dashes; a value that is
    neither falsy nor a string has no replace method. *)
Definition convertToDateInput (dateStr : jsval) : completion jsstring :=
  if negb (ToBoolean dateStr) || strictEqStr dateStr (js "-") then Normal []
  else
    match dateStr with
    | JStr s => Normal (replaceAll 0x2F 0x2D s)
    | _ => Throw TypeError
    end.

(** ** Reload, upload and the steps of the application *)

Section Application.

Variable toLowerCase : jsstring -> jsstring.
Variable DateParse : jsstring -> option Z.

(** refreshData(): loadData() then loadSummary(). *)
Definition refreshData (page : Page) (srv : Server) (st : AppState)
  : AppState * list event :=
  let '(st1, ev1) := loadDataEv (onData srv) st in
  let '(st2, ev2) := loadSummary DateParse page (onSummary srv) st1 in
  (st2, ev1 ++ ev2).

Definition uploadFailedAlert : jsstring := js "ファイルのアップロードに失敗しました:".

(** handleFileUpload(event): nothing without a chosen file; after an ok
    answer the data and the summary are loaded again and the tracker is
    reset; otherwise the catch block alerts. *)
Definition handleFileUpload (page : Page) (fileChosen : bool) (srv : Server)
    (st : AppState) : AppState * list event :=
  if negb fileChosen then (st, [])
  else
    let request := EvFetch (js "POST") (js "/api/upload") None in
    match onMutation srv with
    | Ok _ =>
        let '(st', ev) := refreshData page srv st in
        (resetUnsavedChanges st', request :: ev)
    | _ => (st, [request; EvAlert uploadFailedAlert])
    end.

(** One handler call of the table page, with the answers it gets. *)
Inductive appOp :=
| DoView (op : viewOp)
| DoRefresh (srv : Server)
| DoSubmit (f : EditForm) (srv : Server) (now : Z)
| DoDelete (index : jsval) (confirmed : bool) (srv : Server) (now : Z)
| DoExport (response : fetched (option jsstring)) (summary : fetched Summary)
| DoUpload (fileChosen : bool) (srv : Server).

Definition stepApp (page : Page) (op : appOp) (st : AppState) : AppState :=
  match op with
  | DoView v => stepView toLowerCase v st
  | DoRefresh srv => fst (refreshData page srv st)
  | DoSubmit f srv now => fst (handleFormSubmit DateParse page f srv now st)
  | DoDelete index confirmed srv now =>
      fst (deleteRow DateParse page index confirmed srv now st)
  | DoExport response summary =>
      fst (exportProcessedData DateParse page response summary st)
  | DoUpload fileChosen srv => fst (handleFileUpload page fileChosen srv st)
  end.

(** The state after a run of handler calls. *)
Definition runApp (page : Page) (ops : list appOp) (st : AppState) : AppState :=
  fold_left (fun s op => stepApp page op s) ops st.

End Application.

(** ** calendar.js *)

Module Calendar.

(** The entries of one date in [calendar_data]. *)
Record DayData := mkDayData {
  deadline1 : list row;
  deadline2 : list row;
  deadline3 : list row
}.

(** The variables of calendar.js. *)
Record State := mkCal {
  calendarData : gmap jsstring DayData;
  currentYear : Z;
  currentMonth : Z      (* 1-12 *)
}.

(** A cell of the month grid: a cell marked other-month, or a cell of
    the current month with its day number, its date string, whether it
    is today, and the entries found for the date string. *)
Inductive Cell :=
| OtherMonth
| DayCell (day : Z) (dateStr : jsstring) (today : bool) (data : option DayData).

(** String(n).padStart(2, '0') *)
Definition padStart2 (s : jsstring) : jsstring :=
  replicate (2 - length s) 0x30%N ++ s.

(** The date string of a day: year, padded month, padded day. *)
Definition dateString (year month day : Z) : jsstring :=
  NumberToString (Fin year) ++ js "-" ++ padStart2 (NumberToString (Fin month))
  ++ js "-" ++ padStart2 (NumberToString (Fin day)).

(** The cell of a day of the current month; [today] is the year, month
    (1-12) and date of the current day. *)
Definition dayCell (st : State) (today : Z * Z * Z) (day : Z) : Cell :=
  let dateStr := dateString (currentYear st) (currentMonth st) day in
  let '(ty, tm, td) := today in
  DayCell day dateStr (bool_decide (dateStr = dateString ty tm td))
          (calendarData st !! dateStr).

(** The inner loop of generateCalendar over the columns [j] of one week:
    the cells of the week and the value of [day] after it. [mk] builds
    the cell of a day. *)
Fixpoint weekCells (mk : Z -> Cell) (firstWeek : bool) (firstDay daysInMonth : Z)
    (columns : nat) (j day : Z) : list Cell * Z :=
  match columns with
  | O => ([], day)
  | S columns' =>
      if firstWeek && (j <? firstDay) then
        let '(cells, day') :=
          weekCells mk firstWeek firstDay daysInMonth columns' (j + 1) day in
        (OtherMonth :: cells, day')
      else if daysInMonth <? day then
        let '(cells, day') :=
          weekCells mk firstWeek firstDay daysInMonth columns' (j + 1) 1 in
        (OtherMonth :: cells, day')
      else
        let '(cells, day') :=
          weekCells mk firstWeek firstDay daysInMonth columns' (j + 1) (day + 1) in
        (mk day :: cells, day')
  end.

(** The outer loop over the weeks [i]: at most [weeks] rows, ended early
    once [day] has passed the last day of the month. *)
Fixpoint weekRows (mk : Z -> Cell) (firstDay daysInMonth : Z) (weeks : nat)
    (i day : Z) : list (list Cell) :=
  match weeks with
  | O => []
  | S weeks' =>
      let '(cells, day') := weekCells mk (i =? 0) firstDay daysInMonth 7 0 day in
      if daysInMonth <? day' then [cells]
      else cells :: weekRows mk firstDay daysInMonth weeks' (i + 1) day'
  end.

(** The rows generateCalendar appends to the table. [daysInMonth] is
    [new Date(currentYear, currentMonth, 0).getDate()] and [firstDay] is
    [new Date(currentYear, currentMonth - 1, 1).getDay()]; both come from
    the host's Date. *)
Definition calendarRows (mk : Z -> Cell) (firstDay daysInMonth : Z) : list (list Cell) :=
  weekRows mk firstDay daysInMonth 6 0 1.

Definition generateCalendar (st : State) (today : Z * Z * Z)
    (daysInMonth firstDay : Z) : list (list Cell) :=
  calendarRows (dayCell st today) firstDay daysInMonth.

(** loadCalendarData(): an ok answer replaces [calendarData]; otherwise
    the catch block keeps what was there. *)
Definition loadCalendarData (response : fetched (gmap jsstring DayData)) (st : State)
  : State * list event :=
  let url := js "/api/calendar?year=" ++ NumberToString (Fin (currentYear st))
             ++ js "&month=" ++ NumberToString (Fin (currentMonth st)) in
  (match response with
   | Ok data => mkCal data (currentYear st) (currentMonth st)
   | _ => st
   end, [EvFetch (js "GET") url None]).

(** The change of month at the head of navigateMonth(direction). *)
Definition stepMonth (direction : Z) (st : State) : State :=
  let month := currentMonth st + direction in
  if month <? 1 then mkCal (calendarData st) (currentYear st - 1) 12
  else if 12 <? month then mkCal (calendarData st) (currentYear st + 1) 1
  else mkCal (calendarData st) (currentYear st) month.

Definition navigateMonth (direction : Z) (response : fetched (gmap jsstring DayData))
    (st : State) : State * list event :=
  loadCalendarData response (stepMonth direction st).

Definition stepYear (direction : Z) (st : State) : State :=
  mkCal (calendarData st) (currentYear st + direction) (currentMonth st).

Definition navigateYear (direction : Z) (response : fetched (gmap jsstring DayData))
    (st : State) : State * list event :=
  loadCalendarData response (stepYear direction st).

(** goToToday(), [today] being the current year and month (1-12). *)
Definition goToToday (today : Z * Z) (response : fetched (gmap jsstring DayData))
    (st : State) : State * list event :=
  loadCalendarData response (mkCal (calendarData st) (fst today) (snd today)).

(** The month counted from year 0: consecutive months have consecutive
    indexes. *)
Definition monthIndex (st : State) : Z := 12 * currentYear st + currentMonth st.

(** The cells of a grid, row after row. *)
Definition cellsOf (rows : list (list Cell)) : list Cell := concat rows.

End Calendar.

(** ** More vocabulary *)

(** The value of a string of decimal digits. *)
Definition decimalValue (s : jsstring) : N :=
  fold_left (fun acc c => (acc * 10 + (c - 0x30))%N) s 0%N.

(** No code unit of [s] is white space. *)
Definition noWhiteSpace (s : jsstring) : bool :=
  forallb (fun c => negb (isWhiteSpace c)) s.

(** [s] holds no occurrence of the code unit [c]. *)
Definition free (c : N) (s : jsstring) : bool :=
  forallb (fun x => negb (x =? c)%N) s.

(** The two variables of the tracker agree: dirty exactly when a change
    time is recorded. *)
Definition trackerConsistent (st : AppState) : Prop :=
  (hasUnsavedChanges st = true /\ exists t, lastChangeTimestamp st = Some t)
  \/ (hasUnsavedChanges st = false /\ lastChangeTimestamp st = None).

(** Every visible row is a row of the Dataset, counted with
    multiplicity. *)
Definition viewWithinDataset (st : AppState) : Prop :=
  wellFormed st /\ visible st ⊆+ dataset st.

(** The three level filters. *)
Definition isLevelFilter (f : NamedFilter) : bool :=
  match f with FLevel1 | FLevel2 | FLevel3 => true | _ => false end.

(** The seven filter types filterData knows. *)
Definition knownFilterTypes : list jsstring :=
  List.map filterType
    [FAll; FDeadlinePassed; FExpired; FLevel1; FLevel2; FLevel3; FSkill1Limit].

(** The integer in column [col] of a row, when there is one. *)
Definition intValue (col : jsstring) (r : row) : option Z :=
  match get r col with
  | JNum (Fin z) => Some z
  | _ => None
  end.

(** Rows in ascending, or descending, order of the integers in column
    [col]. *)
Definition intOrder (col : jsstring) (asc : bool) : relation row :=
  fun a b => exists x y, intValue col a = Some x /\ intValue col b = Some y
                         /\ if asc then x <= y else y <= x.

(** A handler call that is refused or fails: a form that does not pass
    the check, a delete that is not confirmed, no chosen file, or a
    request the backend does not answer ok. *)
Definition failedOp (op : appOp) : bool :=
  match op with
  | DoSubmit f srv _ =>
      match validateForm f, onMutation srv with
      | Some _, _ => true
      | None, Ok _ => false
      | None, _ => true
      end
  | DoDelete _ confirmed srv _ =>
      negb confirmed || match onMutation srv with Ok _ => false | _ => true end
  | DoExport response _ => match response with Ok _ => false | _ => true end
  | DoUpload fileChosen srv =>
      negb fileChosen || match onMutation srv with Ok _ => false | _ => true end
  | DoRefresh srv =>
      match onData srv, onSummary srv with
      | Ok _, _ | _, Ok _ => false
      | _, _ => true
      end
  | DoView _ => false
  end.

(** Two states with the same store and the same references. *)
Definition sameView (st st' : AppState) : Prop :=
  arrays st' = arrays st /\ allData st' = allData st
  /\ filteredData st' = filteredData st.

(** Two states with the same tracker variables. *)
Definition sameTracker (st st' : AppState) : Prop :=
  hasUnsavedChanges st' = hasUnsavedChanges st
  /\ lastChangeTimestamp st' = lastChangeTimestamp st.

(** * Properties *)

(** ** The model on examples *)

Example js_literal_tokutei :
  js "特定技能" = [0x7279; 0x5B9A; 0x6280; 0x80FD]%N.
Proof. reflexivity. Qed.

Example js_literal_fullwidth_1go :
  js "１号" = [0xFF11; 0x53F7]%N /\ js "1号" = [0x31; 0x53F7]%N.
Proof. split; reflexivity. Qed.

Example parseInt_examples :
  parseInt (js "42") = Fin 42 /\ parseInt (js "  -7") = Fin (-7)
  /\ parseInt (js "12abc") = Fin 12 /\ parseInt (js "1.5") = Fin 1
  /\ parseInt (js "0x1F") = Fin 31 /\ parseInt (js "abc") = NaN
  /\ parseInt (js "") = NaN /\ parseInt (js "-") = NaN.
Proof. repeat split; reflexivity. Qed.

Example js_lt_examples :
  js_lt JNull (JNum (Fin 5)) = true /\ js_lt (JNum (Fin (-3))) JNull = true
  /\ js_lt JUndef (JNum (Fin 5)) = false /\ js_lt (JNum (Fin 5)) JUndef = false
  /\ js_lt (JStr (js "10")) (JStr (js "9")) = true
  /\ js_lt (JNum (Fin 7)) (JNum PInf) = true.
Proof. repeat split; reflexivity. Qed.

Example js_add_examples :
  js_add (JNum (Fin 1650)) (JNum (Fin 184)) = JNum (Fin 1834)
  /\ js_add JUndef (JNum (Fin 184)) = JNum NaN
  /\ js_add (JStr (js "2")) (JNum (Fin 184)) = JStr (js "2184").
Proof. repeat split; reflexivity. Qed.

Example decode_examples :
  Uri.decodeURIComponent (js "%E5%9C%A8%E7%95%99.xlsx") = Normal (js "在留.xlsx")
  /\ Uri.decodeURIComponent (js "a%20b") = Normal (js "a b")
  /\ Uri.decodeURIComponent (js "%F0%9F%98%80") = Normal [0xD83D; 0xDE00]%N
  /\ Uri.decodeURIComponent (js "%E5%9C") = Throw URIError
  /\ Uri.decodeURIComponent (js "%C0%80") = Throw URIError
  /\ Uri.decodeURIComponent (js "100%") = Throw URIError
  /\ Uri.decodeURIComponent (js "%ED%A0%80") = Throw URIError.
Proof. repeat split; reflexivity. Qed.

Example extract_examples :
  extractFilenameFromDisposition (js "attachment; filename*=UTF-8''%E5%9C%A8%E7%95%99.xlsx")
    = Normal (JStr (js "在留.xlsx"))
  /\ extractFilenameFromDisposition
       (js "attachment; filename=" ++ [0x22%N] ++ js "plain.xlsx" ++ [0x22%N])
     = Normal (JStr (js "plain.xlsx"))
  /\ extractFilenameFromDisposition (js "attachment") = Normal JNull.
Proof. repeat split; reflexivity. Qed.

(** ** The array store *)

Lemma deref_new_array (arrs : list (list row)) (rows : list row) :
  default [] ((arrs ++ [rows]) !! length arrs) = rows.
Proof. by rewrite list_lookup_middle. Qed.

Lemma visible_assignFiltered (rows : list row) (st : AppState) :
  visible (assignFiltered rows st) = rows.
Proof. unfold visible, deref; simpl. apply deref_new_array. Qed.

Lemma visible_aliasFiltered (st : AppState) :
  visible (aliasFiltered st) = dataset st.
Proof. reflexivity. Qed.

(** Allocating the filtered copy of the Dataset leaves the Dataset as
    it is (also for a reference that names no array yet: the copy of an
    empty Dataset is empty). *)
Lemma dataset_assignFiltered (p : row -> bool) (st : AppState) :
  dataset (assignFiltered (List.filter p (dataset st)) st) = dataset st.
Proof.
  unfold dataset, deref; simpl.
  destruct (decide (allData st < length (arrays st))%nat) as [Hlt | Hge].
  - by rewrite lookup_app_l.
  - destruct (decide (allData st = length (arrays st))) as [-> | Hne].
    + rewrite list_lookup_middle by done.
      rewrite (lookup_ge_None_2 (arrays st)) by lia. reflexivity.
    + rewrite !lookup_ge_None_2; [done | lia |].
      rewrite length_app; simpl; lia.
Qed.

Lemma filter_true {A} (l : list A) : List.filter (fun _ => true) l = l.
Proof. induction l; simpl; congruence. Qed.

(** ** Named filters *)

Ltac filter_branches :=
  repeat (rewrite bool_decide_eq_false_2 by (vm_compute; discriminate));
  try (rewrite bool_decide_eq_true_2 by reflexivity);
  reflexivity.

Lemma filterData_named (f : NamedFilter) (st : AppState) :
  filterData (filterType f) st =
  match f with
  | FAll => aliasFiltered (setCurrentFilter (filterType f) st)
  | _ => assignFiltered (List.filter (predicate f) (dataset st))
                        (setCurrentFilter (filterType f) st)
  end.
Proof. destruct f; unfold filterData, filterType; filter_branches. Qed.

Lemma visible_filterData (f : NamedFilter) (st : AppState) :
  visible (filterData (filterType f) st) = List.filter (predicate f) (dataset st).
Proof.
  rewrite filterData_named.
  destruct f; try apply visible_assignFiltered.
  simpl. symmetry. apply filter_true.
Qed.

Lemma dataset_filterData (f : NamedFilter) (st : AppState) :
  dataset (filterData (filterType f) st) = dataset st.
Proof.
  rewrite filterData_named.
  destruct f; try reflexivity;
    apply (dataset_assignFiltered _ (setCurrentFilter _ st)).
Qed.

Lemma skill1Limit_spec (r : row) :
  nullableInt (get r Key.elapsedDaysValue) ->
  Filter.skill1Limit r = true <-> tier1CumulativeCheck (get r Key.elapsedDaysValue).
Proof.
  unfold Filter.skill1Limit, tier1CumulativeCheck.
  destruct (get r Key.elapsedDaysValue) as [ | | [d | | | ] | s | s d ]; simpl;
    intros Hty; try contradiction.
  - split; [discriminate | intros (d & Hd & _); discriminate].
  - split; [discriminate | intros (d & Hd & _); discriminate].
  - unfold js_gt, js_lt, js_add; simpl. rewrite Z.ltb_lt. split.
    + intros Hlt. exists d. split; [reflexivity | lia].
    + intros (d' & Hd & Hgt). injection Hd as ->. lia.
Qed.

(** C1. For every record of the Dataset whose elapsed-days value is an
    integer, null or absent, the [skill1_limit] filter shows the record
    exactly when the tier-1 cumulative check holds for it: the value is
    there (not null) and value + 184 > 1826. *)
Theorem skill1_limit_filter_iff (st : AppState) (r : row) :
  r ∈ dataset st ->
  nullableInt (get r Key.elapsedDaysValue) ->
  r ∈ visible (filterData (js "skill1_limit") st)
  <-> tier1CumulativeCheck (get r Key.elapsedDaysValue).
Proof.
  intros Hin Hty.
  change (js "skill1_limit") with (filterType FSkill1Limit).
  rewrite visible_filterData. simpl.
  rewrite list_elem_of_In, filter_In, <- list_elem_of_In.
  rewrite (skill1Limit_spec r Hty). tauto.
Qed.

(** The example of the specification: 1650 + 184 = 1834 > 1826. *)
Lemma skill1_limit_filter_iff_witness :
  rowTier1_1650 ∈ visible (filterData (js "skill1_limit") (loaded [rowTier1_1650])).
Proof.
  apply (skill1_limit_filter_iff (loaded [rowTier1_1650]) rowTier1_1650).
  - apply list_elem_of_here.
  - vm_compute. exact I.
  - exists 1650. split; [vm_compute; reflexivity | lia].
Defined.

(** C7. Every named filter shows the records of the full Dataset that
    satisfy its predicate, whatever filter was active before; and going
    from [all] to a named filter and back to [all] shows the original
    Dataset again, record for record (hence the same set of ids). *)
Theorem named_filters_use_full_dataset (f g : NamedFilter) (st : AppState) :
  visible (filterData (filterType f) st) = List.filter (predicate f) (dataset st)
  /\ visible (filterData (filterType f) (filterData (filterType g) st))
     = List.filter (predicate f) (dataset st)
  /\ let back :=
       filterData (js "all") (filterData (filterType f) (filterData (js "all") st)) in
     visible back = dataset st
     /\ dataset back = dataset st
     /\ forall id : jsval,
          id ∈ List.map (fun r => get r Key.index) (visible back)
          <-> id ∈ List.map (fun r => get r Key.index) (dataset st).
Proof.
  split; [apply visible_filterData |].
  split; [by rewrite visible_filterData, dataset_filterData |].
  change (js "all") with (filterType FAll).
  assert (Hds : dataset (filterData (filterType FAll)
                  (filterData (filterType f) (filterData (filterType FAll) st)))
                = dataset st)
    by (by rewrite !dataset_filterData).
  assert (Hvis : visible (filterData (filterType FAll)
                  (filterData (filterType f) (filterData (filterType FAll) st)))
                 = dataset st).
  { rewrite visible_filterData; simpl. rewrite filter_true.
    by rewrite !dataset_filterData. }
  cbv zeta. rewrite Hvis, Hds. repeat split; auto.
Qed.

(** ** Array.prototype.sort *)

Section SortCorrect.

Context {A : Type} (cmp : A -> A -> Z).

Lemma insertSorted_Permutation (x : A) (l : list A) :
  insertSorted cmp x l ≡ₚ x :: l.
Proof.
  induction l as [ | y l IH]; simpl; [reflexivity |].
  destruct (0 <? cmp x y); [| reflexivity].
  rewrite IH. apply perm_swap.
Qed.

Lemma arraySort_Permutation (l : list A) : arraySort cmp l ≡ₚ l.
Proof.
  induction l as [ | x l IH]; simpl; [reflexivity |].
  by rewrite insertSorted_Permutation, IH.
Qed.

Lemma arraySort_elem_of (x : A) (l : list A) : x ∈ arraySort cmp l <-> x ∈ l.
Proof. by rewrite arraySort_Permutation. Qed.

Context (le : relation A) `{!Transitive le}.

Lemma insertSorted_sorted (x : A) (l : list A) :
  (forall y, y ∈ l -> agrees cmp le x y) ->
  StronglySorted le l -> StronglySorted le (insertSorted cmp x l).
Proof.
  induction l as [ | y l IH]; intros Hx Hs; simpl.
  - repeat constructor.
  - apply StronglySorted_cons in Hs as [Hy Hs].
    pose proof (Hx y (list_elem_of_here _ _)) as Hxy. unfold agrees in Hxy.
    destruct (0 <? cmp x y).
    + apply StronglySorted_cons. split.
      * rewrite insertSorted_Permutation. by constructor.
      * apply IH; [| done]. intros z Hz. apply Hx. by right.
    + apply StronglySorted_cons. split.
      * constructor; [done |].
        eapply Forall_impl; [exact Hy |]. intros z Hz. by transitivity y.
      * by apply StronglySorted_cons.
Qed.

Lemma arraySort_sorted (l : list A) :
  (forall x y, x ∈ l -> y ∈ l -> agrees cmp le x y) ->
  StronglySorted le (arraySort cmp l).
Proof.
  induction l as [ | x l IH]; intros Hag; simpl; [constructor |].
  apply insertSorted_sorted.
  - intros y Hy. rewrite arraySort_elem_of in Hy.
    apply Hag; [apply list_elem_of_here | by apply list_elem_of_further].
  - apply IH. intros y z Hy Hz. apply Hag; by right.
Qed.

End SortCorrect.



(** ** sortTable *)

Lemma visible_storeArray (rows : list row) (st : AppState) :
  (visible st = [] -> rows = []) ->
  visible (storeArray (filteredData st) rows st) = rows.
Proof.
  unfold visible, deref; simpl. intros Hempty.
  destruct (decide (filteredData st < length (arrays st))%nat) as [Hlt | Hge].
  - by rewrite list_lookup_insert_eq.
  - rewrite list_insert_ge by lia.
    rewrite lookup_ge_None_2 in Hempty |- * by lia. simpl. symmetry. by apply Hempty.
Qed.

Lemma visible_sortTable (col : jsstring) (st : AppState) :
  visible (sortTable col st)
  = arraySort (Sort.compareRows col (ascending (Sort.nextSort col (currentSort st))))
              (visible st).
Proof.
  unfold sortTable.
  apply (visible_storeArray _ (setCurrentSort _ st)).
  change (visible (setCurrentSort (Sort.nextSort col (currentSort st)) st))
    with (visible st).
  by intros ->.
Qed.

Lemma currentSort_sortTable (col : jsstring) (st : AppState) :
  currentSort (sortTable col st) = Sort.nextSort col (currentSort st).
Proof. reflexivity. Qed.

Lemma nextSort_column (col : jsstring) (s : SortState) :
  column (Sort.nextSort col s) = Some col.
Proof. unfold Sort.nextSort. by case_bool_decide. Qed.


Lemma str_lt_irrefl (s : jsstring) : str_lt s s = false.
Proof. induction s as [ | c s IH]; simpl; [done |]. by rewrite N.ltb_irrefl. Qed.

Lemma num_lt_irrefl (n : jsnum) : num_lt n n = false.
Proof. destruct n; simpl; try done. apply Z.ltb_irrefl. Qed.

Lemma js_lt_irrefl (v : jsval) : js_lt v v = false.
Proof.
  unfold js_lt. destruct (ToPrimitive v); auto using num_lt_irrefl, str_lt_irrefl.
Qed.


(** Pairwise different integers in column [col] strictly order the
    rows. *)
Lemma strictlyOrders_distinct_numbers (col : jsstring) (l : list row) :
  (forall r, r ∈ l -> exists d : Z, get r col = JNum (Fin d)) ->
  (forall x y, x ∈ l -> y ∈ l -> get x col = get y col -> x = y) ->
  strictlyOrders col l = true.
Proof.
  intros Hnum Hinj.
  assert (Hlt : forall x y dx dy,
            get x col = JNum (Fin dx) -> get y col = JNum (Fin dy) ->
            lessThan col x y = (dx <? dy)).
  { intros x y dx dy Hx Hy. unfold lessThan, Sort.sortValue.
    rewrite Hx, Hy. by case_bool_decide. }
  unfold strictlyOrders. apply andb_true_iff.
  split; apply forallb_forall; intros x Hx%list_elem_of_In;
    apply forallb_forall; intros y Hy%list_elem_of_In;
    destruct (Hnum x Hx) as [dx Hdx]; destruct (Hnum y Hy) as [dy Hdy].
  - rewrite (Hlt x y dx dy), (Hlt y x dy dx) by done.
    destruct (decide (dx = dy)) as [-> | Hne].
    + rewrite bool_decide_eq_true_2; [done |]. apply Hinj; congruence.
    + destruct (Z.ltb_spec dx dy); [by rewrite orb_true_r |].
      destruct (Z.ltb_spec dy dx); [by rewrite orb_true_r | lia].
  - apply forallb_forall. intros z Hz%list_elem_of_In.
    destruct (Hnum z Hz) as [dz Hdz].
    rewrite (Hlt x y dx dy), (Hlt y z dy dz), (Hlt x z dx dz) by done.
    destruct (Z.ltb_spec dx dy), (Z.ltb_spec dy dz), (Z.ltb_spec dx dz);
      simpl; try done; lia.
Qed.





Example sort_with_ties_indexes :
  indexes (visible (sortTable Key.nameLine1 (loaded [bob; bob2])))
    = [JNum (Fin 1); JNum (Fin 4)]
  /\ indexes (visible (sortTable Key.nameLine1
                (sortTable Key.nameLine1 (loaded [bob; bob2]))))
    = [JNum (Fin 1); JNum (Fin 4)].
Proof. split; vm_compute; reflexivity. Qed.

Example sort_by_name_indexes :
  indexes (visible (sortTable Key.nameLine1 (loaded [bob; alice; carol])))
    = [JNum (Fin 2); JNum (Fin 1); JNum (Fin 3)]
  /\ indexes (visible (sortTable Key.nameLine1
                (sortTable Key.nameLine1 (loaded [bob; alice; carol]))))
    = [JNum (Fin 3); JNum (Fin 1); JNum (Fin 2)].
Proof. split; vm_compute; reflexivity. Qed.

(** ** Null day counts: the expired filter and the numeric sort *)

#[local] Instance num_le_trans : Transitive num_le.
Proof.
  intros a b c (Ha & Hb & Hab) (_ & Hc & Hbc). repeat split; try done.
  destruct a, b, c; simpl in *; try done.
  rewrite Z.ltb_ge in *. lia.
Qed.

#[local] Instance ascendingNullLast_trans (k : jsstring) :
  Transitive (ascendingNullLast k).
Proof. intros a b c Hab Hbc. unfold ascendingNullLast in *. by etransitivity. Qed.

Lemma expired_spec (r : row) :
  nullableInt (get r Key.daysUntilExpiry) ->
  Filter.expired r = true
  <-> exists d : Z, get r Key.daysUntilExpiry = JNum (Fin d) /\ d < 0.
Proof.
  unfold Filter.expired.
  destruct (get r Key.daysUntilExpiry) as [ | | [d | | | ] | s | s d ]; simpl;
    intros Hty; try contradiction.
  - split; [discriminate | intros (d & Hd & _); discriminate].
  - split; [discriminate | intros (d & Hd & _); discriminate].
  - unfold js_lt; simpl. rewrite Z.ltb_lt. split.
    + intros Hlt. by exists d.
    + intros (d' & Hd & Hlt). by injection Hd as ->.
Qed.

Lemma expired_not_null (r : row) :
  get r Key.daysUntilExpiry = JNull -> Filter.expired r = false.
Proof. unfold Filter.expired. by intros ->. Qed.

Lemma compareRows_elapsed_agrees (x y : row) :
  dayCount (get x Key.elapsedDaysValue) ->
  dayCount (get y Key.elapsedDaysValue) ->
  agrees (Sort.compareRows Key.elapsedDaysValue true)
         (ascendingNullLast Key.elapsedDaysValue) x y.
Proof.
  unfold agrees, Sort.compareRows, Sort.sortValue, ascendingNullLast, num_le, js_gt.
  rewrite bool_decide_eq_true_2 by reflexivity.
  intros [-> | [dx ->]] [-> | [dy ->]]; unfold js_lt; simpl; try done.
  destruct (dx <? dy) eqn:Hxy; simpl.
  - repeat split; try done. rewrite Z.ltb_ge. apply Z.ltb_lt in Hxy. lia.
  - destruct (dy <? dx) eqn:Hyx; simpl; repeat split; done.
Qed.

Lemma sorted_nullsLast (k : jsstring) (l : list row) :
  (forall r, r ∈ l -> dayCount (get r k)) ->
  StronglySorted (ascendingNullLast k) l -> nullsLast k l.
Proof.
  intros Hty Hs l1 a l2 -> Ha.
  apply StronglySorted_app_1_r, StronglySorted_cons in Hs as [Hafter _].
  rewrite Forall_forall in Hafter |- *. intros b Hb.
  specialize (Hafter b Hb). unfold ascendingNullLast, num_le in Hafter.
  rewrite Ha in Hafter. simpl in Hafter. destruct Hafter as (_ & Hnan & Hlt).
  destruct (Hty b) as [Hnull | [d Hd]].
  - apply elem_of_app. right. by right.
  - done.
  - rewrite Hd in Hlt. simpl in Hlt. discriminate Hlt.
Qed.

Lemma dataset_loaded (rows : list row) : dataset (loaded rows) = rows.
Proof. reflexivity. Qed.

Lemma visible_loaded (rows : list row) : visible (loaded rows) = rows.
Proof. reflexivity. Qed.

(** C6 (amended). In every state of the page, whatever was sorted
    before, a record whose days-until-expiry value (満了年月日までの日数)
    is null is never shown by the [expired] filter; on integer-or-null
    values that filter shows exactly the records of the Dataset with a
    value that is there and strictly negative. The ascending sort that
    reads null as +Infinity is the one on the elapsed-days column
    (満了日数_値): on integer-or-null values it leaves the rows in
    ascending order with null as the largest value, so every null row
    comes after every row with a number. *)
Theorem expired_excludes_null_and_elapsed_sort_nulls_last (st : AppState) :
  (forall r, get r Key.daysUntilExpiry = JNull ->
             r ∉ visible (filterData (js "expired") st))
  /\ ((forall r, r ∈ dataset st -> nullableInt (get r Key.daysUntilExpiry)) ->
      forall r, r ∈ visible (filterData (js "expired") st)
                <-> r ∈ dataset st
                    /\ exists d : Z, get r Key.daysUntilExpiry = JNum (Fin d) /\ d < 0)
  /\ ((forall r, r ∈ visible st -> dayCount (get r Key.elapsedDaysValue)) ->
      ascending (Sort.nextSort Key.elapsedDaysValue (currentSort st)) = true ->
      (visible (sortTable Key.elapsedDaysValue st) ≡ₚ visible st)
      /\ StronglySorted (ascendingNullLast Key.elapsedDaysValue)
                        (visible (sortTable Key.elapsedDaysValue st))
      /\ nullsLast Key.elapsedDaysValue (visible (sortTable Key.elapsedDaysValue st))).
Proof.
  change (js "expired") with (filterType FExpired).
  rewrite visible_filterData. simpl predicate.
  split; [| split].
  - intros r Hnull Hin. apply list_elem_of_In, filter_In in Hin as [_ Hexp].
    by rewrite expired_not_null in Hexp.
  - intros Hdays r. rewrite list_elem_of_In, filter_In, <- list_elem_of_In. split.
    + intros [Hin Hexp]. split; [done |]. apply expired_spec; [by apply Hdays | done].
    + intros [Hin Hneg]. split; [done |]. apply expired_spec; [by apply Hdays | done].
  - intros Helapsed Hasc. rewrite visible_sortTable, Hasc.
    assert (Hsorted : StronglySorted (ascendingNullLast Key.elapsedDaysValue)
              (arraySort (Sort.compareRows Key.elapsedDaysValue true) (visible st))).
    { apply (arraySort_sorted _ (ascendingNullLast Key.elapsedDaysValue)).
      intros x y Hx Hy. apply compareRows_elapsed_agrees; by apply Helapsed. }
    split; [apply arraySort_Permutation |]. split; [exact Hsorted |].
    apply sorted_nullsLast; [| exact Hsorted].
    intros r Hr. apply Helapsed. by rewrite arraySort_elem_of in Hr.
Qed.

Ltac each_row H :=
  apply list_elem_of_In in H; simpl in H;
  repeat (destruct H as [<- | H]); [.. | contradiction].

Lemma expired_excludes_null_and_elapsed_sort_nulls_last_witness :
  (carol ∉ visible (filterData (js "expired")
                      (sortTable Key.daysUntilExpiry (loaded [bob; alice; carol]))))
  /\ (alice ∈ visible (filterData (js "expired") (loaded [bob; alice; carol])))
  /\ nullsLast Key.elapsedDaysValue
       (visible (sortTable Key.elapsedDaysValue (loaded [bob; alice; carol]))).
Proof.
  assert (H1 : forall r, r ∈ dataset (loaded [bob; alice; carol]) ->
                 nullableInt (get r Key.daysUntilExpiry)).
  { intros r Hr. rewrite dataset_loaded in Hr. each_row Hr; vm_compute; exact I. }
  assert (H2 : forall r, r ∈ visible (loaded [bob; alice; carol]) ->
                 dayCount (get r Key.elapsedDaysValue)).
  { intros r Hr. rewrite visible_loaded in Hr.
    each_row Hr;
      first [ left; vm_compute; reflexivity
            | right; eexists; vm_compute; reflexivity ]. }
  assert (H3 : ascending (Sort.nextSort Key.elapsedDaysValue
                 (currentSort (loaded [bob; alice; carol]))) = true)
    by reflexivity.
  split; [| split].
  - apply (expired_excludes_null_and_elapsed_sort_nulls_last
             (sortTable Key.daysUntilExpiry (loaded [bob; alice; carol]))).
    vm_compute. reflexivity.
  - apply (proj1 (proj2 (expired_excludes_null_and_elapsed_sort_nulls_last
                           (loaded [bob; alice; carol]))) H1).
    split; [rewrite dataset_loaded; apply list_elem_of_further, list_elem_of_here |].
    exists (-3). split; [vm_compute; reflexivity | lia].
  - apply (proj2 (proj2 (expired_excludes_null_and_elapsed_sort_nulls_last
                           (loaded [bob; alice; carol]))) H2 H3).
Defined.

Example sort_by_elapsed_indexes :
  indexes (visible (sortTable Key.elapsedDaysValue (loaded [bob; alice; carol])))
  = [JNum (Fin 3); JNum (Fin 1); JNum (Fin 2)].
Proof. vm_compute. reflexivity. Qed.

(** C6, as stated, fails on the days-until-expiry column: an ascending
    sort by 満了年月日までの日数 compares null as the number 0, so the
    null row (index 3) lands between -3 and 5 and is followed by a row
    with a number. *)
Lemma null_days_until_expiry_not_sorted_last :
  ascending (currentSort (sortTable Key.daysUntilExpiry (loaded [bob; alice; carol])))
    = true
  /\ indexes (visible (sortTable Key.daysUntilExpiry (loaded [bob; alice; carol])))
     = [JNum (Fin 2); JNum (Fin 3); JNum (Fin 1)]
  /\ ~ nullsLast Key.daysUntilExpiry
         (visible (sortTable Key.daysUntilExpiry (loaded [bob; alice; carol]))).
Proof.
  split; [reflexivity |]. split; [vm_compute; reflexivity |].
  intros Hlast.
  assert (Hsplit : visible (sortTable Key.daysUntilExpiry (loaded [bob; alice; carol]))
                   = [alice] ++ carol :: [bob])
    by (vm_compute; reflexivity).
  specialize (Hlast [alice] carol [bob] Hsplit).
  assert (Hcarol : get carol Key.daysUntilExpiry = JNull) by (vm_compute; reflexivity).
  specialize (Hlast Hcarol). apply Forall_cons in Hlast as [Hbob _].
  vm_compute in Hbob. discriminate Hbob.
Qed.

(** ** The Dataset under filtering, searching and sorting *)

Lemma wellFormed_loaded (rows : list row) : wellFormed (loaded rows).
Proof. split; simpl; lia. Qed.

Lemma assignFiltered_frame (rows : list row) (st : AppState) :
  wellFormed st ->
  wellFormed (assignFiltered rows st)
  /\ dataset (assignFiltered rows st) = dataset st
  /\ filteredData (assignFiltered rows st) <> allData (assignFiltered rows st).
Proof.
  intros [Hall Hfil]. unfold wellFormed, dataset, deref; simpl.
  rewrite length_app; simpl. rewrite lookup_app_l by done.
  repeat split; lia.
Qed.

Lemma aliasFiltered_frame (st : AppState) :
  wellFormed st ->
  wellFormed (aliasFiltered st) /\ dataset (aliasFiltered st) = dataset st.
Proof. intros [Hall Hfil]. by repeat split. Qed.

Lemma filterData_shape (filterType : jsstring) (st : AppState) :
  filterData filterType st = setCurrentFilter filterType st
  \/ filterData filterType st = aliasFiltered (setCurrentFilter filterType st)
  \/ exists rows,
       filterData filterType st = assignFiltered rows (setCurrentFilter filterType st).
Proof. unfold filterData; cbv zeta. repeat case_bool_decide; eauto. Qed.

(** filterData never touches the Dataset, whatever the filter type. *)
Lemma filterData_frame (filterType : jsstring) (st : AppState) :
  wellFormed st ->
  wellFormed (filterData filterType st)
  /\ dataset (filterData filterType st) = dataset st.
Proof.
  intros Hwf.
  assert (Hwf' : wellFormed (setCurrentFilter filterType st)) by exact Hwf.
  destruct (filterData_shape filterType st) as [-> | [-> | [rows ->]]].
  - by split.
  - apply (aliasFiltered_frame _ Hwf').
  - split; by apply (assignFiltered_frame rows _ Hwf').
Qed.

Lemma searchData_frame (toLowerCase : jsstring -> jsstring) (input : jsstring)
    (st st' : AppState) :
  wellFormed st -> searchData toLowerCase input st = Normal st' ->
  wellFormed st' /\ dataset st' = dataset st.
Proof.
  intros Hwf. unfold searchData. case_bool_decide.
  - intros [= <-]. by apply aliasFiltered_frame.
  - destruct (filterC _ _) as [rows | e]; simpl; [| discriminate].
    intros [= <-]. by split; apply (assignFiltered_frame _ _ Hwf).
Qed.

(** sortTable permutes the array [filteredData] names. The Dataset is
    that array when the two variables are aliased, and is then permuted
    with it; behind a reference of its own it is left alone. *)
Lemma sortTable_frame (col : jsstring) (st : AppState) :
  wellFormed st ->
  wellFormed (sortTable col st)
  /\ dataset (sortTable col st) ≡ₚ dataset st
  /\ (filteredData st <> allData st -> dataset (sortTable col st) = dataset st).
Proof.
  intros [Hall Hfil]. unfold wellFormed, sortTable, dataset, deref; simpl.
  rewrite length_insert. split; [done |].
  destruct (decide (filteredData st = allData st)) as [Heq | Hne].
  - split; [| done]. rewrite Heq, list_lookup_insert_eq by done. simpl.
    rewrite arraySort_Permutation. unfold visible, deref; simpl. by rewrite Heq.
  - rewrite list_lookup_insert_ne by done. by split.
Qed.

(** After any sequence of filter, search and sort actions the Dataset
    holds the same rows, each unchanged, possibly in another order. *)
Lemma runView_frame (toLowerCase : jsstring -> jsstring) (ops : list viewOp)
    (st : AppState) :
  wellFormed st ->
  wellFormed (runView toLowerCase ops st)
  /\ dataset (runView toLowerCase ops st) ≡ₚ dataset st.
Proof.
  revert st. induction ops as [ | op ops IH]; intros st Hwf; simpl; [done |].
  assert (Hstep : wellFormed (stepView toLowerCase op st)
                  /\ dataset (stepView toLowerCase op st) ≡ₚ dataset st).
  { destruct op as [f | input | col]; simpl.
    - destruct (filterData_frame f st Hwf) as [? ->]. by split.
    - destruct (searchData toLowerCase input st) as [st' | e] eqn:Hs; [| by split].
      destruct (searchData_frame _ _ _ _ Hwf Hs) as [? ->]. by split.
    - destruct (sortTable_frame col st Hwf) as (? & ? & _). by split. }
  destruct Hstep as [Hwf' Hperm].
  destruct (IH _ Hwf') as [? Hperm']. split; [done |]. by rewrite Hperm'.
Qed.

(** Filtering and searching alone leave the Dataset exactly as it is. *)
Lemma runView_without_sort (toLowerCase : jsstring -> jsstring) (ops : list viewOp)
    (st : AppState) :
  wellFormed st -> forallb (fun op => negb (isSort op)) ops = true ->
  dataset (runView toLowerCase ops st) = dataset st.
Proof.
  revert st. induction ops as [ | op ops IH]; intros st Hwf Hops; simpl; [done |].
  simpl in Hops. apply andb_true_iff in Hops as [Hop Hops].
  assert (Hstep : wellFormed (stepView toLowerCase op st)
                  /\ dataset (stepView toLowerCase op st) = dataset st).
  { destruct op as [f | input | col]; simpl; [| | discriminate Hop].
    - by apply filterData_frame.
    - destruct (searchData toLowerCase input st) as [st' | e] eqn:Hs; [| by split].
      by apply (searchData_frame _ _ _ _ Hwf Hs). }
  destruct Hstep as [Hwf' Heq]. by rewrite IH, Heq.
Qed.

(** C2 fails on the code. After a load, [filteredData] and [allData]
    name one array, and sortTable sorts that array in place: the Dataset
    loaded in the order 1, 2, 3 is itself in the order 2, 1, 3 (ALICE,
    BOB, CAROL) after a sort by first name line. Behind a filter other
    than [all] the sort works on a copy and the Dataset keeps its
    order. *)
Theorem sort_after_load_reorders_dataset :
  indexes (dataset (loaded [bob; alice; carol]))
    = [JNum (Fin 1); JNum (Fin 2); JNum (Fin 3)]
  /\ indexes (dataset (sortTable Key.nameLine1 (loaded [bob; alice; carol])))
     = [JNum (Fin 2); JNum (Fin 1); JNum (Fin 3)]
  /\ indexes (dataset (sortTable Key.nameLine1
                (filterData (js "deadline_passed") (loaded [bob; alice; carol]))))
     = [JNum (Fin 1); JNum (Fin 2); JNum (Fin 3)].
Proof. repeat split; vm_compute; reflexivity. Qed.

(** ** searchData *)

Section SearchProperties.

Variable toLowerCase : jsstring -> jsstring.

Lemma fieldIncludes_sound (r : row) (k text : jsstring) (b : bool) :
  fieldIncludes toLowerCase r k text = Normal b -> b = fieldMatches toLowerCase text r k.
Proof.
  unfold fieldIncludes, fieldMatches.
  destruct (get r k); try discriminate. by intros [= <-].
Qed.

Lemma orElse_sound (a c : completion bool) (x y b : bool) :
  (forall v, a = Normal v -> v = x) ->
  (forall v, c = Normal v -> v = y) ->
  orElse a c = Normal b -> b = x || y.
Proof.
  intros Ha Hc. destruct a as [v | e]; simpl; [| discriminate].
  rewrite <- (Ha v eq_refl). destruct v; simpl.
  - by intros [= <-].
  - apply Hc.
Qed.

Lemma searchMatch_sound (text : jsstring) (r : row) (b : bool) :
  searchMatch toLowerCase text r = Normal b -> b = matchesSearch toLowerCase text r.
Proof.
  unfold searchMatch, matchesSearch, searchedKeys; simpl. rewrite orb_false_r.
  repeat (apply orElse_sound; [intros ?; apply fieldIncludes_sound | intros ?]).
  apply fieldIncludes_sound.
Qed.

Lemma filterC_sound {A} (p : A -> completion bool) (q : A -> bool) (l rows : list A) :
  (forall x b, p x = Normal b -> b = q x) ->
  filterC p l = Normal rows -> rows = List.filter q l.
Proof.
  intros Hpq. revert rows. induction l as [ | x l IH]; simpl; intros rows.
  - by intros [= <-].
  - destruct (p x) as [b | e] eqn:Hp; simpl; [| discriminate].
    destruct (filterC p l) as [rest | e]; simpl; [| discriminate].
    intros [= <-]. rewrite <- (Hpq x b Hp), <- (IH rest eq_refl). reflexivity.
Qed.

(** The search runs to completion when the five properties of every
    row are strings. *)
Lemma searchMatch_total (text : jsstring) (r : row) :
  (forall k, k ∈ searchedKeys -> exists s, get r k = JStr s) ->
  exists b, searchMatch toLowerCase text r = Normal b.
Proof.
  intros Hstr. unfold searchMatch, orElse, fieldIncludes.
  assert (Hkey : forall k, In k searchedKeys -> exists s, get r k = JStr s)
    by (intros k Hk; by apply Hstr, list_elem_of_In).
  destruct (Hkey Key.personCode) as [s1 ->]; [simpl; auto 10 |].
  destruct (Hkey Key.nameLine1) as [s2 ->]; [simpl; auto 10 |].
  destruct (Hkey Key.nameLine2) as [s3 ->]; [simpl; auto 10 |].
  destruct (Hkey Key.statusCategory) as [s4 ->]; [simpl; auto 10 |].
  destruct (Hkey Key.nationality) as [s5 ->]; [simpl; auto 10 |].
  simpl. repeat (destruct (includes _ _); simpl; eauto).
Qed.

(** C4 (amended). The search predicate is a case-insensitive substring
    match against the five text properties, and it is applied to the
    full Dataset: after a search that completes, the visible rows are
    the rows of the Dataset matching the search text, in Dataset order,
    whatever filter was active and whatever was visible before; an empty
    search text shows the whole Dataset. The Dataset itself is left as
    it is. *)
Theorem search_applies_to_full_dataset (input : jsstring) (st st' : AppState) :
  searchData toLowerCase input st = Normal st' ->
  (trim (toLowerCase input) = [] -> visible st' = dataset st)
  /\ (trim (toLowerCase input) <> [] ->
      visible st' = List.filter (matchesSearch toLowerCase (trim (toLowerCase input)))
                                (dataset st))
  /\ currentFilter st' = currentFilter st
  /\ (wellFormed st -> dataset st' = dataset st).
Proof.
  intros Hs.
  assert (Hds : wellFormed st -> dataset st' = dataset st)
    by (intros Hwf; by apply (searchData_frame _ _ _ _ Hwf Hs)).
  revert Hs. unfold searchData. case_bool_decide as Htext.
  - intros [= <-]. by repeat split.
  - destruct (filterC _ _) as [rows | e] eqn:Hrows; simpl; [| discriminate].
    intros [= <-]. split; [done |]. split; [| by split].
    intros _. rewrite visible_assignFiltered.
    apply (filterC_sound _ _ _ _ (searchMatch_sound _) Hrows).
Qed.

End SearchProperties.

Lemma search_applies_to_full_dataset_witness :
  visible searchedView
  = List.filter (matchesSearch asciiToLowerCase (js "bob")) (dataset expiredView).
Proof.
  assert (Hs : searchData asciiToLowerCase (js "Bob") expiredView = Normal searchedView)
    by (vm_compute; reflexivity).
  destruct (search_applies_to_full_dataset asciiToLowerCase (js "Bob")
              expiredView searchedView Hs) as (_ & Hvis & _).
  apply Hvis. vm_compute. discriminate.
Defined.

(** C4, as stated, fails: the search does not narrow the filtered set.
    With the [expired] filter active only ALICE (index 2) is visible; a
    search for Bob then shows BOB (index 1), who is not expired, while
    [currentFilter] still says [expired]. *)
Lemma search_ignores_active_filter :
  searchData asciiToLowerCase (js "Bob") expiredView = Normal searchedView
  /\ currentFilter searchedView = js "expired"
  /\ indexes (visible expiredView) = [JNum (Fin 2)]
  /\ indexes (visible searchedView) = [JNum (Fin 1)]
  /\ ~ (forall r, r ∈ visible searchedView -> r ∈ visible expiredView).
Proof.
  split; [vm_compute; reflexivity |]. split; [vm_compute; reflexivity |].
  split; [vm_compute; reflexivity |]. split; [vm_compute; reflexivity |].
  intros Hsub.
  assert (Hbob : bob ∈ visible searchedView).
  { replace (visible searchedView) with [bob] by (vm_compute; reflexivity).
    apply list_elem_of_here. }
  apply Hsub in Hbob.
  replace (visible expiredView) with [alice] in Hbob by (vm_compute; reflexivity).
  apply list_elem_of_singleton in Hbob.
  apply (f_equal (fun r => get r Key.index)) in Hbob.
  vm_compute in Hbob. discriminate Hbob.
Qed.

(** ** extractFilenameFromDisposition *)

(** Every exception of decodeURIComponent is caught: the function
    always returns. *)
Lemma extractFilename_returns (disposition : jsstring) :
  exists v, extractFilenameFromDisposition disposition = Normal v.
Proof.
  unfold extractFilenameFromDisposition.
  destruct (Disposition.exec disposition) as [[encoded plain] | ]; [| by eexists].
  destruct (ToBoolean encoded); [| by eexists].
  destruct (Uri.decodeURIComponent _); by eexists.
Qed.




Lemma classRun_all (p : N -> bool) (s : jsstring) :
  forallb p (Disposition.classRun p s) = true.
Proof.
  induction s as [ | c s IH]; simpl; [done |].
  destruct (p c) eqn:Hc; simpl; [by rewrite Hc | done].
Qed.

Lemma capture_spec (p : N -> bool) (s run : jsstring) :
  Disposition.capture p s = Some run -> run <> [] /\ forallb p run = true.
Proof.
  unfold Disposition.capture. pose proof (classRun_all p s) as Hall.
  destruct (Disposition.classRun p s) as [ | c r]; [discriminate |].
  intros [= <-]. by split.
Qed.

Lemma matchEncoded_spec (s run : jsstring) :
  Disposition.matchEncoded s = Some run ->
  run <> [] /\ free Disposition.semicolon run = true.
Proof.
  unfold Disposition.matchEncoded.
  destruct (Disposition.matchLiteral _ s) as [rest | ]; [| discriminate].
  apply capture_spec.
Qed.

Lemma matchPlain_spec (s run : jsstring) :
  Disposition.matchPlain s = Some run ->
  run <> [] /\ free Disposition.dquote run = true
  /\ free Disposition.semicolon run = true.
Proof.
  assert (Hcap : forall t, Disposition.capture Disposition.notQuoteOrSemicolon t = Some run ->
            run <> [] /\ free Disposition.dquote run = true
            /\ free Disposition.semicolon run = true).
  { intros t [Hne Hall]%capture_spec. split; [done |].
    unfold free. rewrite !forallb_forall. rewrite forallb_forall in Hall.
    split; intros x Hx; specialize (Hall x Hx);
      unfold Disposition.notQuoteOrSemicolon in Hall;
      apply andb_true_iff in Hall as [? ?]; done. }
  unfold Disposition.matchPlain.
  destruct (Disposition.matchLiteral _ s) as [[ | q rest'] | ]; try discriminate.
  destruct (q =? Disposition.dquote)%N; [| apply Hcap].
  destruct (Disposition.capture _ rest') as [run' | ] eqn:Hfirst; [| apply Hcap].
  intros [= <-]. by apply (Hcap rest').
Qed.

(** What the pattern captures: one group, never both, and never an
    empty one. *)
Lemma exec_shape (s : jsstring) (g1 g2 : jsval) :
  Disposition.exec s = Some (g1, g2) ->
  (exists enc, g1 = JStr enc /\ g2 = JUndef /\ enc <> []
               /\ free Disposition.semicolon enc = true)
  \/ (exists plain, g1 = JUndef /\ g2 = JStr plain /\ plain <> []
                    /\ free Disposition.dquote plain = true
                    /\ free Disposition.semicolon plain = true).
Proof.
  induction s as [ | c s IH]; cbn [Disposition.exec].
  - destruct (Disposition.matchEncoded []) as [run | ] eqn:He.
    + intros [= <- <-]. left. exists run. by destruct (matchEncoded_spec _ _ He).
    + destruct (Disposition.matchPlain []) as [run | ] eqn:Hp; [| discriminate].
      intros [= <- <-]. right. exists run. by destruct (matchPlain_spec _ _ Hp) as (? & ? & ?).
  - destruct (Disposition.matchEncoded (c :: s)) as [run | ] eqn:He.
    + intros [= <- <-]. left. exists run. by destruct (matchEncoded_spec _ _ He).
    + destruct (Disposition.matchPlain (c :: s)) as [run | ] eqn:Hp; [| exact IH].
      intros [= <- <-]. right. exists run. by destruct (matchPlain_spec _ _ Hp) as (? & ? & ?).
Qed.

Lemma prepend_nonempty (u r : completion jsstring) (t : jsstring) :
  (forall x, u = Normal x -> x <> []) -> Uri.prepend u r = Normal t -> t <> [].
Proof.
  intros Hu. unfold Uri.prepend. destruct u as [x | e]; simpl; [| discriminate].
  destruct r as [y | e]; simpl; [| discriminate].
  intros [= <-]. specialize (Hu x eq_refl). by destruct x.
Qed.

Lemma decodeOctets_nonempty (octets : list N) (x : jsstring) :
  Uri.decodeOctets octets = Normal x -> x <> [].
Proof.
  unfold Uri.decodeOctets. destruct (utf8CodePoint octets) as [cp | ]; [| discriminate].
  intros [= <-]. unfold UTF16EncodeCodePoint. by destruct (cp <=? 0xFFFF)%N.
Qed.

(** Decoding never turns a non-empty text into the empty string. *)
Lemma decodeURIComponent_nonempty (s t : jsstring) :
  Uri.decodeURIComponent s = Normal t -> s <> [] -> t <> [].
Proof.
  intros Hs Hne. destruct s as [ | c rest]; [done |].
  cbn [Uri.decodeURIComponent] in Hs.
  repeat match type of Hs with
         | Uri.prepend _ _ = _ => fail 1
         | context [match ?x with _ => _ end] => destruct x; try discriminate Hs
         | context [if ?x then _ else _] => destruct x; try discriminate Hs
         end;
    (eapply prepend_nonempty; [| exact Hs]);
    first [ by intros x [= <-] | intros x; apply decodeOctets_nonempty ].
Qed.

Lemma extracted_name_cases (disposition : jsstring) :
  exists v, extractFilenameFromDisposition disposition = Normal v
    /\ ((v = JNull /\ Disposition.exec disposition = None)
        \/ exists name, v = JStr name /\ name <> []
             /\ (Disposition.exec disposition = Some (JUndef, JStr name) ->
                 free Disposition.dquote name = true
                 /\ free Disposition.semicolon name = true)).
Proof.
  unfold extractFilenameFromDisposition.
  destruct (Disposition.exec disposition) as [[g1 g2] | ] eqn:Hexec;
    [| exists JNull; split; [done | by left]].
  destruct (exec_shape _ _ _ Hexec)
    as [(enc & -> & -> & Hne & _) | (plain & -> & -> & Hne & Hq & Hs)].
  - simpl ToBoolean. rewrite (bool_decide_eq_false_2 _ Hne). simpl negb.
    change (ToString (JStr enc)) with enc.
    destruct (Uri.decodeURIComponent enc) as [decoded | e] eqn:Hdec.
    + exists (JStr decoded). split; [done |]. right. exists decoded.
      split; [done |]. split; [by apply (decodeURIComponent_nonempty enc) |].
      intros [=].
    + exists (JStr enc). split; [done |]. right. exists enc.
      split; [done |]. split; [done |]. intros [=].
  - simpl. exists (JStr plain). split; [done |]. right. exists plain.
    by repeat split.
Qed.

Lemma canonicalize_lower (c p : N) :
  Disposition.canonicalize c = Disposition.canonicalize p
  <-> asciiLowerUnit c = asciiLowerUnit p.
Proof.
  unfold Disposition.canonicalize, asciiLowerUnit.
  destruct (N.leb_spec 0x61 c), (N.leb_spec c 0x7A), (N.leb_spec 0x61 p),
    (N.leb_spec p 0x7A), (N.leb_spec 0x41 c), (N.leb_spec c 0x5A),
    (N.leb_spec 0x41 p), (N.leb_spec p 0x5A); simpl; lia.
Qed.

Lemma matchLiteral_iff (pat s rest : jsstring) :
  Disposition.matchLiteral pat s = Some rest
  <-> exists lit, s = lit ++ rest /\ spells lit pat.
Proof.
  unfold spells, asciiToLowerCase.
  revert s. induction pat as [ | p pat IH]; intros s.
  - simpl. split.
    + intros [= ->]. by exists [].
    + intros (lit & -> & Hl). by destruct lit.
  - destruct s as [ | c s]; cbn [Disposition.matchLiteral].
    + split; [discriminate |]. intros (lit & Hs & Hl).
      symmetry in Hs. apply app_eq_nil in Hs as [-> ->]. discriminate Hl.
    + destruct (N.eqb_spec (Disposition.canonicalize c) (Disposition.canonicalize p))
        as [Heq | Hne].
      * rewrite IH. split.
        -- intros (lit & -> & Hl). exists (c :: lit). split; [done |].
           cbn [List.map]. f_equal; [by apply canonicalize_lower | done].
        -- intros (lit & Hs & Hl). destruct lit as [ | c' lit]; [discriminate Hl |].
           injection Hs as <- ->. injection Hl as _ Hl. by exists lit.
      * split; [discriminate |]. intros (lit & Hs & Hl).
        destruct lit as [ | c' lit]; [discriminate Hl |].
        injection Hs as <- ->. injection Hl as Hc _.
        by apply canonicalize_lower in Hc.
Qed.

Lemma capture_is_Some (p : N -> bool) (s : jsstring) :
  is_Some (Disposition.capture p s) <-> exists c post, s = c :: post /\ p c = true.
Proof.
  unfold Disposition.capture. destruct s as [ | c s]; simpl.
  - split; [by intros [? ?] | by intros (? & ? & ? & ?)].
  - destruct (p c) eqn:Hc.
    + split; [by exists c, s | by eexists].
    + split; [by intros [? ?] | intros (? & ? & [= <- <-] & ?); congruence].
Qed.

Lemma matchEncoded_is_Some (s : jsstring) :
  is_Some (Disposition.matchEncoded s)
  <-> exists lit c post, s = lit ++ c :: post
        /\ spells lit (js "filename*=UTF-8''") /\ c <> Disposition.semicolon.
Proof.
  unfold Disposition.matchEncoded.
  generalize (js "filename*=UTF-8''"). intros pat.
  destruct (Disposition.matchLiteral pat s) as [rest | ] eqn:Hm.
  - apply matchLiteral_iff in Hm as (lit & -> & Hl).
    rewrite capture_is_Some. split.
    + intros (c & post & -> & Hc). exists lit, c, post. repeat split; try done.
      unfold Disposition.notSemicolon in Hc. apply negb_true_iff, N.eqb_neq in Hc. done.
    + intros (lit' & c & post & Hs & Hl' & Hc).
      assert (Hlen : length lit' = length lit).
      { unfold spells, asciiToLowerCase in *.
        by rewrite <- (length_map asciiLowerUnit lit'), Hl', <- Hl, length_map. }
      apply app_inj_1 in Hs as [-> ->]; [| done].
      exists c, post. split; [done |].
      unfold Disposition.notSemicolon. by apply negb_true_iff, N.eqb_neq.
  - split; [by intros [? ?] |]. intros (lit & c & post & -> & Hl & _).
    assert (Disposition.matchLiteral pat (lit ++ c :: post) = Some (c :: post))
      by (apply matchLiteral_iff; by exists lit).
    congruence.
Qed.

Lemma spells_length (lit lit' pat : jsstring) :
  spells lit pat -> spells lit' pat -> length lit = length lit'.
Proof.
  unfold spells, asciiToLowerCase. intros H H'.
  by rewrite <- (length_map asciiLowerUnit lit), H, <- H', length_map.
Qed.

Lemma matchPlain_is_Some (s : jsstring) :
  is_Some (Disposition.matchPlain s)
  <-> exists lit c post, s = lit ++ c :: post
        /\ (spells lit (js "filename=")
            \/ spells lit (js "filename=" ++ [Disposition.dquote]))
        /\ c <> Disposition.dquote /\ c <> Disposition.semicolon.
Proof.
  assert (Hclass : forall c, Disposition.notQuoteOrSemicolon c = true
            <-> c <> Disposition.dquote /\ c <> Disposition.semicolon).
  { intros c. unfold Disposition.notQuoteOrSemicolon.
    rewrite andb_true_iff, !negb_true_iff, !N.eqb_neq. done. }
  unfold Disposition.matchPlain.
  generalize (js "filename="). intros pat.
  assert (Hquote : forall lit, spells lit (pat ++ [Disposition.dquote]) ->
            exists lit0, lit = lit0 ++ [Disposition.dquote] /\ spells lit0 pat).
  { intros lit Hl. unfold spells, asciiToLowerCase in *.
    rewrite map_app in Hl. cbn [List.map] in Hl.
    destruct (decide (lit = [])) as [-> | Hne];
      [symmetry in Hl; by apply app_eq_nil in Hl as [_ ?] |].
    destruct (exists_last Hne) as (lit0 & q & ->).
    rewrite map_app in Hl. cbn [List.map] in Hl.
    apply app_inj_tail in Hl as [Hl Hq]. exists lit0. split; [| done].
    f_equal. f_equal. unfold asciiLowerUnit, Disposition.dquote in *.
    destruct (N.leb_spec 0x41 q), (N.leb_spec q 0x5A); simpl in Hq; lia. }
  destruct (Disposition.matchLiteral pat s) as [rest | ] eqn:Hm.
  - apply matchLiteral_iff in Hm as (lit & -> & Hl).
    split.
    + intros Hsome. destruct rest as [ | q rest']; [by destruct Hsome |].
      destruct (N.eqb_spec q Disposition.dquote) as [-> | Hq].
      * destruct (Disposition.capture _ rest') as [run | ] eqn:Hrun.
        -- assert (Hs : is_Some (Disposition.capture Disposition.notQuoteOrSemicolon rest'))
             by (rewrite Hrun; by eexists).
           apply capture_is_Some in Hs as (c & post & -> & Hc).
           exists (lit ++ [Disposition.dquote]), c, post.
           split; [by rewrite <- app_assoc |]. split; [| by apply Hclass].
           right. unfold spells, asciiToLowerCase in *. rewrite !map_app. by f_equal.
        -- apply capture_is_Some in Hsome as (c & post & [= <- <-] & Hc).
           apply Hclass in Hc as [Hc _]. done.
      * apply capture_is_Some in Hsome as (c & post & [= <- <-] & Hc).
        exists lit, q, rest'. split; [done |]. split; [by left | by apply Hclass].
    + intros (lit' & c & post & Hs & [Hl' | Hl'] & Hc).
      * apply app_inj_1 in Hs as [-> ->]; [| by apply (spells_length _ _ pat)].
        destruct (N.eqb_spec c Disposition.dquote) as [-> | Hq]; [by destruct Hc |].
        apply capture_is_Some. exists c, post. split; [done | by apply Hclass].
      * apply Hquote in Hl' as (lit0 & -> & Hl0).
        rewrite <- app_assoc in Hs.
        apply app_inj_1 in Hs as [-> ->]; [| by apply (spells_length _ _ pat)].
        cbn [app]. rewrite N.eqb_refl.
        assert (Hs : is_Some (Disposition.capture Disposition.notQuoteOrSemicolon
                                (c :: post)))
          by (apply capture_is_Some; exists c, post; split; [done | by apply Hclass]).
        destruct Hs as [run ->]. by eexists.
  - split; [by intros [? ?] |]. intros (lit & c & post & -> & [Hl | Hl] & _).
    + assert (Disposition.matchLiteral pat (lit ++ c :: post) = Some (c :: post))
        by (apply matchLiteral_iff; by exists lit).
      congruence.
    + apply Hquote in Hl as (lit0 & -> & Hl0). rewrite <- app_assoc in Hm.
      assert (Disposition.matchLiteral pat (lit0 ++ [Disposition.dquote] ++ c :: post)
              = Some ([Disposition.dquote] ++ c :: post))
        by (apply matchLiteral_iff; by exists lit0).
      congruence.
Qed.

Lemma exec_eq (s : jsstring) :
  Disposition.exec s =
  match Disposition.matchEncoded s with
  | Some g1 => Some (JStr g1, JUndef)
  | None =>
      match Disposition.matchPlain s with
      | Some g2 => Some (JUndef, JStr g2)
      | None =>
          match s with
          | [] => None
          | _ :: s' => Disposition.exec s'
          end
      end
  end.
Proof. destruct s; reflexivity. Qed.

Lemma exec_here (t : jsstring) :
  is_Some (Disposition.matchEncoded t) \/ is_Some (Disposition.matchPlain t) ->
  is_Some (Disposition.exec t).
Proof.
  rewrite exec_eq. intros [[g ->] | [g ->]]; [by eexists |].
  destruct (Disposition.matchEncoded t); by eexists.
Qed.

Lemma exec_is_Some (s : jsstring) :
  is_Some (Disposition.exec s)
  <-> exists pre t, s = pre ++ t
        /\ (is_Some (Disposition.matchEncoded t) \/ is_Some (Disposition.matchPlain t)).
Proof.
  induction s as [ | c s IH].
  - split.
    + intros Hsome. exists [], []. split; [reflexivity |]. rewrite exec_eq in Hsome.
      destruct (Disposition.matchEncoded []); [left; by eexists |].
      destruct (Disposition.matchPlain []); [right; by eexists | by destruct Hsome].
    + intros (pre & t & Hs & Ht).
      symmetry in Hs. apply app_eq_nil in Hs as [-> ->]. by apply exec_here.
  - split.
    + intros Hsome. rewrite exec_eq in Hsome.
      destruct (Disposition.matchEncoded (c :: s)) as [g | ] eqn:He;
        [exists [], (c :: s); split; [reflexivity | left; rewrite He; by eexists] |].
      destruct (Disposition.matchPlain (c :: s)) as [g | ] eqn:Hp;
        [exists [], (c :: s); split; [reflexivity | right; rewrite Hp; by eexists] |].
      apply IH in Hsome as (pre & t & -> & Ht).
      exists (c :: pre), t. split; [reflexivity | exact Ht].
    + intros (pre & t & Hs & Ht). destruct pre as [ | c' pre].
      * change ([] ++ t) with t in Hs. subst t. by apply exec_here.
      * injection Hs as <- ->.
        assert (Hlater : is_Some (Disposition.exec (pre ++ t))).
        { apply IH. exists pre, t. split; [reflexivity | exact Ht]. }
        rewrite exec_eq.
        destruct (Disposition.matchEncoded (c :: pre ++ t)); [by eexists |].
        destruct (Disposition.matchPlain (c :: pre ++ t)); [by eexists | exact Hlater].
Qed.

Lemma exec_carriesFilename (s : jsstring) :
  is_Some (Disposition.exec s) <-> carriesFilename s.
Proof.
  rewrite exec_is_Some. unfold carriesFilename. split.
  - intros (pre & t & -> & [He | Hp]).
    + apply matchEncoded_is_Some in He as (lit & c & post & -> & Hl & Hc).
      exists pre, lit, c, post. split; [done | by left].
    + apply matchPlain_is_Some in Hp as (lit & c & post & -> & Hl & Hc).
      exists pre, lit, c, post. split; [done | by right].
  - intros (pre & lit & c & post & -> & [[Hl Hc] | [Hl Hc]]);
      exists pre, (lit ++ c :: post); (split; [done |]).
    + left. apply matchEncoded_is_Some. by exists lit, c, post.
    + right. apply matchPlain_is_Some. by exists lit, c, post.
Qed.

Lemma extractFilename_null_iff (s : jsstring) :
  extractFilenameFromDisposition s = Normal JNull <-> Disposition.exec s = None.
Proof.
  destruct (extracted_name_cases s) as (v & Hv & [[-> Hnone] | (name & -> & Hne & _)]).
  - by rewrite Hv.
  - rewrite Hv. split; [discriminate |]. intros Hnone.
    unfold extractFilenameFromDisposition in Hv. rewrite Hnone in Hv. discriminate Hv.
Qed.

(** C10 (amended). extractFilenameFromDisposition returns for every
    input and never throws. It returns null exactly for the inputs that
    nowhere carry the text filename= (with or without a double quote
    after it) followed by a code unit other than a double quote and a
    semicolon, nor the text filename*=UTF-8 and two apostrophes followed
    by a code unit other than a semicolon, in any letter case and at any
    position, the end of a longer parameter name included. And when the
    pattern captured the encoded form and percent-decoding it throws,
    the captured text is returned as it is. *)
Theorem extractFilename_total (disposition : jsstring) :
  (exists v, extractFilenameFromDisposition disposition = Normal v)
  /\ (extractFilenameFromDisposition disposition = Normal JNull
      <-> ~ carriesFilename disposition)
  /\ (forall encoded e,
        Disposition.exec disposition = Some (JStr encoded, JUndef) ->
        Uri.decodeURIComponent encoded = Throw e ->
        extractFilenameFromDisposition disposition = Normal (JStr encoded)).
Proof.
  split; [apply extractFilename_returns |]. split.
  - rewrite extractFilename_null_iff, <- exec_carriesFilename.
    destruct (Disposition.exec disposition) as [p | ]; split.
    + discriminate.
    + intros Hno. destruct Hno. by eexists.
    + by intros _ [? ?].
    + reflexivity.
  - intros encoded e Hexec Hthrow. unfold extractFilenameFromDisposition.
    rewrite Hexec.
    assert (Hne : encoded <> []).
    { intros ->. vm_compute in Hthrow. discriminate Hthrow. }
    simpl. rewrite bool_decide_eq_false_2 by done. simpl.
    change (ToString (JStr encoded)) with encoded. by rewrite Hthrow.
Qed.

Lemma extractFilename_total_witness :
  extractFilenameFromDisposition (js "attachment; filename") = Normal JNull
  /\ extractFilenameFromDisposition (js "attachment; filename*=UTF-8''100%.xlsx")
     = Normal (JStr (js "100%.xlsx")).
Proof.
  split.
  - apply (extractFilename_total (js "attachment; filename")).
    intros Hcarries. apply exec_carriesFilename in Hcarries as [p Hp].
    vm_compute in Hp. discriminate Hp.
  - apply (extractFilename_total (js "attachment; filename*=UTF-8''100%.xlsx"))
      with (e := URIError); vm_compute; reflexivity.
Defined.

(** C10, as stated, fails on a header without a filename parameter whose
    only parameter has a name that ends in filename: the pattern is not
    anchored at the start of a parameter, so the value of x-filename is
    returned where the claim has null. *)
Lemma x_filename_parameter_is_read :
  parameterNames (js "attachment; x-filename=foo.txt") = [js "x-filename"]
  /\ hasFilenameParameter (js "attachment; x-filename=foo.txt") = false
  /\ extractFilenameFromDisposition (js "attachment; x-filename=foo.txt")
     = Normal (JStr (js "foo.txt")).
Proof. repeat split; vm_compute; reflexivity. Qed.

(** The two examples of the specification, and a header with the
    encoded form first. *)
Example extract_encoded_form :
  extractFilenameFromDisposition (js "filename*=UTF-8''%E5%9C%A8%E7%95%99.xlsx")
  = Normal (JStr (js "在留.xlsx")).
Proof. vm_compute. reflexivity. Qed.

Example extract_plain_form :
  extractFilenameFromDisposition (js "filename=" ++ quoted "plain.xlsx")
  = Normal (JStr (js "plain.xlsx")).
Proof. vm_compute. reflexivity. Qed.

Example extract_encoded_before_plain :
  extractFilenameFromDisposition
    (js "attachment; filename*=UTF-8''%E5%9C%A8%E7%95%99.xlsx; filename="
     ++ quoted "zairyu.xlsx")
  = Normal (JStr (js "在留.xlsx")).
Proof. vm_compute. reflexivity. Qed.

(** C9 fails on the code when the plain form comes first, the order in
    which servers usually send the two: the pattern is matched at the
    leftmost index, there only the plain alternative matches, and the
    plain name is returned although the header carries the encoded
    one. *)
Theorem extract_plain_before_encoded_returns_plain :
  extractFilenameFromDisposition
    (js "attachment; filename=" ++ quoted "zairyu.xlsx"
     ++ js "; filename*=UTF-8''%E5%9C%A8%E7%95%99.xlsx")
  = Normal (JStr (js "zairyu.xlsx")).
Proof. vm_compute. reflexivity. Qed.

(** ** UnsavedChangeTracker *)

Section TrackerProperties.

Variable DateParse : jsstring -> option Z.

Lemma reloadAndMark_dirty (page : Page) (srv : Server) (now : Z) (st : AppState) :
  hasUnsavedChanges (fst (reloadAndMark DateParse page srv now st)) = true
  /\ lastChangeTimestamp (fst (reloadAndMark DateParse page srv now st)) = Some now.
Proof.
  unfold reloadAndMark, loadDataEv.
  destruct (loadSummary DateParse page (onSummary srv) (loadData (onData srv) st))
    as [st2 ev2].
  by split.
Qed.

Lemma updateLastExportInfo_clean (page : Page) (summary : Summary) (st : AppState) :
  hasUnsavedChanges st = false -> lastChangeTimestamp st = None ->
  hasUnsavedChanges (updateLastExportInfo DateParse page summary st) = false
  /\ lastChangeTimestamp (updateLastExportInfo DateParse page summary st) = None.
Proof.
  intros Hclean Hnone. unfold updateLastExportInfo.
  destruct (hasLastExportInfo page); simpl; [| done].
  by rewrite Hnone.
Qed.

Lemma loadSummary_clean (page : Page) (response : fetched Summary) (st : AppState) :
  hasUnsavedChanges st = false -> lastChangeTimestamp st = None ->
  hasUnsavedChanges (fst (loadSummary DateParse page response st)) = false
  /\ lastChangeTimestamp (fst (loadSummary DateParse page response st)) = None.
Proof.
  intros Hclean Hnone. unfold loadSummary.
  destruct response as [ | | summary]; simpl; try done.
  destruct (hasSummaryElements page); simpl; [| done].
  by apply updateLastExportInfo_clean.
Qed.

(** C8. The tracker has two states, read off [hasUnsavedChanges]. From
    every state, Clean or Dirty, a successful add or update (a submitted
    form that passes validation and is answered ok) and a successful
    delete leave it Dirty with [lastChangeTimestamp] set to the current
    time; from every state a successful export of processed data leaves
    it Clean; and, on the application's page, the receipt of a summary
    whose export time is at or after the recorded change time (a
    Date.now() value, hence positive) leaves it Clean. State and
    timestamp are the variables [hasUnsavedChanges] and
    [lastChangeTimestamp]. *)
Theorem unsaved_tracker_transitions (page : Page) (f : EditForm) (index : jsval)
    (srv : Server) (message : jsstring) (header : option jsstring)
    (anySummary : fetched Summary) (summary : Summary)
    (now changed exported : Z) (st : AppState) :
  (validateForm f = None -> onMutation srv = Ok message ->
   let st' := fst (handleFormSubmit DateParse page f srv now st) in
   trackerState st' = Dirty /\ hasUnsavedChanges st' = true
   /\ lastChangeTimestamp st' = Some now)
  /\ (onMutation srv = Ok message ->
      let st' := fst (deleteRow DateParse page index true srv now st) in
      trackerState st' = Dirty /\ hasUnsavedChanges st' = true
      /\ lastChangeTimestamp st' = Some now)
  /\ (let st' := fst (exportProcessedData DateParse page (Ok header) anySummary st) in
      trackerState st' = Clean /\ hasUnsavedChanges st' = false
      /\ lastChangeTimestamp st' = None)
  /\ (hasSummaryElements page = true -> hasLastExportInfo page = true ->
      lastChangeTimestamp st = Some changed -> 0 < changed ->
      parseSummaryTimestamp DateParse (last_exported_at summary) = Some exported ->
      changed <= exported ->
      let st' := fst (loadSummary DateParse page (Ok summary) st) in
      trackerState st' = Clean /\ hasUnsavedChanges st' = false
      /\ lastChangeTimestamp st' = None /\ lastExportedAt st' = Some exported).
Proof.
  split; [| split; [| split]]; cbv zeta.
  - intros Hvalid Hok. unfold handleFormSubmit. rewrite Hvalid, Hok.
    destruct (reloadAndMark_dirty page srv now st) as [Hd Ht].
    destruct (reloadAndMark DateParse page srv now st) as [st' ev]; simpl in *.
    unfold trackerState. by rewrite Hd.
  - intros Hok. unfold deleteRow. simpl. rewrite Hok.
    destruct (reloadAndMark_dirty page srv now st) as [Hd Ht].
    destruct (reloadAndMark DateParse page srv now st) as [st' ev]; simpl in *.
    unfold trackerState. by rewrite Hd.
  - unfold exportProcessedData.
    destruct (extractFilename_returns (default [] header)) as [name ->].
    destruct (loadSummary_clean page anySummary (resetUnsavedChanges st)
                eq_refl eq_refl) as [Hd Ht].
    destruct (loadSummary DateParse page anySummary (resetUnsavedChanges st))
      as [st' ev]; simpl in *.
    unfold trackerState. by rewrite Hd.
  - intros Hsum Hinfo Hchanged Hpos Hparse Hge.
    unfold loadSummary. rewrite Hsum. simpl.
    unfold updateLastExportInfo. rewrite Hinfo, Hparse. simpl. rewrite Hchanged.
    assert (Hnz : (changed =? 0) = false) by (apply Z.eqb_neq; lia).
    assert (Hle : (changed <=? exported) = true) by (by apply Z.leb_le).
    rewrite Hnz, Hle. by simpl.
Qed.

End TrackerProperties.

Lemma unsaved_tracker_transitions_witness :
  let added := fst (handleFormSubmit dateAt2000 appPage (tier1Form "120")
                      (okServer [bob; alice] None) 1500 (loaded [bob])) in
  let st := markUnsavedChanges 1000 (loaded [bob]) in
  trackerState (loaded [bob]) = Clean
  /\ trackerState added = Dirty
  /\ trackerState (fst (deleteRow dateAt2000 appPage (JNum (Fin 1)) true
                          (okServer [bob; alice] None) 1500 (loaded [bob]))) = Dirty
  /\ trackerState (fst (loadSummary dateAt2000 appPage
                          (Ok (mkSummary (Some (js "2024-05-01 10:00:00")))) st))
     = Clean.
Proof.
  cbv zeta.
  pose proof (unsaved_tracker_transitions dateAt2000 appPage (tier1Form "120")
                (JNum (Fin 1)) (okServer [bob; alice] None) (js "ok") None
                (Ok (mkSummary None)) (mkSummary (Some (js "2024-05-01 10:00:00")))
                1500 1000 2000 (loaded [bob])) as (Hsubmit & Hdelete & _ & _).
  pose proof (unsaved_tracker_transitions dateAt2000 appPage (tier1Form "120")
                (JNum (Fin 1)) (okServer [bob; alice] None) (js "ok") None
                (Ok (mkSummary None)) (mkSummary (Some (js "2024-05-01 10:00:00")))
                1500 1000 2000 (markUnsavedChanges 1000 (loaded [bob])))
    as (_ & _ & _ & Hsummary).
  split; [reflexivity |]. split; [| split].
  - apply Hsubmit; [vm_compute; reflexivity | reflexivity].
  - apply Hdelete. reflexivity.
  - apply Hsummary; [reflexivity | reflexivity | reflexivity | lia | reflexivity | lia].
Defined.

Example add_then_exported_summary :
  let added := fst (handleFormSubmit dateAt2000 appPage (tier1Form "120")
                      (okServer [bob; alice] None) 1500 (loaded [bob])) in
  trackerState (loaded [bob]) = Clean
  /\ trackerState added = Dirty /\ lastChangeTimestamp added = Some 1500
  /\ trackerState (fst (loadSummary dateAt2000 appPage
                          (Ok (mkSummary (Some (js "2024-05-01 10:00:00")))) added))
     = Clean.
Proof. repeat split; vm_compute; reflexivity. Qed.

(** ** Form validation *)

Ltac bool_props H :=
  rewrite ?orb_true_iff, ?andb_true_iff, ?N.leb_le, ?N.ltb_lt, ?N.eqb_eq in H.

Lemma digit_not_whiteSpace (c : N) : isDecimalDigit c = true -> isWhiteSpace c = false.
Proof.
  unfold isDecimalDigit. intros Hd. bool_props Hd.
  destruct (isWhiteSpace c) eqn:Hw; [| done].
  unfold isWhiteSpace in Hw. bool_props Hw. lia.
Qed.

Lemma parseDigits_decimal (s : jsstring) (acc : option N) :
  allDigits s = true -> s <> [] \/ acc <> None ->
  exists n, parseDigits 10 s acc = Some n.
Proof.
  revert acc. induction s as [ | c s IH]; intros acc Hall Hne; simpl.
  - destruct acc as [n | ]; [by exists n | by destruct Hne].
  - simpl in Hall. apply andb_true_iff in Hall as [Hc Hall].
    unfold digitValue. rewrite Hc.
    assert (Hlt : (c - 0x30 <? 10)%N = true) by (bool_props Hc; apply N.ltb_lt; lia).
    rewrite Hlt. apply IH; [done | by right].
Qed.

(** parseInt of a string of decimal digits is a number, not negative. *)
Lemma parseInt_decimal (s : jsstring) :
  allDigits s = true -> s <> [] ->
  exists n : N, parseInt s = Fin (Z.of_N n).
Proof.
  intros Hall Hne. destruct s as [ | c s]; [done |].
  pose proof Hall as Hall'. simpl in Hall'. apply andb_true_iff in Hall' as [Hc Hrest].
  destruct (parseDigits_decimal (c :: s) None Hall) as [n Hn]; [by left |].
  exists n. unfold parseInt.
  cbn [trimStart]. rewrite (digit_not_whiteSpace c Hc).
  assert (Hsign : stripSign (c :: s) = (false, c :: s)).
  { unfold stripSign. unfold isDecimalDigit in Hc. bool_props Hc.
    rewrite !(proj2 (N.eqb_neq _ _)) by lia. reflexivity. }
  rewrite Hsign.
  destruct s as [ | x s]; [by rewrite Hn |].
  simpl in Hrest. apply andb_true_iff in Hrest as [Hx _]. bool_props Hx.
  rewrite (proj2 (N.eqb_neq x 0x78)), (proj2 (N.eqb_neq x 0x58)) by lia.
  rewrite andb_false_r. by rewrite Hn.
Qed.

Section FormProperties.

Variable DateParse : jsstring -> option Z.

(** A rejected submission alerts, focuses the field and does nothing
    else: no request is sent and no variable changes. *)
Lemma rejected_submission_is_silent (page : Page) (f : EditForm) (srv : Server)
    (now : Z) (st : AppState) (message field : jsstring) :
  validateForm f = Some (message, field) ->
  handleFormSubmit DateParse page f srv now st = (st, [EvAlert message; EvFocus field])
  /\ existsb isFetch (snd (handleFormSubmit DateParse page f srv now st)) = false.
Proof. intros Hv. unfold handleFormSubmit. by rewrite Hv. Qed.

(** With the tier-1 marker, an empty field is rejected. *)
Lemma validateForm_requires_days (f : EditForm) :
  hasTier1Marker (zairyuShikaku f) = true -> kiManryoDays f = [] ->
  validateForm f = Some (alertRequired, kiManryoField).
Proof. intros Hm Hd. unfold validateForm. by rewrite Hm, Hd. Qed.

(** With the tier-1 marker, a field parseInt reads as NaN or as a
    negative number is rejected. *)
Lemma validateForm_rejects_unparsed (f : EditForm) :
  hasTier1Marker (zairyuShikaku f) = true -> kiManryoDays f <> [] ->
  parseInt (kiManryoDays f) = NaN
  \/ (exists z, parseInt (kiManryoDays f) = Fin z /\ z < 0) ->
  validateForm f = Some (alertNotNumber, kiManryoField).
Proof.
  intros Hm Hd Hp. unfold validateForm.
  rewrite Hm, bool_decide_eq_false_2 by done.
  destruct Hp as [-> | (z & -> & Hz)]; [done |].
  simpl. by rewrite (proj2 (Z.ltb_lt z 0) Hz).
Qed.

(** A non-negative integer written in decimal digits is accepted. *)
Lemma validateForm_accepts_decimal (f : EditForm) :
  allDigits (kiManryoDays f) = true -> kiManryoDays f <> [] ->
  validateForm f = None.
Proof.
  intros Hall Hne. unfold validateForm.
  destruct (hasTier1Marker _); [| done].
  rewrite bool_decide_eq_false_2 by done.
  destruct (parseInt_decimal _ Hall Hne) as [n ->]. simpl.
  by rewrite (proj2 (Z.ltb_ge (Z.of_N n) 0)) by lia.
Qed.

End FormProperties.

Example validateForm_examples :
  validateForm (tier1Form "") = Some (alertRequired, kiManryoField)
  /\ validateForm (tier1Form "abc") = Some (alertNotNumber, kiManryoField)
  /\ validateForm (tier1Form "-5") = Some (alertNotNumber, kiManryoField)
  /\ validateForm (tier1Form "0") = None
  /\ validateForm (tier1Form "1650") = None.
Proof. repeat split; vm_compute; reflexivity. Qed.

(** C3 fails on the code. The field is read with parseInt, which stops
    at the first character that is not a digit: with the tier-1 status
    特定技能1号, the field values 12abc and 1.5 (neither a non-negative
    integer) pass the check, the form is submitted, and the raw text is
    what the request carries. *)
Theorem form_accepts_days_with_trailing_text :
  hasTier1Marker (zairyuShikaku (tier1Form "12abc")) = true
  /\ parseInt (js "12abc") = Fin 12
  /\ validateForm (tier1Form "12abc") = None
  /\ validateForm (tier1Form "1.5") = None
  /\ snd (handleFormSubmit dateAt2000 appPage (tier1Form "12abc")
            (okServer [bob] None) 1500 (loaded [bob]))
     = [ EvFetch (js "POST") (js "/api/data/add") (Some (formData (tier1Form "12abc")));
         EvFetch (js "GET") (js "/api/data") None;
         EvFetch (js "GET") (js "/api/summary") None ]
  /\ In (js "既満了日数", js "12abc") (formData (tier1Form "12abc")).
Proof.
  repeat split; try (vm_compute; reflexivity).
  vm_compute. do 10 right. left. reflexivity.
Qed.

(** * Further properties *)

(** ** calendar.js: navigation *)

Lemma stepMonth_index (direction : Z) (st : Calendar.State) :
  1 <= Calendar.currentMonth st <= 12 -> direction = 1 \/ direction = -1 ->
  1 <= Calendar.currentMonth (Calendar.stepMonth direction st) <= 12
  /\ Calendar.monthIndex (Calendar.stepMonth direction st)
     = Calendar.monthIndex st + direction.
Proof.
  intros Hm Hd. unfold Calendar.stepMonth, Calendar.monthIndex.
  destruct (Z.ltb_spec (Calendar.currentMonth st + direction) 1); simpl; [lia |].
  destruct (Z.ltb_spec 12 (Calendar.currentMonth st + direction)); simpl; lia.
Qed.

Lemma navigateMonth_state (direction : Z)
    (response : fetched (gmap jsstring Calendar.DayData)) (st : Calendar.State) :
  Calendar.currentYear (fst (Calendar.navigateMonth direction response st))
  = Calendar.currentYear (Calendar.stepMonth direction st)
  /\ Calendar.currentMonth (fst (Calendar.navigateMonth direction response st))
     = Calendar.currentMonth (Calendar.stepMonth direction st).
Proof. unfold Calendar.navigateMonth, Calendar.loadCalendarData. by destruct response. Qed.

(** navigateMonth(1) and navigateMonth(-1) move the calendar by exactly
    one month and keep the month between 1 and 12, rolling the year at
    December and January, whatever the backend answers. *)
Theorem navigateMonth_moves_one_month (direction : Z)
    (response : fetched (gmap jsstring Calendar.DayData)) (st : Calendar.State) :
  1 <= Calendar.currentMonth st <= 12 ->
  direction = 1 \/ direction = -1 ->
  1 <= Calendar.currentMonth (fst (Calendar.navigateMonth direction response st)) <= 12
  /\ Calendar.monthIndex (fst (Calendar.navigateMonth direction response st))
     = Calendar.monthIndex st + direction.
Proof.
  intros Hm Hd.
  destruct (navigateMonth_state direction response st) as [Hy Hmo].
  destruct (stepMonth_index direction st Hm Hd) as [Hr Hi].
  unfold Calendar.monthIndex in *. rewrite Hy, Hmo. by split.
Qed.

Lemma navigateMonth_moves_one_month_witness :
  Calendar.currentMonth (fst (Calendar.navigateMonth 1 NotOk (Calendar.mkCal ∅ 2024 12))) = 1
  /\ Calendar.currentYear (fst (Calendar.navigateMonth 1 NotOk (Calendar.mkCal ∅ 2024 12)))
     = 2025.
Proof.
  destruct (navigateMonth_moves_one_month 1 NotOk (Calendar.mkCal ∅ 2024 12))
    as [Hr Hi].
  - simpl. lia.
  - by left.
  - split; reflexivity.
Defined.

(** Going to the next month and back, or to the previous month and
    back, shows the month the calendar started from. *)
Theorem navigateMonth_round_trip (direction : Z)
    (there back : fetched (gmap jsstring Calendar.DayData)) (st : Calendar.State) :
  1 <= Calendar.currentMonth st <= 12 ->
  direction = 1 \/ direction = -1 ->
  let st' := fst (Calendar.navigateMonth (- direction) back
                    (fst (Calendar.navigateMonth direction there st))) in
  Calendar.currentYear st' = Calendar.currentYear st
  /\ Calendar.currentMonth st' = Calendar.currentMonth st.
Proof.
  intros Hm Hd st'.
  destruct (navigateMonth_state direction there st) as [Hy1 Hm1].
  destruct (stepMonth_index direction st Hm Hd) as [Hr1 Hi1].
  set (st1 := fst (Calendar.navigateMonth direction there st)) in *.
  assert (Hr1' : 1 <= Calendar.currentMonth st1 <= 12) by (by rewrite Hm1).
  assert (Hd' : - direction = 1 \/ - direction = -1) by lia.
  destruct (navigateMonth_state (- direction) back st1) as [Hy2 Hm2].
  destruct (stepMonth_index (- direction) st1 Hr1' Hd') as [Hr2 Hi2].
  fold st' in Hy2, Hm2. rewrite Hy2, Hm2.
  unfold Calendar.monthIndex in *. rewrite Hy1, Hm1 in Hi2. lia.
Qed.

Lemma navigateMonth_round_trip_witness :
  let st' := fst (Calendar.navigateMonth 1 NotOk
                    (fst (Calendar.navigateMonth (-1) NotOk (Calendar.mkCal ∅ 2025 1)))) in
  Calendar.currentYear st' = 2025 /\ Calendar.currentMonth st' = 1.
Proof.
  apply (navigateMonth_round_trip (-1) NotOk NotOk (Calendar.mkCal ∅ 2025 1)).
  - simpl. lia.
  - by right.
Defined.

Lemma navigateMonth_run_index (responses : list (fetched (gmap jsstring Calendar.DayData)))
    (st : Calendar.State) :
  1 <= Calendar.currentMonth st <= 12 ->
  let st' := fold_left (fun s r => fst (Calendar.navigateMonth 1 r s)) responses st in
  1 <= Calendar.currentMonth st' <= 12
  /\ Calendar.monthIndex st' = Calendar.monthIndex st + Z.of_nat (length responses).
Proof.
  revert st. induction responses as [ | r rs IH]; intros st Hm; cbn [fold_left length].
  - cbv zeta. lia.
  - destruct (stepMonth_index 1 st Hm) as [Hr Hi]; [by left |].
    destruct (navigateMonth_state 1 r st) as [Hy Hmo].
    assert (Hr1 : 1 <= Calendar.currentMonth (fst (Calendar.navigateMonth 1 r st)) <= 12)
      by (by rewrite Hmo).
    destruct (IH _ Hr1) as [Hr' Hi']. cbv zeta. split; [done |].
    rewrite Hi'. unfold Calendar.monthIndex in *. rewrite Hy, Hmo. lia.
Qed.

(** Twelve clicks on next month show the same month of the next year:
    what one click on next year shows. *)
Theorem twelve_months_make_a_year
    (responses : list (fetched (gmap jsstring Calendar.DayData)))
    (response : fetched (gmap jsstring Calendar.DayData)) (st : Calendar.State) :
  1 <= Calendar.currentMonth st <= 12 ->
  length responses = 12%nat ->
  let byMonth := fold_left (fun s r => fst (Calendar.navigateMonth 1 r s)) responses st in
  let byYear := fst (Calendar.navigateYear 1 response st) in
  Calendar.currentYear byMonth = Calendar.currentYear byYear
  /\ Calendar.currentMonth byMonth = Calendar.currentMonth byYear
  /\ Calendar.currentYear byYear = Calendar.currentYear st + 1.
Proof.
  intros Hm Hlen byMonth byYear.
  destruct (navigateMonth_run_index responses st Hm) as [Hr Hi].
  fold byMonth in Hr, Hi. rewrite Hlen in Hi.
  assert (Hy : Calendar.currentYear byYear = Calendar.currentYear st + 1
               /\ Calendar.currentMonth byYear = Calendar.currentMonth st).
  { unfold byYear, Calendar.navigateYear, Calendar.loadCalendarData.
    by destruct response. }
  destruct Hy as [Hy Hmo]. rewrite Hy, Hmo.
  unfold Calendar.monthIndex in Hi. lia.
Qed.

Lemma twelve_months_make_a_year_witness :
  Calendar.currentYear
    (fold_left (fun s r => fst (Calendar.navigateMonth 1 r s)) (replicate 12 NotOk)
               (Calendar.mkCal ∅ 2024 3)) = 2025
  /\ Calendar.currentMonth
       (fold_left (fun s r => fst (Calendar.navigateMonth 1 r s)) (replicate 12 NotOk)
                  (Calendar.mkCal ∅ 2024 3)) = 3.
Proof.
  destruct (twelve_months_make_a_year (replicate 12 NotOk) NotOk (Calendar.mkCal ∅ 2024 3))
    as (Hy & Hm & Hn).
  - simpl. lia.
  - reflexivity.
  - split; [by rewrite Hy | by rewrite Hm].
Defined.

(** ** calendar.js: the month grid *)

Ltac each_weekday H :=
  match type of H with
  | 0 <= ?f <= 6 =>
      assert (f = 0 \/ f = 1 \/ f = 2 \/ f = 3 \/ f = 4 \/ f = 5 \/ f = 6) as Hcases by lia;
      clear H; destruct Hcases as [-> | [-> | [-> | [-> | [-> | [-> | ->]]]]]]
  end.

Ltac each_length H :=
  match type of H with
  | 28 <= ?d <= 31 =>
      assert (d = 28 \/ d = 29 \/ d = 30 \/ d = 31) as Hcases by lia;
      clear H; destruct Hcases as [-> | [-> | [-> | ->]]]
  end.

(** The cells of the grid, for every weekday of the first of the month
    and every length of month. *)
Lemma calendarRows_cells (mk : Z -> Calendar.Cell) (firstDay daysInMonth : Z) :
  0 <= firstDay <= 6 -> 28 <= daysInMonth <= 31 ->
  Calendar.cellsOf (Calendar.calendarRows mk firstDay daysInMonth)
  = replicate (Z.to_nat firstDay) Calendar.OtherMonth
    ++ List.map mk (seqZ 1 daysInMonth)
    ++ (if (firstDay + daysInMonth) mod 7 =? 0 then []
        else Calendar.OtherMonth
             :: List.map mk (seqZ 1 (41 - firstDay - daysInMonth))).
Proof.
  intros Hf Hd. each_weekday Hf; each_length Hd; vm_compute; reflexivity.
Qed.

Lemma calendarRows_shape (mk : Z -> Calendar.Cell) (firstDay daysInMonth : Z) :
  0 <= firstDay <= 6 -> 28 <= daysInMonth <= 31 ->
  Forall (fun week => length week = 7%nat) (Calendar.calendarRows mk firstDay daysInMonth)
  /\ (4 <= length (Calendar.calendarRows mk firstDay daysInMonth) <= 6)%nat.
Proof.
  intros Hf Hd. each_weekday Hf; each_length Hd;
    (split; [repeat constructor | vm_compute; split; by repeat constructor]).
Qed.

(** generateCalendar lays the month out in weeks of seven cells, four
    to six of them, and every day of the month has its cell: reading the
    grid row after row, day [d] is the cell number
    [firstDay + d - 1], after [firstDay] cells marked other-month. *)
Theorem generateCalendar_shows_every_day (st : Calendar.State) (today : Z * Z * Z)
    (daysInMonth firstDay day : Z) :
  0 <= firstDay <= 6 -> 28 <= daysInMonth <= 31 -> 1 <= day <= daysInMonth ->
  let grid := Calendar.generateCalendar st today daysInMonth firstDay in
  Forall (fun week => length week = 7%nat) grid
  /\ (4 <= length grid <= 6)%nat
  /\ take (Z.to_nat firstDay) (Calendar.cellsOf grid)
     = replicate (Z.to_nat firstDay) Calendar.OtherMonth
  /\ Calendar.cellsOf grid !! Z.to_nat (firstDay + day - 1)
     = Some (Calendar.dayCell st today day).
Proof.
  intros Hf Hd Hday grid. unfold grid, Calendar.generateCalendar.
  destruct (calendarRows_shape (Calendar.dayCell st today) firstDay daysInMonth Hf Hd)
    as [Hweeks Hrows].
  rewrite (calendarRows_cells _ _ _ Hf Hd).
  repeat split; try done; try lia.
  - rewrite take_app_length'; [done | by rewrite length_replicate].
  - rewrite lookup_app_r; rewrite length_replicate; [| lia].
    replace (Z.to_nat (firstDay + day - 1) - Z.to_nat firstDay)%nat
      with (Z.to_nat (day - 1)) by lia.
    rewrite lookup_app_l by (rewrite length_map, length_seqZ; lia).
    change (List.map ?f ?l) with (f <$> l).
    rewrite list_lookup_fmap, lookup_seqZ_lt by lia. simpl. f_equal. f_equal. lia.
Qed.

Lemma generateCalendar_shows_every_day_witness :
  Calendar.cellsOf (Calendar.generateCalendar (Calendar.mkCal ∅ 2024 2) (2024, 2, 10) 29 4)
    !! Z.to_nat (4 + 29 - 1)
  = Some (Calendar.dayCell (Calendar.mkCal ∅ 2024 2) (2024, 2, 10) 29).
Proof.
  apply (generateCalendar_shows_every_day (Calendar.mkCal ∅ 2024 2) (2024, 2, 10) 29 4 29);
    lia.
Defined.

(** When the last day of the month falls in the last column, the grid
    is the other-month cells of the first week followed by the days of
    the month, each once. Otherwise the grid always has six weeks: after
    the last day comes one cell marked other-month, and the cells after
    it are built as days 1, 2, ... of the displayed month again, with
    the date strings (and so the entries) of those days. *)
Theorem generateCalendar_cells (st : Calendar.State) (today : Z * Z * Z)
    (daysInMonth firstDay : Z) :
  0 <= firstDay <= 6 -> 28 <= daysInMonth <= 31 ->
  let cells := Calendar.cellsOf (Calendar.generateCalendar st today daysInMonth firstDay) in
  let month := replicate (Z.to_nat firstDay) Calendar.OtherMonth
               ++ List.map (Calendar.dayCell st today) (seqZ 1 daysInMonth) in
  ((firstDay + daysInMonth) mod 7 = 0 -> cells = month)
  /\ ((firstDay + daysInMonth) mod 7 <> 0 ->
      length cells = 42%nat
      /\ cells = month ++ Calendar.OtherMonth
                 :: List.map (Calendar.dayCell st today)
                             (seqZ 1 (41 - firstDay - daysInMonth))).
Proof.
  intros Hf Hd cells month. unfold cells, month, Calendar.generateCalendar.
  rewrite (calendarRows_cells _ _ _ Hf Hd). split.
  - intros Hend. rewrite (proj2 (Z.eqb_eq _ _) Hend). by rewrite app_nil_r.
  - intros Hend. rewrite (proj2 (Z.eqb_neq _ _) Hend). split.
    + rewrite !length_app, length_replicate, length_map, length_seqZ. simpl.
      rewrite length_map, length_seqZ. lia.
    + by rewrite <- app_assoc.
Qed.

Lemma generateCalendar_cells_witness :
  length (Calendar.cellsOf
            (Calendar.generateCalendar (Calendar.mkCal ∅ 2024 4) (2024, 4, 10) 30 1))
  = 42%nat
  /\ Calendar.cellsOf (Calendar.generateCalendar (Calendar.mkCal ∅ 2024 4) (2024, 4, 10) 30 1)
       !! 32%nat
     = Some (Calendar.dayCell (Calendar.mkCal ∅ 2024 4) (2024, 4, 10) 1).
Proof.
  destruct (generateCalendar_cells (Calendar.mkCal ∅ 2024 4) (2024, 4, 10) 30 1)
    as [_ Hmore]; [lia | lia |].
  destruct Hmore as [Hlen Hcells]; [vm_compute; discriminate |].
  split; [exact Hlen |]. rewrite Hcells. reflexivity.
Defined.

(** ** Invariants of the table page *)

Lemma filter_submseteq {A} (p : A -> bool) (l : list A) : List.filter p l ⊆+ l.
Proof.
  induction l as [ | x l IH]; simpl; [done |].
  destruct (p x); [by apply submseteq_skip | by apply submseteq_cons].
Qed.

Lemma sameView_within (st st' : AppState) :
  sameView st st' -> viewWithinDataset st -> viewWithinDataset st'.
Proof.
  intros (Ha & Hd & Hf). unfold viewWithinDataset, wellFormed, visible, dataset, deref.
  by rewrite Ha, Hd, Hf.
Qed.

Lemma filterData_known_or_ignored (t : jsstring) (st : AppState) :
  (exists f, t = filterType f) \/ filterData t st = setCurrentFilter t st.
Proof.
  unfold filterData; cbv zeta.
  case_bool_decide; [left; by exists FAll |].
  case_bool_decide; [left; by exists FDeadlinePassed |].
  case_bool_decide; [left; by exists FExpired |].
  case_bool_decide; [left; by exists FLevel1 |].
  case_bool_decide; [left; by exists FLevel2 |].
  case_bool_decide; [left; by exists FLevel3 |].
  case_bool_decide; [left; by exists FSkill1Limit |].
  by right.
Qed.

Lemma filterData_within (t : jsstring) (st : AppState) :
  viewWithinDataset st -> viewWithinDataset (filterData t st).
Proof.
  intros Hinv. destruct (filterData_known_or_ignored t st) as [[f ->] | ->].
  - destruct Hinv as [Hwf _]. split; [by apply filterData_frame |].
    rewrite visible_filterData, dataset_filterData. apply filter_submseteq.
  - exact Hinv.
Qed.

Lemma searchData_within (toLowerCase : jsstring -> jsstring) (input : jsstring)
    (st st' : AppState) :
  viewWithinDataset st -> searchData toLowerCase input st = Normal st' ->
  viewWithinDataset st'.
Proof.
  intros [Hwf Hsub] Hs.
  destruct (searchData_frame _ _ _ _ Hwf Hs) as [Hwf' Hds].
  split; [done |]. rewrite Hds. revert Hs. unfold searchData. case_bool_decide.
  - by intros [= <-].
  - destruct (filterC _ _) as [rows | e] eqn:Hrows; simpl; [| discriminate].
    intros [= <-]. rewrite visible_assignFiltered.
    rewrite (filterC_sound _ _ _ _ (searchMatch_sound toLowerCase _) Hrows).
    apply filter_submseteq.
Qed.

Lemma sortTable_within (col : jsstring) (st : AppState) :
  viewWithinDataset st -> viewWithinDataset (sortTable col st).
Proof.
  intros [Hwf Hsub].
  destruct (sortTable_frame col st Hwf) as (Hwf' & Hperm & Hsame).
  split; [done |].
  destruct (decide (filteredData st = allData st)) as [Heq | Hne].
  - assert (Hrefs : filteredData (sortTable col st) = allData (sortTable col st))
      by exact Heq.
    unfold visible, dataset. by rewrite Hrefs.
  - rewrite (Hsame Hne), visible_sortTable, arraySort_Permutation. exact Hsub.
Qed.

Lemma loadData_within (response : fetched (list row)) (st : AppState) :
  viewWithinDataset st -> viewWithinDataset (loadData response st).
Proof.
  intros Hinv. destruct response as [ | | data]; try exact Hinv.
  destruct Hinv as [[Hall Hfil] _]. unfold viewWithinDataset, wellFormed; simpl.
  rewrite length_app; simpl. split; [lia |]. done.
Qed.

Section Invariants.

Variable toLowerCase : jsstring -> jsstring.
Variable DateParse : jsstring -> option Z.
Variable page : Page.

Lemma updateLastExportInfo_sameView (summary : Summary) (st : AppState) :
  sameView st (updateLastExportInfo DateParse page summary st).
Proof.
  unfold updateLastExportInfo, sameView.
  destruct (hasLastExportInfo page); simpl; [| done].
  destruct (lastChangeTimestamp st) as [t | ]; [| done].
  destruct (parseSummaryTimestamp _ _) as [e | ]; [| done].
  by destruct (negb (t =? 0) && (t <=? e)).
Qed.

Lemma loadSummary_sameView (response : fetched Summary) (st : AppState) :
  sameView st (fst (loadSummary DateParse page response st)).
Proof.
  unfold loadSummary. destruct response as [ | | summary]; simpl; try done.
  destruct (hasSummaryElements page); simpl; [| done].
  apply updateLastExportInfo_sameView.
Qed.

Lemma updateLastExportInfo_consistent (summary : Summary) (st : AppState) :
  trackerConsistent st ->
  trackerConsistent (updateLastExportInfo DateParse page summary st).
Proof.
  intros Hc. unfold updateLastExportInfo.
  destruct (hasLastExportInfo page); simpl; [| done].
  destruct (lastChangeTimestamp st) as [t | ]; [| exact Hc].
  destruct (parseSummaryTimestamp _ _) as [e | ]; [| exact Hc].
  destruct (negb (t =? 0) && (t <=? e)); [by right | exact Hc].
Qed.

Lemma loadSummary_consistent (response : fetched Summary) (st : AppState) :
  trackerConsistent st ->
  trackerConsistent (fst (loadSummary DateParse page response st)).
Proof.
  intros Hc. unfold loadSummary. destruct response as [ | | summary]; simpl; try done.
  destruct (hasSummaryElements page); simpl; [| done].
  by apply updateLastExportInfo_consistent.
Qed.

Lemma refreshData_within (srv : Server) (st : AppState) :
  viewWithinDataset st -> viewWithinDataset (fst (refreshData DateParse page srv st)).
Proof.
  intros Hinv. unfold refreshData, loadDataEv.
  pose proof (loadSummary_sameView (onSummary srv) (loadData (onData srv) st)) as Hsame.
  destruct (loadSummary DateParse page (onSummary srv) (loadData (onData srv) st))
    as [st2 ev2]; simpl in *.
  apply (sameView_within _ _ Hsame). by apply loadData_within.
Qed.

Lemma reloadAndMark_within (srv : Server) (now : Z) (st : AppState) :
  viewWithinDataset st ->
  viewWithinDataset (fst (reloadAndMark DateParse page srv now st)).
Proof.
  intros Hinv. unfold reloadAndMark, loadDataEv.
  pose proof (loadSummary_sameView (onSummary srv) (loadData (onData srv) st)) as Hsame.
  destruct (loadSummary DateParse page (onSummary srv) (loadData (onData srv) st))
    as [st2 ev2]; simpl in *.
  apply (sameView_within st2); [done |].
  apply (sameView_within _ _ Hsame). by apply loadData_within.
Qed.

Lemma stepApp_within (op : appOp) (st : AppState) :
  viewWithinDataset st -> viewWithinDataset (stepApp toLowerCase DateParse page op st).
Proof.
  intros Hinv. destruct op as [v | srv | f srv now | index confirmed srv now
                              | response summary | fileChosen srv]; simpl.
  - destruct v as [t | input | col]; simpl.
    + by apply filterData_within.
    + destruct (searchData toLowerCase input st) as [st' | e] eqn:Hs; [| done].
      by apply (searchData_within _ _ _ _ Hinv Hs).
    + by apply sortTable_within.
  - by apply refreshData_within.
  - unfold handleFormSubmit. destruct (validateForm f) as [[m fld] | ]; [done |].
    destruct (onMutation srv) as [ | | msg]; try done.
    pose proof (reloadAndMark_within srv now st Hinv) as H.
    by destruct (reloadAndMark DateParse page srv now st).
  - unfold deleteRow. destruct confirmed; simpl; [| done].
    destruct (onMutation srv) as [ | | msg]; try done.
    pose proof (reloadAndMark_within srv now st Hinv) as H.
    by destruct (reloadAndMark DateParse page srv now st).
  - unfold exportProcessedData. destruct response as [ | | header]; try done.
    destruct (extractFilenameFromDisposition _) as [name | e]; [| done].
    pose proof (loadSummary_sameView summary (resetUnsavedChanges st)) as Hsame.
    destruct (loadSummary DateParse page summary (resetUnsavedChanges st))
      as [st' ev]; simpl in *.
    apply (sameView_within _ _ Hsame). by apply (sameView_within st).
  - unfold handleFileUpload. destruct fileChosen; simpl; [| done].
    destruct (onMutation srv) as [ | | msg]; try done.
    pose proof (refreshData_within srv st Hinv) as H.
    destruct (refreshData DateParse page srv st) as [st' ev]; simpl in *.
    by apply (sameView_within st').
Qed.

Lemma runApp_within (ops : list appOp) (st : AppState) :
  viewWithinDataset st ->
  viewWithinDataset (runApp toLowerCase DateParse page ops st).
Proof.
  revert st. induction ops as [ | op ops IH]; intros st Hinv; simpl; [done |].
  by apply IH, stepApp_within.
Qed.

(** Whatever the user does on the table page, and whatever the backend
    answers as long as each ok answer of /api/data carries its array of
    rows, every row the table shows is a row of the Dataset, counted
    with multiplicity. *)
Theorem visible_rows_are_dataset_rows (ops : list appOp) :
  visible (runApp toLowerCase DateParse page ops initialState)
  ⊆+ dataset (runApp toLowerCase DateParse page ops initialState).
Proof.
  apply (runApp_within ops initialState). split; [split; simpl; lia | done].
Qed.

End Invariants.

Lemma sameTracker_consistent (st st' : AppState) :
  sameTracker st st' -> trackerConsistent st -> trackerConsistent st'.
Proof. intros [Hh Ht]. unfold trackerConsistent. by rewrite Hh, Ht. Qed.

Lemma filterData_sameTracker (t : jsstring) (st : AppState) :
  sameTracker st (filterData t st).
Proof. by destruct (filterData_shape t st) as [-> | [-> | [rows ->]]]. Qed.

Lemma searchData_sameTracker (toLowerCase : jsstring -> jsstring) (input : jsstring)
    (st st' : AppState) :
  searchData toLowerCase input st = Normal st' -> sameTracker st st'.
Proof.
  unfold searchData. case_bool_decide; [by intros [= <-] |].
  destruct (filterC _ _) as [rows | e]; simpl; [| discriminate]. by intros [= <-].
Qed.

Lemma loadData_sameTracker (response : fetched (list row)) (st : AppState) :
  sameTracker st (loadData response st).
Proof. by destruct response. Qed.

Section TrackerInvariant.

Variable toLowerCase : jsstring -> jsstring.
Variable DateParse : jsstring -> option Z.
Variable page : Page.

Lemma refreshData_consistent (srv : Server) (st : AppState) :
  trackerConsistent st -> trackerConsistent (fst (refreshData DateParse page srv st)).
Proof.
  intros Hc. unfold refreshData, loadDataEv.
  pose proof (loadSummary_consistent DateParse page (onSummary srv)
                (loadData (onData srv) st)) as Hsum.
  destruct (loadSummary DateParse page (onSummary srv) (loadData (onData srv) st))
    as [st2 ev2]; simpl in *.
  apply Hsum.
  exact (sameTracker_consistent st _ (loadData_sameTracker (onData srv) st) Hc).
Qed.

Lemma stepApp_consistent (op : appOp) (st : AppState) :
  trackerConsistent st -> trackerConsistent (stepApp toLowerCase DateParse page op st).
Proof.
  intros Hc. destruct op as [v | srv | f srv now | index confirmed srv now
                            | response summary | fileChosen srv]; simpl.
  - destruct v as [t | input | col]; simpl.
    + exact (sameTracker_consistent st _ (filterData_sameTracker t st) Hc).
    + destruct (searchData toLowerCase input st) as [st' | e] eqn:Hs; [| done].
      exact (sameTracker_consistent st _ (searchData_sameTracker _ _ _ _ Hs) Hc).
    + exact Hc.
  - by apply refreshData_consistent.
  - unfold handleFormSubmit. destruct (validateForm f) as [[m fld] | ]; [done |].
    destruct (onMutation srv) as [ | | msg]; try done.
    destruct (reloadAndMark_dirty DateParse page srv now st) as [Hd Ht].
    destruct (reloadAndMark DateParse page srv now st) as [st' ev]; simpl in *.
    left. split; [done | by exists now].
  - unfold deleteRow. destruct confirmed; simpl; [| done].
    destruct (onMutation srv) as [ | | msg]; try done.
    destruct (reloadAndMark_dirty DateParse page srv now st) as [Hd Ht].
    destruct (reloadAndMark DateParse page srv now st) as [st' ev]; simpl in *.
    left. split; [done | by exists now].
  - unfold exportProcessedData. destruct response as [ | | header]; try done.
    destruct (extractFilenameFromDisposition _) as [name | e]; [| done].
    pose proof (loadSummary_consistent DateParse page summary (resetUnsavedChanges st))
      as Hsum.
    destruct (loadSummary DateParse page summary (resetUnsavedChanges st))
      as [st' ev]; simpl in *.
    apply Hsum. by right.
  - unfold handleFileUpload. destruct fileChosen; simpl; [| done].
    destruct (onMutation srv) as [ | | msg]; try done.
    destruct (refreshData DateParse page srv st) as [st' ev]; simpl. by right.
Qed.

(** In every state the table page can reach, the unsaved-changes flag
    is set exactly when a change time is recorded: the flag and the
    timestamp never disagree. *)
Theorem tracker_flag_matches_timestamp (ops : list appOp) :
  let st := runApp toLowerCase DateParse page ops initialState in
  (hasUnsavedChanges st = true <-> exists t, lastChangeTimestamp st = Some t)
  /\ (trackerState st = Clean <-> lastChangeTimestamp st = None).
Proof.
  assert (Hrun : forall st, trackerConsistent st ->
            trackerConsistent (runApp toLowerCase DateParse page ops st)).
  { induction ops as [ | op ops IH]; intros st Hc; simpl; [done |].
    by apply IH, stepApp_consistent. }
  cbv zeta. unfold trackerState.
  destruct (Hrun initialState) as [[Hd [t Ht]] | [Hd Ht]]; [by right | |];
    rewrite Hd, Ht; split; split; try done; try (by eexists).
  intros [t' Ht']. discriminate Ht'.
Qed.

(** A handler call that is refused or fails changes no variable: a form
    that does not pass the check, a delete that is not confirmed, an
    upload without a file, a save, delete, upload or export the backend
    does not answer ok, and a refresh with both loads failing all leave
    the Dataset, the visible rows, the filter and sort state and the
    tracker as they were. *)
Theorem failed_request_changes_nothing (op : appOp) (st : AppState) :
  failedOp op = true -> stepApp toLowerCase DateParse page op st = st.
Proof.
  destruct op as [v | srv | f srv now | index confirmed srv now
                 | response summary | fileChosen srv]; simpl.
  - discriminate.
  - unfold refreshData, loadDataEv, loadSummary.
    destruct (onData srv), (onSummary srv); simpl; try discriminate; done.
  - unfold handleFormSubmit. destruct (validateForm f) as [[m fld] | ]; [done |].
    by destruct (onMutation srv).
  - unfold deleteRow. destruct confirmed; simpl; [| done].
    by destruct (onMutation srv).
  - unfold exportProcessedData. by destruct response.
  - unfold handleFileUpload. destruct fileChosen; simpl; [| done].
    by destruct (onMutation srv).
Qed.

(** A summary that carries no export time, or one that cannot be read,
    or one earlier than the recorded change, leaves a dirty tracker
    dirty, with its change time. *)
Theorem stale_summary_keeps_dirty (summary : Summary) (changed : Z) (st : AppState) :
  hasUnsavedChanges st = true ->
  lastChangeTimestamp st = Some changed ->
  parseSummaryTimestamp DateParse (last_exported_at summary) = None
  \/ (exists e, parseSummaryTimestamp DateParse (last_exported_at summary) = Some e
                /\ e < changed) ->
  sameTracker st (fst (loadSummary DateParse page (Ok summary) st))
  /\ trackerState (fst (loadSummary DateParse page (Ok summary) st)) = Dirty.
Proof.
  intros Hd Ht Hold.
  assert (Hsame : sameTracker st (fst (loadSummary DateParse page (Ok summary) st))).
  { unfold loadSummary. destruct (hasSummaryElements page); simpl; [| done].
    unfold updateLastExportInfo. destruct (hasLastExportInfo page); simpl; [| done].
    rewrite Ht. destruct Hold as [-> | (e & -> & Hlt)]; [done |].
    rewrite (proj2 (Z.leb_gt changed e)) by lia. by rewrite andb_false_r. }
  split; [done |]. unfold trackerState. destruct Hsame as [-> _]. by rewrite Hd.
Qed.

End TrackerInvariant.

Lemma failed_request_changes_nothing_witness :
  stepApp asciiToLowerCase dateAt2000 appPage
          (DoSubmit (tier1Form "") (okServer [bob] None) 1500) (loaded [bob; alice])
  = loaded [bob; alice].
Proof.
  apply (failed_request_changes_nothing asciiToLowerCase dateAt2000 appPage).
  vm_compute. reflexivity.
Defined.

Lemma stale_summary_keeps_dirty_witness :
  trackerState
    (fst (loadSummary dateAt2000 appPage (Ok (mkSummary (Some (js "2024-05-01 10:00:00"))))
            (markUnsavedChanges 3000 (loaded [bob]))))
  = Dirty.
Proof.
  apply (stale_summary_keeps_dirty dateAt2000 appPage
           (mkSummary (Some (js "2024-05-01 10:00:00"))) 3000
           (markUnsavedChanges 3000 (loaded [bob]))).
  - reflexivity.
  - reflexivity.
  - right. exists 2000. split; [reflexivity | lia].
Defined.

(** ** searchData: completion and failure *)

Section SearchCompletion.

Variable toLowerCase : jsstring -> jsstring.

Lemma fieldIncludes_throws (r : row) (k text : jsstring) (e : jsError) :
  fieldIncludes toLowerCase r k text = Throw e -> e = TypeError.
Proof. unfold fieldIncludes. destruct (get r k); by intros [= <-]. Qed.

Lemma orElse_throws (a c : completion bool) (e : jsError) :
  (forall e', a = Throw e' -> e' = TypeError) ->
  (forall e', c = Throw e' -> e' = TypeError) ->
  orElse a c = Throw e -> e = TypeError.
Proof.
  intros Ha Hc. unfold orElse. destruct a as [[ | ] | e']; simpl.
  - discriminate.
  - apply Hc.
  - intros [= <-]. by apply Ha.
Qed.

Lemma searchMatch_throws (text : jsstring) (r : row) (e : jsError) :
  searchMatch toLowerCase text r = Throw e -> e = TypeError.
Proof.
  unfold searchMatch.
  repeat (apply orElse_throws; [intros ?; apply fieldIncludes_throws | intros ?]).
  apply fieldIncludes_throws.
Qed.

Lemma searchMatch_needs_code (text : jsstring) (r : row) :
  (forall s, get r Key.personCode <> JStr s) ->
  searchMatch toLowerCase text r = Throw TypeError.
Proof.
  intros Hcode. unfold searchMatch, orElse at 1, fieldIncludes at 1.
  destruct (get r Key.personCode) as [ | | n | s | s d]; try done.
  by destruct (Hcode s).
Qed.

Lemma filterC_throws {A} (p : A -> completion bool) (l : list A) (x : A) :
  (forall y e, p y = Throw e -> e = TypeError) ->
  x ∈ l -> p x = Throw TypeError -> filterC p l = Throw TypeError.
Proof.
  intros Honly Hin Hx. induction l as [ | y l IH]; [by apply not_elem_of_nil in Hin |].
  simpl. destruct (p y) as [b | e] eqn:Hy; simpl.
  - apply elem_of_cons in Hin as [-> | Hin]; [congruence |].
    by rewrite (IH Hin).
  - by rewrite (Honly y e Hy).
Qed.

Lemma filterC_completes {A} (p : A -> completion bool) (l : list A) :
  (forall x, x ∈ l -> exists b, p x = Normal b) ->
  exists rows, filterC p l = Normal rows.
Proof.
  induction l as [ | x l IH]; intros Hp; simpl; [by eexists |].
  destruct (Hp x) as [b ->]; [by left |]. simpl.
  destruct IH as [rows ->]; [intros y Hy; apply Hp; by right |]. simpl. by eexists.
Qed.

(** One row of the Dataset whose 担当者コード is not a string (null,
    missing, or a number) makes every search with a non-blank text
    throw a TypeError: nothing is filtered and the table stays as it
    was. *)
Theorem search_throws_on_non_text_code (input : jsstring) (st : AppState) (r : row) :
  trim (toLowerCase input) <> [] ->
  r ∈ dataset st ->
  (forall s, get r Key.personCode <> JStr s) ->
  searchData toLowerCase input st = Throw TypeError
  /\ stepView toLowerCase (OpSearch input) st = st.
Proof.
  intros Htext Hin Hcode.
  assert (Hs : searchData toLowerCase input st = Throw TypeError).
  { unfold searchData. rewrite bool_decide_eq_false_2 by done.
    rewrite (filterC_throws _ _ r); [done | | done |].
    - intros y e. apply searchMatch_throws.
    - by apply searchMatch_needs_code. }
  split; [done |]. simpl. by rewrite Hs.
Qed.

(** When the five searched properties of every Dataset row are strings,
    every search runs to completion. *)
Theorem search_completes_on_text_rows (input : jsstring) (st : AppState) :
  (forall r k, r ∈ dataset st -> k ∈ searchedKeys -> exists s, get r k = JStr s) ->
  exists st', searchData toLowerCase input st = Normal st'
              /\ stepView toLowerCase (OpSearch input) st = st'.
Proof.
  intros Htext.
  assert (Hs : exists st', searchData toLowerCase input st = Normal st').
  { unfold searchData. case_bool_decide; [by eexists |].
    destruct (filterC_completes (searchMatch toLowerCase (trim (toLowerCase input)))
                (dataset st)) as [rows ->]; [| by eexists].
    intros r Hr. apply searchMatch_total. intros k Hk. by apply Htext. }
  destruct Hs as [st' Hs]. exists st'. split; [done |]. simpl. by rewrite Hs.
Qed.

End SearchCompletion.

Lemma search_throws_on_non_text_code_witness :
  searchData asciiToLowerCase (js "bob")
             (loaded [bob; mkRow [(Key.index, JNum (Fin 9)); (Key.personCode, JNum (Fin 1001))]])
  = Throw TypeError.
Proof.
  apply (search_throws_on_non_text_code asciiToLowerCase (js "bob")
           (loaded [bob; mkRow [(Key.index, JNum (Fin 9));
                                (Key.personCode, JNum (Fin 1001))]])
           (mkRow [(Key.index, JNum (Fin 9)); (Key.personCode, JNum (Fin 1001))])).
  - vm_compute. discriminate.
  - rewrite dataset_loaded. apply list_elem_of_further, list_elem_of_here.
  - intros s. vm_compute. discriminate.
Defined.

Lemma search_completes_on_text_rows_witness :
  exists st', searchData asciiToLowerCase (js "ali") (loaded [bob; alice]) = Normal st'.
Proof.
  destruct (search_completes_on_text_rows asciiToLowerCase (js "ali") (loaded [bob; alice]))
    as (st' & Hs & _).
  - intros r k Hr Hk. rewrite dataset_loaded in Hr.
    apply list_elem_of_In in Hr, Hk. simpl in Hr, Hk.
    destruct Hr as [<- | [<- | []]];
      repeat (destruct Hk as [<- | Hk]; [eexists; vm_compute; reflexivity |]);
      contradiction.
  - by exists st'.
Defined.

(** ** sortTable: more on the order *)

Lemma arraySort_unordered {A} (cmp : A -> A -> Z) (l : list A) :
  (forall x y, x ∈ l -> y ∈ l -> (0 <? cmp x y) = false) ->
  arraySort cmp l = l.
Proof.
  induction l as [ | x l IH]; intros Hcmp; simpl; [done |].
  rewrite IH by (intros y z Hy Hz; apply Hcmp; by right).
  destruct l as [ | y l]; simpl; [done |].
  by rewrite Hcmp by (repeat constructor).
Qed.

Lemma js_lt_undefined (v : jsval) : js_lt JUndef v = false /\ js_lt v JUndef = false.
Proof.
  unfold js_lt. cbn [ToPrimitive].
  split.
  - by destruct (ToPrimitive v).
  - destruct (ToPrimitive v) as [ | | n | s | s d]; try reflexivity.
    + by destruct n.
    + unfold ToNumber. cbn [ToPrimitive]. by destruct (StringToNumber s).
Qed.

Lemma sortValue_undefined (col : jsstring) (r : row) :
  get r col = JUndef -> Sort.sortValue col r = JUndef.
Proof. unfold Sort.sortValue. intros ->. by case_bool_decide. Qed.

Lemma sortValue_same (col : jsstring) (x y : row) :
  get x col = get y col -> Sort.sortValue col x = Sort.sortValue col y.
Proof. unfold Sort.sortValue. by intros ->. Qed.

(** Sorting by a column on which any two visible rows hold the same
    value, or one of them holds none (a column no row has, the same
    value in every row, or one value in some rows and nothing in the
    others), leaves the visible rows in the order they had, in either
    direction: a value is not below itself, and undefined compares as
    NaN with everything. *)
Theorem sort_without_order_keeps_rows (col : jsstring) (st : AppState) :
  (forall x y, x ∈ visible st -> y ∈ visible st ->
     get x col = get y col \/ get x col = JUndef \/ get y col = JUndef) ->
  visible (sortTable col st) = visible st.
Proof.
  intros Hflat. rewrite visible_sortTable. apply arraySort_unordered.
  assert (Hlt : forall x y, x ∈ visible st -> y ∈ visible st ->
            js_lt (Sort.sortValue col x) (Sort.sortValue col y) = false).
  { intros x y Hx Hy. destruct (Hflat x y Hx Hy) as [Heq | [Hu | Hu]].
    - rewrite (sortValue_same col x y Heq). apply js_lt_irrefl.
    - rewrite (sortValue_undefined col x Hu). apply js_lt_undefined.
    - rewrite (sortValue_undefined col y Hu). apply js_lt_undefined. }
  intros x y Hx Hy. unfold Sort.compareRows, js_gt.
  rewrite (Hlt x y Hx Hy), (Hlt y x Hy Hx). reflexivity.
Qed.

Lemma sort_without_order_keeps_rows_witness :
  visible (sortTable (js "備考") (loaded [bob; alice; carol])) = [bob; alice; carol]
  /\ visible (sortTable Key.nameLine2 (loaded [bob; alice; carol])) = [bob; alice; carol].
Proof.
  split.
  - apply (sort_without_order_keeps_rows (js "備考") (loaded [bob; alice; carol])).
    intros x y Hx Hy. rewrite visible_loaded in Hx, Hy.
    each_row Hx; each_row Hy; left; vm_compute; reflexivity.
  - apply (sort_without_order_keeps_rows Key.nameLine2 (loaded [bob; alice; carol])).
    intros x y Hx Hy. rewrite visible_loaded in Hx, Hy.
    each_row Hx; each_row Hy; left; vm_compute; reflexivity.
Defined.

(** sortTable only reorders: the visible rows after the call are the
    visible rows before it, each as often as before, and the filter
    name and the tracker are not touched; the column sorted by is
    recorded. *)
Theorem sortTable_only_reorders (col : jsstring) (st : AppState) :
  visible (sortTable col st) ≡ₚ visible st
  /\ currentFilter (sortTable col st) = currentFilter st
  /\ sameTracker st (sortTable col st)
  /\ column (currentSort (sortTable col st)) = Some col.
Proof.
  rewrite visible_sortTable, arraySort_Permutation.
  split; [done |]. split; [done |]. split; [done |]. apply nextSort_column.
Qed.

#[local] Instance intOrder_trans (col : jsstring) (asc : bool) :
  Transitive (intOrder col asc).
Proof.
  intros a b c (x & y & Ha & Hb & Hxy) (y' & z & Hb' & Hc & Hyz).
  rewrite Hb in Hb'. injection Hb' as <-.
  exists x, z. repeat split; try done. destruct asc; lia.
Qed.

Lemma compareRows_int_agrees (col : jsstring) (asc : bool) (a b : row) :
  is_Some (intValue col a) -> is_Some (intValue col b) ->
  agrees (Sort.compareRows col asc) (intOrder col asc) a b.
Proof.
  unfold intValue. intros [x Hx] [y Hy].
  destruct (get a col) as [ | | [x' | | | ] | | ] eqn:Ha; try discriminate.
  destruct (get b col) as [ | | [y' | | | ] | | ] eqn:Hb; try discriminate.
  injection Hx as ->. injection Hy as ->.
  assert (Hva : Sort.sortValue col a = JNum (Fin x))
    by (unfold Sort.sortValue; rewrite Ha; by case_bool_decide).
  assert (Hvb : Sort.sortValue col b = JNum (Fin y))
    by (unfold Sort.sortValue; rewrite Hb; by case_bool_decide).
  unfold agrees, Sort.compareRows, js_gt, intOrder, intValue.
  rewrite Hva, Hvb, Ha, Hb. unfold js_lt; simpl.
  destruct (Z.ltb_spec x y); [destruct asc; simpl; eexists _, _; repeat split; lia |].
  destruct (Z.ltb_spec y x); destruct asc; simpl; eexists _, _; repeat split; lia.
Qed.

(** On a column that holds an integer in every visible row, sortTable
    leaves the rows in the order of those integers: ascending when the
    recorded direction is ascending (first click on the column),
    descending otherwise (second click). *)
Theorem sort_by_integer_column (col : jsstring) (st : AppState) :
  (forall r, r ∈ visible st -> is_Some (intValue col r)) ->
  StronglySorted (intOrder col (ascending (currentSort (sortTable col st))))
                 (visible (sortTable col st)).
Proof.
  intros Hint. rewrite visible_sortTable, currentSort_sortTable.
  apply (arraySort_sorted _ (intOrder col _)).
  intros x y Hx Hy. apply compareRows_int_agrees; by apply Hint.
Qed.

Lemma sort_by_integer_column_witness :
  StronglySorted (intOrder Key.index false)
    (visible (sortTable Key.index (sortTable Key.index (loaded [bob; carol; alice])))).
Proof.
  apply (sort_by_integer_column Key.index (sortTable Key.index (loaded [bob; carol; alice]))).
  intros r Hr. rewrite visible_sortTable, arraySort_elem_of, visible_loaded in Hr.
  each_row Hr; eexists; vm_compute; reflexivity.
Defined.

(** ** filterData: more on the filters *)

Lemma levelIs_exclusive (a b : jsstring) (r : row) :
  a <> b -> Filter.levelIs a r = true -> Filter.levelIs b r = false.
Proof.
  unfold Filter.levelIs, strictEqStr. intros Hne.
  destruct (get r Key.level); try done.
  rewrite bool_decide_eq_true. intros ->. by apply bool_decide_eq_false_2.
Qed.

(** The three level filters never show the same row: a row shown by
    one of them is shown by neither of the other two, so the three
    counts never count a row twice. *)
Theorem level_filters_are_disjoint (f g : NamedFilter) (st st' : AppState) (r : row) :
  isLevelFilter f = true -> isLevelFilter g = true -> f <> g ->
  r ∈ visible (filterData (filterType f) st) ->
  r ∉ visible (filterData (filterType g) st').
Proof.
  intros Hf Hg Hne. rewrite !visible_filterData.
  rewrite !list_elem_of_In, !filter_In. intros [_ Hrf] [_ Hrg].
  destruct f, g; try discriminate; try done; simpl in Hrf, Hrg;
    match type of Hrf with
    | Filter.levelIs ?a r = true =>
        match type of Hrg with
        | Filter.levelIs ?b r = true =>
            assert (Hab : a <> b) by (vm_compute; discriminate);
            rewrite (levelIs_exclusive a b r Hab Hrf) in Hrg; discriminate Hrg
        end
    end.
Qed.

Lemma level_filters_are_disjoint_witness :
  mkRow [(Key.index, JNum (Fin 7)); (Key.level, JStr (js "level1"))]
  ∉ visible (filterData (js "60days")
       (loaded [mkRow [(Key.index, JNum (Fin 7)); (Key.level, JStr (js "level1"))]])).
Proof.
  apply (level_filters_are_disjoint FLevel1 FLevel2
           (loaded [mkRow [(Key.index, JNum (Fin 7)); (Key.level, JStr (js "level1"))]])
           (loaded [mkRow [(Key.index, JNum (Fin 7)); (Key.level, JStr (js "level1"))]]));
    try done.
  replace (visible _) with
    [mkRow [(Key.index, JNum (Fin 7)); (Key.level, JStr (js "level1"))]]
    by (vm_compute; reflexivity).
  apply list_elem_of_here.
Defined.

(** A filter type that is none of the seven the function knows (the
    name level1, say) is recorded as the current filter and nothing
    else happens: the rows shown, the Dataset, the sort state and the
    tracker stay as they were. *)
Theorem unknown_filter_type_only_recorded (t : jsstring) (st : AppState) :
  t ∉ knownFilterTypes ->
  filterData t st = setCurrentFilter t st
  /\ visible (filterData t st) = visible st
  /\ currentFilter (filterData t st) = t.
Proof.
  intros Hunknown.
  destruct (filterData_known_or_ignored t st) as [[f ->] | ->]; [| done].
  exfalso. apply Hunknown. unfold knownFilterTypes.
  apply list_elem_of_In, in_map. destruct f; simpl; tauto.
Qed.

Lemma unknown_filter_type_only_recorded_witness :
  visible (filterData (js "level1") (filterData (js "expired") (loaded [bob; alice; carol])))
  = visible (filterData (js "expired") (loaded [bob; alice; carol])).
Proof.
  apply (unknown_filter_type_only_recorded (js "level1")
           (filterData (js "expired") (loaded [bob; alice; carol]))).
  intros Hin. apply list_elem_of_In in Hin. vm_compute in Hin.
  repeat (destruct Hin as [Hin | Hin]; [discriminate Hin |]). exact Hin.
Defined.

(** ** handleFormSubmit: what is refused and what is sent *)

Lemma parseDigits_value (s : jsstring) (a : N) :
  allDigits s = true ->
  parseDigits 10 s (Some a)
  = Some (fold_left (fun acc c => (acc * 10 + (c - 0x30))%N) s a).
Proof.
  revert a. induction s as [ | c s IH]; intros a Hall; simpl; [done |].
  simpl in Hall. apply andb_true_iff in Hall as [Hc Hall].
  unfold digitValue. rewrite Hc.
  assert (Hlt : (c - 0x30 <? 10)%N = true) by (bool_props Hc; apply N.ltb_lt; lia).
  rewrite Hlt. simpl. by apply IH.
Qed.

Lemma parseDigits_decimalValue (s : jsstring) :
  allDigits s = true -> s <> [] ->
  parseDigits 10 s None = Some (decimalValue s).
Proof.
  intros Hall Hne. destruct s as [ | c s]; [done |].
  pose proof Hall as Hall'. simpl in Hall'. apply andb_true_iff in Hall' as [Hc Hrest].
  cbn [parseDigits]. unfold digitValue. rewrite Hc.
  assert (Hlt : (c - 0x30 <? 10)%N = true) by (bool_props Hc; apply N.ltb_lt; lia).
  rewrite Hlt. simpl default. rewrite (parseDigits_value s _ Hrest). reflexivity.
Qed.

Lemma digits_not_hex_prefix (s : jsstring) :
  allDigits s = true ->
  match s with
  | z :: x :: rest =>
      if ((z =? 0x30) && ((x =? 0x78) || (x =? 0x58)))%N then (16%N, rest) else (10%N, s)
  | _ => (10%N, s)
  end = (10%N, s).
Proof.
  intros Hall. destruct s as [ | z [ | x rest]]; try done.
  simpl in Hall. apply andb_true_iff in Hall as [_ Hall].
  apply andb_true_iff in Hall as [Hx _]. bool_props Hx.
  rewrite (proj2 (N.eqb_neq x 0x78)), (proj2 (N.eqb_neq x 0x58)) by lia.
  by rewrite andb_false_r.
Qed.

(** parseInt of a minus sign followed by decimal digits. *)
Lemma parseInt_negative (s : jsstring) :
  allDigits s = true -> s <> [] ->
  parseInt (0x2D%N :: s) = Fin (- Z.of_N (decimalValue s)).
Proof.
  intros Hall Hne. unfold parseInt. cbn [trimStart].
  replace (isWhiteSpace 0x2D) with false by reflexivity.
  unfold stripSign. replace (0x2D =? 0x2D)%N with true by reflexivity.
  rewrite (digits_not_hex_prefix s Hall), (parseDigits_decimalValue s Hall Hne).
  reflexivity.
Qed.

Section Submission.

Variable DateParse : jsstring -> option Z.
Variable page : Page.

(** With a tier-1 status and the elapsed-days field left empty, the
    submission is refused: the handler shows the must-fill alert, puts
    the focus on the field, sends no request and changes no variable. *)
Theorem tier1_without_days_is_refused (f : EditForm) (srv : Server) (now : Z)
    (st : AppState) :
  hasTier1Marker (zairyuShikaku f) = true ->
  kiManryoDays f = [] ->
  handleFormSubmit DateParse page f srv now st
  = (st, [EvAlert alertRequired; EvFocus kiManryoField])
  /\ existsb isFetch (snd (handleFormSubmit DateParse page f srv now st)) = false.
Proof.
  intros Hm Hd. unfold handleFormSubmit, validateForm. by rewrite Hm, Hd.
Qed.

(** A field of decimal digits passes the check whatever the status; the
    first thing the handler then does is send the form, the field's
    text unchanged in the body: a POST to /api/data/add for a new record
    and a PUT to /api/data/update/ followed by the record's index
    otherwise. *)
Theorem decimal_days_are_submitted (f : EditForm) (srv : Server) (now : Z)
    (st : AppState) :
  allDigits (kiManryoDays f) = true ->
  kiManryoDays f <> [] ->
  validateForm f = None
  /\ (exists rest, snd (handleFormSubmit DateParse page f srv now st)
                   = saveRequest f :: rest)
  /\ In (js "既満了日数", kiManryoDays f) (formData f)
  /\ (editIndex f = [] ->
      saveRequest f = EvFetch (js "POST") (js "/api/data/add") (Some (formData f)))
  /\ (editIndex f <> [] ->
      saveRequest f = EvFetch (js "PUT") (js "/api/data/update/" ++ editIndex f)
                              (Some (formData f))).
Proof.
  intros Hall Hne.
  assert (Hv : validateForm f = None).
  { unfold validateForm. destruct (hasTier1Marker _); [| done].
    rewrite bool_decide_eq_false_2 by done.
    destruct (parseInt_decimal _ Hall Hne) as [n ->]. simpl.
    by rewrite (proj2 (Z.ltb_ge (Z.of_N n) 0)) by lia. }
  split; [done |]. split; [| split; [| split]].
  - unfold handleFormSubmit. rewrite Hv.
    destruct (onMutation srv); try by eexists.
    destruct (reloadAndMark DateParse page srv now st). by eexists.
  - unfold formData. simpl. do 10 right. by left.
  - intros He. unfold saveRequest. by rewrite bool_decide_eq_true_2.
  - intros He. unfold saveRequest. by rewrite bool_decide_eq_false_2.
Qed.

(** With a tier-1 status, a minus sign followed by decimal digits is
    refused exactly when the digits are not all zeros: -5 is refused
    with the number alert, -0 is sent. *)
Theorem negative_days_are_refused (f : EditForm) (digits : jsstring) :
  hasTier1Marker (zairyuShikaku f) = true ->
  kiManryoDays f = 0x2D%N :: digits ->
  allDigits digits = true -> digits <> [] ->
  (decimalValue digits <> 0%N ->
   validateForm f = Some (alertNotNumber, kiManryoField))
  /\ (decimalValue digits = 0%N -> validateForm f = None).
Proof.
  intros Hm Hd Hall Hne. unfold validateForm.
  rewrite Hm, Hd, bool_decide_eq_false_2 by done.
  rewrite (parseInt_negative digits Hall Hne). simpl. split.
  - intros Hv. by rewrite (proj2 (Z.ltb_lt _ 0)) by lia.
  - intros ->. reflexivity.
Qed.

End Submission.

Lemma tier1_without_days_is_refused_witness :
  handleFormSubmit dateAt2000 appPage (tier1Form "") (okServer [bob] None) 1500
                   (loaded [bob])
  = (loaded [bob], [EvAlert alertRequired; EvFocus kiManryoField]).
Proof.
  apply (tier1_without_days_is_refused dateAt2000 appPage (tier1Form "")
           (okServer [bob] None) 1500 (loaded [bob])); vm_compute; reflexivity.
Defined.

Lemma decimal_days_are_submitted_witness :
  validateForm (tier1Form "1650") = None.
Proof.
  apply (decimal_days_are_submitted dateAt2000 appPage (tier1Form "1650")
           (okServer [bob] None) 1500 (loaded [bob])).
  - vm_compute. reflexivity.
  - vm_compute. discriminate.
Defined.

Lemma negative_days_are_refused_witness :
  validateForm (tier1Form "-5") = Some (alertNotNumber, kiManryoField)
  /\ validateForm (tier1Form "-0") = None.
Proof.
  split.
  - apply (negative_days_are_refused (tier1Form "-5") (js "5"));
      try (vm_compute; reflexivity); vm_compute; discriminate.
  - apply (negative_days_are_refused (tier1Form "-0") (js "0"));
      try (vm_compute; reflexivity); vm_compute; discriminate.
Defined.

(** ** trim *)

Lemma trimStart_length (s : jsstring) : (length (trimStart s) <= length s)%nat.
Proof.
  induction s as [ | c s IH]; simpl; [done |].
  destruct (isWhiteSpace c); simpl; lia.
Qed.

Lemma trimStart_idem (s : jsstring) : trimStart (trimStart s) = trimStart s.
Proof.
  induction s as [ | c s IH]; simpl; [done |].
  destruct (isWhiteSpace c) eqn:Hc; [done |]. simpl. by rewrite Hc.
Qed.

Lemma trimStart_suffix (s : jsstring) : exists p, s = p ++ trimStart s.
Proof.
  induction s as [ | c s [p IH]]; simpl; [by exists [] |].
  destruct (isWhiteSpace c).
  - exists (c :: p). simpl. by rewrite <- IH.
  - by exists [].
Qed.

Lemma trimStart_prefix (p q : jsstring) :
  trimStart (p ++ q) = p ++ q -> p <> [] -> trimStart p = p.
Proof.
  intros Hpq Hp. destruct p as [ | c p]; [done |]. simpl in *.
  destruct (isWhiteSpace c); [| done].
  pose proof (trimStart_length (p ++ q)) as Hlen.
  rewrite Hpq in Hlen. simpl in Hlen. lia.
Qed.

(** Trimming what trim returned changes nothing. *)
Lemma trim_idem (s : jsstring) : trim (trim s) = trim s.
Proof.
  unfold trim. set (u := trimStart s). set (v := trimStart (rev u)).
  assert (Hfront : trimStart (rev v) = rev v).
  { destruct (decide (v = [])) as [-> | Hv]; [done |].
    destruct (trimStart_suffix (rev u)) as [p Hp]. fold v in Hp.
    assert (Hu : u = rev v ++ rev p).
    { rewrite <- (rev_involutive u), Hp. apply rev_app_distr. }
    apply (trimStart_prefix (rev v) (rev p)).
    - rewrite <- Hu. apply trimStart_idem.
    - intros Hr. apply Hv. rewrite <- (rev_involutive v), Hr. reflexivity. }
  rewrite Hfront, rev_involutive. unfold v. by rewrite trimStart_idem.
Qed.

Lemma trim_noWhiteSpace (s : jsstring) : noWhiteSpace s = true -> trim s = s.
Proof.
  intros Hs. unfold trim.
  assert (Hstart : forall t, noWhiteSpace t = true -> trimStart t = t).
  { intros [ | c t]; simpl; [done |].
    rewrite andb_true_iff, negb_true_iff. by intros [-> _]. }
  rewrite (Hstart s Hs), Hstart, rev_involutive; [done |].
  unfold noWhiteSpace in *. rewrite forallb_forall in Hs |- *.
  intros c Hc. apply Hs. by apply in_rev.
Qed.

Lemma digits_noWhiteSpace (s : jsstring) : allDigits s = true -> noWhiteSpace s = true.
Proof.
  unfold allDigits, noWhiteSpace. rewrite !forallb_forall. intros Hs c Hc.
  apply negb_true_iff, digit_not_whiteSpace, Hs, Hc.
Qed.

(** ** formatKisei and convertToDateInput *)

Lemma uintToString_digits (u : Decimal.uint) : allDigits (uintToString u) = true.
Proof. induction u; simpl; done. Qed.

Lemma uintToString_nonempty (u : Decimal.uint) :
  u <> Decimal.Nil -> uintToString u <> [].
Proof. by destruct u. Qed.

Lemma formatKisei_digits (s : jsstring) :
  allDigits s = true -> s <> [] -> formatKisei (JStr s) = s ++ js "期".
Proof.
  intros Hall Hne. unfold formatKisei.
  assert (Hdash : strictEqStr (JStr s) (js "-") = false).
  { simpl. apply bool_decide_eq_false_2. intros ->. discriminate Hall. }
  simpl ToBoolean. rewrite (bool_decide_eq_false_2 (s = [])) by done.
  rewrite Hdash. simpl negb. simpl orb. cbv iota.
  change (ToString (JStr s)) with s.
  rewrite (trim_noWhiteSpace s (digits_noWhiteSpace s Hall)).
  by rewrite (bool_decide_eq_false_2 (s = [])), Hall by done.
Qed.

(** A cohort that is a positive integer up to 2^53 - 1 (the integers
    String prints digit by digit), or a string of decimal digits, is
    shown with the unit 期 after it; the number 0, null, a missing
    value, the empty string and a dash are all shown as a dash. *)
Theorem formatKisei_integers (n : Z) (digits : jsstring) :
  0 < n <= 9007199254740991 -> allDigits digits = true -> digits <> [] ->
  formatKisei (JNum (Fin n)) = NumberToString (Fin n) ++ js "期"
  /\ formatKisei (JStr digits) = digits ++ js "期"
  /\ formatKisei (JNum (Fin 0)) = js "-"
  /\ formatKisei JNull = js "-" /\ formatKisei JUndef = js "-"
  /\ formatKisei (JStr []) = js "-" /\ formatKisei (JStr (js "-")) = js "-".
Proof.
  intros [Hn _] Hall Hne.
  split; [| split; [by apply formatKisei_digits | by repeat split]].
  unfold formatKisei. simpl ToBoolean.
  rewrite (proj2 (Z.eqb_neq n 0)) by lia. simpl.
  unfold ToString; simpl. rewrite (proj2 (Z.ltb_ge n 0)) by lia.
  set (s := uintToString (N.to_uint (Z.abs_N n))).
  assert (Hs : allDigits s = true) by apply uintToString_digits.
  assert (Hs' : s <> []).
  { apply uintToString_nonempty. destruct (Z.abs_N n) as [ | p] eqn:Hp; [lia |].
    apply Unsigned.to_uint_nonnil. }
  rewrite (trim_noWhiteSpace s (digits_noWhiteSpace s Hs)).
  by rewrite (bool_decide_eq_false_2 (s = [])), Hs by done.
Qed.

Lemma formatKisei_integers_witness :
  formatKisei (JNum (Fin 12)) = js "12期" /\ formatKisei (JStr (js "3")) = js "3期".
Proof.
  destruct (formatKisei_integers 12 (js "3")) as (Hn & Hs & _).
  - lia.
  - reflexivity.
  - vm_compute. discriminate.
  - split; [rewrite Hn | rewrite Hs]; reflexivity.
Defined.

Lemma formatKisei_cases (kisei : jsval) :
  formatKisei kisei = js "-"
  \/ (exists s, allDigits s = true /\ s <> [] /\ formatKisei kisei = s ++ js "期")
  \/ (exists t, formatKisei kisei = trim t
                /\ negb (bool_decide (trim t = [])) && allDigits (trim t) = false).
Proof.
  unfold formatKisei.
  destruct (negb (ToBoolean kisei) || strictEqStr kisei (js "-")); [by left |].
  destruct (negb (bool_decide (trim (ToString kisei) = []))
            && allDigits (trim (ToString kisei))) eqn:Hdigits.
  - right; left. exists (trim (ToString kisei)).
    apply andb_true_iff in Hdigits as [Hne Hall].
    apply negb_true_iff, bool_decide_eq_false in Hne. by repeat split.
  - right; right. by exists (ToString kisei).
Qed.

Lemma formatKisei_of_string (s : jsstring) :
  s <> [] -> s <> js "-" ->
  formatKisei (JStr s)
  = if negb (bool_decide (trim s = [])) && allDigits (trim s)
    then trim s ++ js "期" else trim s.
Proof.
  intros Hne Hdash. unfold formatKisei. simpl ToBoolean. simpl strictEqStr.
  by rewrite (bool_decide_eq_false_2 _ Hne), (bool_decide_eq_false_2 _ Hdash).
Qed.

(** Formatting a cohort that is already formatted changes nothing, as
    long as the first formatting did not come out empty (it does for a
    string of white space only). *)
Theorem formatKisei_idempotent (kisei : jsval) :
  formatKisei kisei <> [] ->
  formatKisei (JStr (formatKisei kisei)) = formatKisei kisei.
Proof.
  intros Hout.
  destruct (formatKisei_cases kisei)
    as [-> | [(s & Hall & Hne & Hs) | (t & Ht & Hdigits)]].
  - reflexivity.
  - rewrite Hs.
    assert (Hlong : s ++ js "期" <> [] /\ s ++ js "期" <> js "-").
    { destruct s as [ | c [ | c' s']]; simpl; [done | |]; split; discriminate. }
    destruct Hlong as [Hne' Hdash]. rewrite (formatKisei_of_string _ Hne' Hdash).
    assert (Hclean : noWhiteSpace (s ++ js "期") = true).
    { unfold noWhiteSpace. rewrite forallb_app. apply andb_true_iff. split; [| done].
      by apply digits_noWhiteSpace. }
    rewrite (trim_noWhiteSpace _ Hclean).
    assert (Hnot : allDigits (s ++ js "期") = false).
    { unfold allDigits. rewrite forallb_app. by rewrite andb_false_r. }
    by rewrite Hnot, andb_false_r.
  - rewrite Ht in Hout |- *.
    destruct (decide (trim t = js "-")) as [-> | Hdash]; [reflexivity |].
    rewrite (formatKisei_of_string _ Hout Hdash), trim_idem. by rewrite Hdigits.
Qed.

Lemma formatKisei_idempotent_witness :
  formatKisei (JStr (formatKisei (JStr (js " 3 ")))) = formatKisei (JStr (js " 3 ")).
Proof.
  apply (formatKisei_idempotent (JStr (js " 3 "))). vm_compute. discriminate.
Defined.

Lemma replaceAll_free (c by_ : N) (s : jsstring) :
  free c s = true -> replaceAll c by_ s = s.
Proof.
  unfold free, replaceAll. induction s as [ | x s IH]; simpl; [done |].
  rewrite andb_true_iff, negb_true_iff. intros [-> Hs]. by rewrite IH.
Qed.

Lemma replaceAll_app (c by_ : N) (s t : jsstring) :
  replaceAll c by_ (s ++ t) = replaceAll c by_ s ++ replaceAll c by_ t.
Proof. apply map_app. Qed.

(** A date written year/month/day comes out as year-month-day, ready
    for a date input; and whatever string goes in, no slash comes
    out. *)
Theorem convertToDateInput_dashes (year month day text : jsstring) :
  free 0x2F year = true -> free 0x2F month = true -> free 0x2F day = true ->
  convertToDateInput (JStr (year ++ js "/" ++ month ++ js "/" ++ day))
  = Normal (year ++ js "-" ++ month ++ js "-" ++ day)
  /\ exists out, convertToDateInput (JStr text) = Normal out
                 /\ free 0x2F out = true.
Proof.
  intros Hy Hm Hd. split.
  - change (js "/") with [0x2F%N]. change (js "-") with [0x2D%N].
    set (s := year ++ [0x2F%N] ++ month ++ [0x2F%N] ++ day).
    assert (Hne : s <> [] /\ s <> js "-").
    { unfold s. destruct year as [ | c [ | c' y']]; split; discriminate. }
    destruct Hne as [Hne Hdash]. unfold convertToDateInput.
    cbn [ToBoolean strictEqStr].
    rewrite (bool_decide_eq_false_2 _ Hne), (bool_decide_eq_false_2 _ Hdash).
    cbn [negb orb]. f_equal. unfold s.
    rewrite !replaceAll_app, (replaceAll_free _ _ year Hy),
      (replaceAll_free _ _ month Hm), (replaceAll_free _ _ day Hd). reflexivity.
  - unfold convertToDateInput.
    destruct (negb (ToBoolean (JStr text)) || strictEqStr (JStr text) (js "-"));
      [by exists [] |].
    eexists. split; [reflexivity |].
    unfold free, replaceAll. rewrite forallb_forall. intros x Hx.
    apply in_map_iff in Hx as (y & <- & _).
    destruct (y =? 0x2F)%N eqn:Hy'; [done | by rewrite Hy'].
Qed.

Lemma convertToDateInput_dashes_witness :
  convertToDateInput (JStr (js "2024/04/01")) = Normal (js "2024-04-01").
Proof.
  apply (convertToDateInput_dashes (js "2024") (js "04") (js "01") []); reflexivity.
Defined.

(** ** The export file name *)

(** Whatever the header, extractFilenameFromDisposition returns null or
    a string that is not empty; a name taken from the plain form holds
    neither a double quote nor a semicolon. *)
Theorem extracted_name_is_null_or_nonempty (disposition : jsstring) :
  exists v, extractFilenameFromDisposition disposition = Normal v
    /\ ((v = JNull /\ Disposition.exec disposition = None)
        \/ exists name, v = JStr name /\ name <> []
             /\ (Disposition.exec disposition = Some (JUndef, JStr name) ->
                 free Disposition.dquote name = true
                 /\ free Disposition.semicolon name = true)).
Proof. apply extracted_name_cases. Qed.

Lemma decodeURIComponent_free (s : jsstring) :
  free Uri.percent s = true -> Uri.decodeURIComponent s = Normal s.
Proof.
  unfold free. induction s as [ | c s IH]; [done |].
  cbn [forallb Uri.decodeURIComponent].
  rewrite andb_true_iff. intros [Hc Hs]. rewrite Hc, (IH Hs). reflexivity.
Qed.

(** An encoded name without any percent sign is returned exactly as it
    stands in the header. *)
Theorem escape_free_name_is_kept (disposition encoded : jsstring) :
  Disposition.exec disposition = Some (JStr encoded, JUndef) ->
  free Uri.percent encoded = true ->
  extractFilenameFromDisposition disposition = Normal (JStr encoded).
Proof.
  intros Hexec Hfree. unfold extractFilenameFromDisposition. rewrite Hexec.
  destruct (exec_shape _ _ _ Hexec)
    as [(enc & [= <-] & _ & Hne & _) | (plain & [=] & _)].
  simpl ToBoolean. rewrite (bool_decide_eq_false_2 _ Hne). simpl negb.
  change (ToString (JStr encoded)) with encoded.
  by rewrite (decodeURIComponent_free _ Hfree).
Qed.

Lemma escape_free_name_is_kept_witness :
  extractFilenameFromDisposition (js "attachment; filename*=UTF-8''report_2024.xlsx")
  = Normal (JStr (js "report_2024.xlsx")).
Proof.
  apply (escape_free_name_is_kept (js "attachment; filename*=UTF-8''report_2024.xlsx")
           (js "report_2024.xlsx")); vm_compute; reflexivity.
Defined.

Section ExportName.

Variable DateParse : jsstring -> option Z.


End ExportName.

(** ** Loads, and sorting under a filter *)

Lemma runView_frame_witness :
  dataset (runView asciiToLowerCase
             [OpSort Key.nameLine1; OpFilter (js "expired"); OpSearch (js "bob");
              OpSort Key.index]
             (loaded [bob; alice; carol]))
  ≡ₚ [bob; alice; carol].
Proof.
  apply (runView_frame asciiToLowerCase
           [OpSort Key.nameLine1; OpFilter (js "expired"); OpSearch (js "bob");
            OpSort Key.index]
           (loaded [bob; alice; carol])).
  apply wellFormed_loaded.
Defined.

Lemma runView_without_sort_witness :
  dataset (runView asciiToLowerCase
             [OpFilter (js "expired"); OpSearch (js "bob"); OpFilter (js "all")]
             (loaded [bob; alice; carol]))
  = [bob; alice; carol].
Proof.
  apply (runView_without_sort asciiToLowerCase
           [OpFilter (js "expired"); OpSearch (js "bob"); OpFilter (js "all")]
           (loaded [bob; alice; carol])).
  - apply wellFormed_loaded.
  - reflexivity.
Defined.

Section Reloads.

Variable DateParse : jsstring -> option Z.
Variable page : Page.

Lemma loadSummary_after_load (response : fetched Summary) (rows : list row)
    (st : AppState) :
  let st' := fst (loadSummary DateParse page response (loadData (Ok rows) st)) in
  dataset st' = rows /\ visible st' = rows /\ currentFilter st' = currentFilter st.
Proof.
  assert (Hload : dataset (loadData (Ok rows) st) = rows
                  /\ visible (loadData (Ok rows) st) = rows).
  { unfold dataset, visible, deref; simpl. by rewrite deref_new_array. }
  destruct (loadSummary_sameView DateParse page response (loadData (Ok rows) st))
    as (Ha & Hd & Hf).
  assert (Hcf : currentFilter (fst (loadSummary DateParse page response
                                      (loadData (Ok rows) st))) = currentFilter st).
  { unfold loadSummary. destruct response as [ | | summary]; simpl; try done.
    destruct (hasSummaryElements page); simpl; [| done].
    unfold updateLastExportInfo. destruct (hasLastExportInfo page); simpl; [| done].
    destruct (lastChangeTimestamp st); [| done].
    destruct (parseSummaryTimestamp _ _); [| done].
    by destruct (negb _ && _). }
  cbv zeta. unfold dataset, visible, deref in *. rewrite Ha, Hd, Hf. by destruct Hload.
Qed.

(** After a save, a confirmed delete, an upload or a refresh that the
    backend answers ok, the Dataset is the list the backend returned and
    the table shows all of it, while [currentFilter] keeps the name of
    the filter that was active before. After a save or a delete the
    tracker is dirty, after an upload it is clean. *)
Theorem successful_reload_shows_whole_dataset (f : EditForm) (index : jsval)
    (srv : Server) (message : jsstring) (rows : list row) (now : Z) (st : AppState) :
  validateForm f = None ->
  onMutation srv = Ok message ->
  onData srv = Ok rows ->
  let shown st' :=
    dataset st' = rows /\ visible st' = rows /\ currentFilter st' = currentFilter st in
  (shown (fst (handleFormSubmit DateParse page f srv now st))
   /\ trackerState (fst (handleFormSubmit DateParse page f srv now st)) = Dirty)
  /\ (shown (fst (deleteRow DateParse page index true srv now st))
      /\ trackerState (fst (deleteRow DateParse page index true srv now st)) = Dirty)
  /\ (shown (fst (handleFileUpload DateParse page true srv st))
      /\ trackerState (fst (handleFileUpload DateParse page true srv st)) = Clean)
  /\ shown (fst (refreshData DateParse page srv st)).
Proof.
  intros Hv Hok Hdata shown.
  pose proof (loadSummary_after_load (onSummary srv) rows st) as Hloaded.
  cbv zeta in Hloaded.
  unfold shown, handleFormSubmit, deleteRow, handleFileUpload, refreshData,
    reloadAndMark, loadDataEv.
  rewrite Hv, Hok, Hdata. simpl negb. cbv iota.
  destruct (loadSummary DateParse page (onSummary srv) (loadData (Ok rows) st))
    as [st2 ev2]; simpl in *.
  repeat split; by destruct Hloaded as (? & ? & ?).
Qed.

End Reloads.

Lemma successful_reload_shows_whole_dataset_witness :
  visible (fst (handleFormSubmit dateAt2000 appPage (tier1Form "120")
                  (okServer [bob; alice] None) 1500
                  (filterData (js "expired") (loaded [bob]))))
  = [bob; alice].
Proof.
  destruct (successful_reload_shows_whole_dataset dateAt2000 appPage (tier1Form "120")
              (JNum (Fin 1)) (okServer [bob; alice] None) (js "ok") [bob; alice] 1500
              (filterData (js "expired") (loaded [bob])))
    as (((_ & Hvis & _) & _) & _).
  - vm_compute. reflexivity.
  - reflexivity.
  - reflexivity.
  - exact Hvis.
Defined.

Lemma sortTable_after_load (col : jsstring) (rows : list row) (st : AppState) :
  dataset (sortTable col (loadData (Ok rows) st))
  = arraySort (Sort.compareRows col (ascending (Sort.nextSort col (currentSort st))))
              rows
  /\ visible (sortTable col (loadData (Ok rows) st))
     = dataset (sortTable col (loadData (Ok rows) st))
  /\ currentFilter (sortTable col (loadData (Ok rows) st)) = currentFilter st.
Proof.
  assert (Hvis : visible (loadData (Ok rows) st) = rows).
  { unfold visible, deref. cbn [loadData filteredData arrays]. apply deref_new_array. }
  split; [| split; reflexivity].
  unfold sortTable, dataset, deref. cbn [storeArray arrays allData].
  unfold setCurrentSort. cbn [filteredData allData arrays currentSort ascending].
  fold (setCurrentSort (Sort.nextSort col (currentSort (loadData (Ok rows) st)))
          (loadData (Ok rows) st)).
  change (visible (setCurrentSort _ (loadData (Ok rows) st)))
    with (visible (loadData (Ok rows) st)).
  rewrite Hvis. cbn [loadData allData arrays filteredData currentSort].
  rewrite list_lookup_insert_eq by (rewrite length_app; simpl; lia).
  reflexivity.
Qed.

(** Whether a sort reaches the Dataset depends on the array
    [filteredData] names, not on [currentFilter]. A sort made on the
    rows that filterData has just produced for a filter other than [all]
    sorts that new array: the Dataset is untouched and the next filter
    shows its rows in the order they had. After a reload (a save, a
    delete, an upload or a refresh answered ok) [currentFilter] still
    names the filter, but [filteredData] names the Dataset's own array:
    a sort made then sorts the Dataset, and the next filter shows its
    rows in the sorted order. *)
Theorem sort_behind_filter_is_forgotten (f g : NamedFilter) (col : jsstring)
    (rows : list row) (st : AppState) :
  wellFormed st -> f <> FAll ->
  (visible (filterData (filterType g) (sortTable col (filterData (filterType f) st)))
   = List.filter (predicate g) (dataset st)
   /\ dataset (sortTable col (filterData (filterType f) st)) = dataset st)
  /\ (let reloaded := loadData (Ok rows) (filterData (filterType f) st) in
      currentFilter reloaded = filterType f
      /\ dataset reloaded = rows
      /\ dataset (sortTable col reloaded)
         = arraySort (Sort.compareRows col (ascending (currentSort (sortTable col reloaded))))
                     rows
      /\ visible (filterData (filterType g) (sortTable col reloaded))
         = List.filter (predicate g) (dataset (sortTable col reloaded))).
Proof.
  intros Hwf Hf. split.
  - assert (Hfiltered : wellFormed (filterData (filterType f) st)
              /\ filteredData (filterData (filterType f) st)
                 <> allData (filterData (filterType f) st)).
    { rewrite filterData_named.
      destruct f; try done;
        match goal with
        | |- wellFormed (assignFiltered ?rows ?s) /\ _ =>
            destruct (assignFiltered_frame rows s Hwf) as (? & _ & ?); by split
        end. }
    destruct Hfiltered as [Hwf' Hne].
    destruct (sortTable_frame col _ Hwf') as (_ & _ & Hsame).
    rewrite visible_filterData, (Hsame Hne), dataset_filterData. by split.
  - cbv zeta.
    destruct (sortTable_after_load col rows (filterData (filterType f) st))
      as (Hds & _ & _).
    split; [by rewrite filterData_named; destruct f |].
    split; [unfold dataset, deref; cbn [loadData allData arrays]; apply deref_new_array |].
    split; [exact Hds |]. apply visible_filterData.
Qed.

Lemma sort_behind_filter_is_forgotten_witness :
  visible (filterData (js "all")
             (sortTable Key.nameLine1 (filterData (js "expired") (loaded [bob; alice; carol]))))
  = [bob; alice; carol]
  /\ dataset (sortTable Key.nameLine1
                (loadData (Ok [bob; alice; carol])
                   (filterData (js "expired") (loaded [bob; alice; carol]))))
     = [alice; bob; carol].
Proof.
  destruct (sort_behind_filter_is_forgotten FExpired FAll Key.nameLine1
              [bob; alice; carol] (loaded [bob; alice; carol]))
    as [[Hvis _] (_ & _ & Hds & _)].
  - apply wellFormed_loaded.
  - discriminate.
  - change (js "all") with (filterType FAll).
    change (js "expired") with (filterType FExpired).
    split; [rewrite Hvis; reflexivity |].
    cbv zeta in Hds. rewrite Hds. vm_compute. reflexivity.
Defined.
